(** * gator: a templating delegator CNI meta plugin

    A shallow embedding of the configuration-synthesis pipeline and of the
    delegation contract of [gator].

    The sources hold three listings of [main.go].  The latest one stands at
    the end of [src/README.md] (from its line 278): it has the skip list and
    the functions [parseConf], [generateDownstream], [delegate],
    [getPluginPath], [handleError] and [main], and it is the one that
    [src/main_test.go] exercises.  It is embedded at the top level of this
    file.  The listing in [src/main.go] is an earlier state, with [prepare]
    in place of [parseConf] and [generateDownstream]; it is embedded in the
    module [MainGo].  The oldest listing ([src/README.md], lines 137 to 277)
    does everything in [main]; it is embedded in the module [FirstListing].

    Library code that the program calls ([encoding/json], [html/template],
    [evanphx/json-patch], [os], [os/exec], [path/filepath]) is not part of the
    repository.  It is modelled here as far as the program depends on it; each
    such definition says which library function it stands for.  Two limits of
    these models: the bytes that [json.Marshal] writes are modelled up to the
    document they denote (one compact text per document, keys sorted), and a
    template engine is a parameter of the program, of which [text_engine] is
    the fragment used in examples. *)

From Stdlib Require Import String Ascii List Bool Arith NArith ZArith Lia OrderedTypeEx
  DecimalString.
Import ListNotations.

Local Open Scope list_scope.
Local Open Scope string_scope.

(** ** Byte strings *)

(** Go's [[]byte] and [string] values are both sequences of bytes. *)
Definition bytes := string.

Fixpoint string_forallb (p : ascii -> bool) (s : string) : bool :=
  match s with
  | EmptyString => true
  | String c s' => p c && string_forallb p s'
  end.

Definition N_between (lo hi n : N) : bool := ((lo <=? n) && (n <=? hi))%N.

(** JSON text is written in this file with an apostrophe wherever the text
    has a double quote: [js] puts the double quotes back. *)
Fixpoint js (s : string) : string :=
  match s with
  | EmptyString => EmptyString
  | String c s' => String (if (N_of_ascii c =? 39)%N then ascii_of_N 34 else c) (js s')
  end.

(** ** JSON documents *)

(** A JSON document as a tree.  Numbers keep their literal text, as
    [json.RawMessage] does.  The members of an object are in document order,
    duplicates included; [canon] below gives the map that Go builds from
    them. *)
#[local] Unset Elimination Schemes.
Inductive json : Type :=
| JNull
| JBool (b : bool)
| JNum (lit : string)
| JStr (s : string)
| JArr (xs : list json)
| JObj (ms : list (string * json)).
#[local] Set Elimination Schemes.

(** Induction over documents, with the hypothesis available for every
    element of an array and every member value of an object. *)
Section JsonInduction.
Variable P : json -> Prop.
Hypothesis Hnull : P JNull.
Hypothesis Hbool : forall b, P (JBool b).
Hypothesis Hnum : forall lit, P (JNum lit).
Hypothesis Hstr : forall s, P (JStr s).
Hypothesis Harr : forall xs, Forall P xs -> P (JArr xs).
Hypothesis Hobj : forall ms, Forall (fun kv => P (snd kv)) ms -> P (JObj ms).

Fixpoint json_induction (v : json) : P v :=
  match v with
  | JNull => Hnull
  | JBool b => Hbool b
  | JNum lit => Hnum lit
  | JStr s => Hstr s
  | JArr xs =>
      Harr xs
        ((fix elems (l : list json) : Forall P l :=
            match l with
            | [] => Forall_nil P
            | x :: l' => Forall_cons x (json_induction x) (elems l')
            end) xs)
  | JObj ms =>
      Hobj ms
        ((fix members (l : list (string * json)) : Forall (fun kv => P (snd kv)) l :=
            match l with
            | [] => Forall_nil _
            | kv :: l' => Forall_cons kv (json_induction (snd kv)) (members l')
            end) ms)
  end.
End JsonInduction.

(** *** Lexical elements *)

Definition is_ws (c : ascii) : bool :=
  let n := N_of_ascii c in
  ((n =? 32) || (n =? 9) || (n =? 10) || (n =? 13))%N.

Fixpoint skip_ws (s : string) : string :=
  match s with
  | String c s' => if is_ws c then skip_ws s' else s
  | EmptyString => s
  end.

Definition is_digit (c : ascii) : bool := N_between 48 57 (N_of_ascii c).

(** Characters that can occur in a number literal: digits, sign, point,
    exponent mark. *)
Definition is_numchar (c : ascii) : bool :=
  let n := N_of_ascii c in
  (is_digit c || (n =? 45) || (n =? 43) || (n =? 46) || (n =? 101) || (n =? 69))%N.

Fixpoint span_num (s : string) : string * string :=
  match s with
  | String c s' =>
      if is_numchar c
      then (let (a, b) := span_num s' in (String c a, b))
      else (EmptyString, s)
  | EmptyString => (EmptyString, EmptyString)
  end.

Fixpoint drop_digits (s : string) : string :=
  match s with
  | String c s' => if is_digit c then drop_digits s' else s
  | EmptyString => s
  end.

(** One digit at least, then the rest. *)
Definition digits1 (s : string) : option string :=
  match s with
  | String c s' => if is_digit c then Some (drop_digits s') else None
  | EmptyString => None
  end.

Definition number_exp (s : string) : bool :=
  match s with
  | EmptyString => true
  | String c s' =>
      if ((N_of_ascii c =? 101) || (N_of_ascii c =? 69))%N then
        let s'' := match s' with
                   | String g t =>
                       if ((N_of_ascii g =? 43) || (N_of_ascii g =? 45))%N then t else s'
                   | EmptyString => s'
                   end in
        match digits1 s'' with
        | Some EmptyString => true
        | _ => false
        end
      else false
  end.

Definition number_frac (s : string) : bool :=
  match s with
  | String c s' =>
      if (N_of_ascii c =? 46)%N then
        match digits1 s' with
        | Some r => number_exp r
        | None => false
        end
      else number_exp s
  | EmptyString => true
  end.

(** The number grammar of RFC 8259: an optional minus sign; an integer part
    that is either a single zero or a non-zero digit followed by digits; an
    optional fraction (a point and one digit at least); an optional exponent
    (e or E, an optional sign, one digit at least). *)
Definition is_number (s : string) : bool :=
  let s1 := match s with
            | String c s' => if (N_of_ascii c =? 45)%N then s' else s
            | EmptyString => s
            end in
  match s1 with
  | String d r =>
      if (N_of_ascii d =? 48)%N then number_frac r
      else if is_digit d then number_frac (drop_digits r)
      else false
  | EmptyString => false
  end.

Definition hex_val (c : ascii) : option N :=
  let n := N_of_ascii c in
  if N_between 48 57 n then Some (n - 48)%N
  else if N_between 97 102 n then Some (n - 87)%N
  else if N_between 65 70 n then Some (n - 55)%N
  else None.

Definition hex4 (a b c d : ascii) : option N :=
  match hex_val a, hex_val b, hex_val c, hex_val d with
  | Some x, Some y, Some z, Some w => Some (((x * 16 + y) * 16 + z) * 16 + w)%N
  | _, _, _, _ => None
  end.

Definition chr (n : N) : string := String (ascii_of_N n) EmptyString.

(** UTF-8 encoding of a code point, as [utf8.EncodeRune]. *)
Definition utf8_encode (cp : N) : string :=
  (if cp <? 128 then chr cp
   else if cp <? 2048 then chr (192 + cp / 64) ++ chr (128 + cp mod 64)
   else if cp <? 65536 then
     chr (224 + cp / 4096) ++ chr (128 + (cp / 64) mod 64) ++ chr (128 + cp mod 64)
   else
     chr (240 + cp / 262144) ++ chr (128 + (cp / 4096) mod 64)
       ++ chr (128 + (cp / 64) mod 64) ++ chr (128 + cp mod 64))%N.

Definition replacement_char : N := 65533.

Definition is_high_surrogate (u : N) : bool := N_between 55296 56319 u.
Definition is_low_surrogate (u : N) : bool := N_between 56320 57343 u.

Definition unescape (e : ascii) : option ascii :=
  let n := N_of_ascii e in
  (if (n =? 34) || (n =? 92) || (n =? 47) then Some e
   else if n =? 98 then Some (ascii_of_N 8)
   else if n =? 102 then Some (ascii_of_N 12)
   else if n =? 110 then Some (ascii_of_N 10)
   else if n =? 114 then Some (ascii_of_N 13)
   else if n =? 116 then Some (ascii_of_N 9)
   else None)%N.

Definition prepend (p : string) (r : option (string * string)) : option (string * string) :=
  match r with
  | Some (s, rest) => Some (p ++ s, rest)
  | None => None
  end.

(** The body of a string literal, after its opening quote: the decoded
    string and what follows the closing quote.  Escapes are those of RFC 8259;
    a [\u] escape is decoded to UTF-8, a surrogate that is not part of a
    pair to U+FFFD (as the [unquote] function of [encoding/json] does). *)
Fixpoint parse_chars (s : string) : option (string * string) :=
  match s with
  | EmptyString => None
  | String c s1 =>
      if (N_of_ascii c =? 34)%N then Some (EmptyString, s1)
      else if (N_of_ascii c =? 92)%N then
        match s1 with
        | EmptyString => None
        | String e s2 =>
            if (N_of_ascii e =? 117)%N then
              match s2 with
              | String h1 (String h2 (String h3 (String h4 s3))) =>
                  match hex4 h1 h2 h3 h4 with
                  | None => None
                  | Some u =>
                      if is_high_surrogate u then
                        match s3 with
                        | String b1 (String b2 (String l1 (String l2 (String l3 (String l4 s4))))) =>
                            match (if (N_of_ascii b1 =? 92)%N && (N_of_ascii b2 =? 117)%N
                                   then hex4 l1 l2 l3 l4 else None) with
                            | Some lo =>
                                if is_low_surrogate lo
                                then prepend
                                       (utf8_encode (65536 + (u - 55296) * 1024 + (lo - 56320))%N)
                                       (parse_chars s4)
                                else prepend (utf8_encode replacement_char) (parse_chars s3)
                            | None => prepend (utf8_encode replacement_char) (parse_chars s3)
                            end
                        | _ => prepend (utf8_encode replacement_char) (parse_chars s3)
                        end
                      else if is_low_surrogate u
                      then prepend (utf8_encode replacement_char) (parse_chars s3)
                      else prepend (utf8_encode u) (parse_chars s3)
                  end
              | _ => None
              end
            else
              match unescape e with
              | Some c' => prepend (String c' EmptyString) (parse_chars s2)
              | None => None
              end
        end
      else if (N_of_ascii c <? 32)%N then None
      else prepend (String c EmptyString) (parse_chars s1)
  end.

Fixpoint strip_prefix (p s : string) : option string :=
  match p with
  | EmptyString => Some s
  | String a p' =>
      match s with
      | String b s' => if Ascii.eqb a b then strip_prefix p' s' else None
      | EmptyString => None
      end
  end.

Definition expect (lit : string) (v : json) (s : string) : option (json * string) :=
  match strip_prefix lit s with
  | Some rest => Some (v, rest)
  | None => None
  end.

(** *** The parser *)

(** Recursive descent over the grammar of RFC 8259.  Every call consumes a
    character before it recurses, so [fuel] larger than the length of the
    input is never exhausted. *)
Fixpoint parse_value (fuel : nat) (s : string) : option (json * string) :=
  match fuel with
  | O => None
  | S fuel' =>
      match skip_ws s with
      | EmptyString => None
      | String c s1 =>
          let n := N_of_ascii c in
          if is_numchar c then
            (let (lit, rest) := span_num (String c s1) in
             if is_number lit then Some (JNum lit, rest) else None)
          else if (n =? 34)%N then
            match parse_chars s1 with
            | Some (str, rest) => Some (JStr str, rest)
            | None => None
            end
          else if (n =? 91)%N then
            match skip_ws s1 with
            | EmptyString => None
            | String d s2 =>
                if (N_of_ascii d =? 93)%N then Some (JArr [], s2)
                else match parse_elems fuel' s1 with
                     | Some (xs, rest) => Some (JArr xs, rest)
                     | None => None
                     end
            end
          else if (n =? 123)%N then
            match skip_ws s1 with
            | EmptyString => None
            | String d s2 =>
                if (N_of_ascii d =? 125)%N then Some (JObj [], s2)
                else match parse_members fuel' s1 with
                     | Some (ms, rest) => Some (JObj ms, rest)
                     | None => None
                     end
            end
          else if (n =? 110)%N then expect "null" JNull (String c s1)
          else if (n =? 116)%N then expect "true" (JBool true) (String c s1)
          else if (n =? 102)%N then expect "false" (JBool false) (String c s1)
          else None
      end
  end
with parse_elems (fuel : nat) (s : string) : option (list json * string) :=
  match fuel with
  | O => None
  | S fuel' =>
      match parse_value fuel' s with
      | None => None
      | Some (v, s1) =>
          match skip_ws s1 with
          | EmptyString => None
          | String d s2 =>
              if (N_of_ascii d =? 44)%N then
                match parse_elems fuel' s2 with
                | Some (vs, rest) => Some (v :: vs, rest)
                | None => None
                end
              else if (N_of_ascii d =? 93)%N then Some ([v], s2)
              else None
          end
      end
  end
with parse_members (fuel : nat) (s : string) : option (list (string * json) * string) :=
  match fuel with
  | O => None
  | S fuel' =>
      match skip_ws s with
      | EmptyString => None
      | String q s1 =>
          if (N_of_ascii q =? 34)%N then
            match parse_chars s1 with
            | None => None
            | Some (k, s2) =>
                match skip_ws s2 with
                | EmptyString => None
                | String col s3 =>
                    if (N_of_ascii col =? 58)%N then
                      match parse_value fuel' s3 with
                      | None => None
                      | Some (v, s4) =>
                          match skip_ws s4 with
                          | EmptyString => None
                          | String d s5 =>
                              if (N_of_ascii d =? 44)%N then
                                match parse_members fuel' s5 with
                                | Some (ms, rest) => Some ((k, v) :: ms, rest)
                                | None => None
                                end
                              else if (N_of_ascii d =? 125)%N then Some ([(k, v)], s5)
                              else None
                          end
                      end
                    else None
                end
            end
          else None
      end
  end.

(** A whole document: one value, then nothing but white space. *)
Definition json_parse (data : bytes) : option json :=
  match parse_value (S (String.length data)) data with
  | Some (v, rest) =>
      match skip_ws rest with
      | EmptyString => Some v
      | _ => None
      end
  | None => None
  end.


(** *** Serialisation *)

Definition hex_digit (n : N) : ascii :=
  if (n <? 10)%N then ascii_of_N (48 + n) else ascii_of_N (87 + n).

Definition u00 (c : ascii) : string :=
  let n := N_of_ascii c in
  "\u00" ++ String (hex_digit (n / 16)) (String (hex_digit (n mod 16)) EmptyString).

(** How [json.Marshal] writes one byte of a string: quote and backslash are
    escaped with a backslash, newline, carriage return and tab by their
    letter, other control characters and the HTML-sensitive [<], [>], [&]
    as [\u00XX]; any other byte is written as it is. *)
Definition escape_char (c : ascii) : string :=
  let n := N_of_ascii c in
  (if (n =? 34) || (n =? 92) then String "\" (String c EmptyString)
   else if n =? 10 then "\n"
   else if n =? 13 then "\r"
   else if n =? 9 then "\t"
   else if (n <? 32) || (n =? 60) || (n =? 62) || (n =? 38) then u00 c
   else String c EmptyString)%N.

Fixpoint escape (s : string) : string :=
  match s with
  | EmptyString => EmptyString
  | String c s' => escape_char c ++ escape s'
  end.

Definition dquote : ascii := ascii_of_N 34.

Definition quote (s : string) : string := String dquote (escape s ++ String dquote EmptyString).

(** Compact output, members in the order of the list. *)
Fixpoint print (v : json) : string :=
  match v with
  | JNull => "null"
  | JBool true => "true"
  | JBool false => "false"
  | JNum lit => lit
  | JStr s => quote s
  | JArr xs =>
      match xs with
      | [] => "[]"
      | x :: xs' =>
          "[" ++ print x
          ++ (fix more (l : list json) : string :=
                match l with
                | [] => "]"
                | y :: l' => "," ++ print y ++ more l'
                end) xs'
      end
  | JObj ms =>
      match ms with
      | [] => "{}"
      | kv :: ms' =>
          "{" ++ quote (fst kv) ++ ":" ++ print (snd kv)
          ++ (fix more (l : list (string * json)) : string :=
                match l with
                | [] => "}"
                | kv' :: l' => "," ++ quote (fst kv') ++ ":" ++ print (snd kv') ++ more l'
                end) ms'
      end
  end.

Fixpoint print_elems (l : list json) : string :=
  match l with
  | [] => "]"
  | y :: l' => "," ++ print y ++ print_elems l'
  end.

Fixpoint print_members (l : list (string * json)) : string :=
  match l with
  | [] => "}"
  | kv :: l' => "," ++ quote (fst kv) ++ ":" ++ print (snd kv) ++ print_members l'
  end.

(** *** Objects as maps *)

(** [json-patch] decodes an object into a Go map: one entry per key, the
    last occurrence of a key winning, and [json.Marshal] writes a map with its
    keys sorted bytewise.  An object in this normal form is an association
    list with strictly increasing keys. *)

Fixpoint obj_get (k : string) (ms : list (string * json)) : option json :=
  match ms with
  | [] => None
  | (k', v) :: ms' => if String.eqb k k' then Some v else obj_get k ms'
  end.

Fixpoint obj_set (k : string) (v : json) (ms : list (string * json)) : list (string * json) :=
  match ms with
  | [] => [(k, v)]
  | (k', v') :: ms' =>
      match String.compare k k' with
      | Lt => (k, v) :: (k', v') :: ms'
      | Eq => (k, v) :: ms'
      | Gt => (k', v') :: obj_set k v ms'
      end
  end.

Fixpoint obj_del (k : string) (ms : list (string * json)) : list (string * json) :=
  match ms with
  | [] => []
  | (k', v) :: ms' => if String.eqb k k' then obj_del k ms' else (k', v) :: obj_del k ms'
  end.

(** The map a document denotes: members inserted in document order. *)
Fixpoint canon (v : json) : json :=
  match v with
  | JArr xs => JArr (map canon xs)
  | JObj ms =>
      JObj (fold_left (fun acc kv => obj_set (fst kv) (canon (snd kv)) acc) ms [])
  | _ => v
  end.

(** *** RFC 7396 merge patch *)

(** [jsonpatch.MergePatch] belongs to the library [evanphx/json-patch], an
    implementation of RFC 7396.  [merge] is what the library does with a
    value [target] of the document and the value [patch] that the patch has
    under the same key.  An object patch is applied member by member to the
    target (to the empty object when the target is not an object): a [null]
    member deletes the key, any other member is merged into the target's
    member.  A patch that is not an object replaces the target.  The library
    goes beyond section 2 of the RFC in one respect: a value that it adds
    under a new key, or puts in the place of a value that is not an object,
    loses the [null] members of the objects in it, also of the objects that
    are elements of its arrays ([pruneNulls]); the elements of an array stay,
    [null] ones included, and an array put in the place of an object stays as
    it is written. *)
Fixpoint merge (target patch : json) : json :=
  match patch with
  | JObj pms =>
      JObj (fold_left
              (fun acc kv =>
                 match snd kv with
                 | JNull => obj_del (fst kv) acc
                 | _ =>
                     obj_set (fst kv)
                       (merge (match obj_get (fst kv) acc with
                               | Some t => t
                               | None => JNull
                               end) (snd kv))
                       acc
                 end)
              pms
              (match target with JObj tms => tms | _ => [] end))
  | JArr xs =>
      match target with
      | JObj _ => patch
      | _ => JArr (map (merge JNull) xs)
      end
  | _ => patch
  end.

(** ** Results and errors *)

Inductive result (E A : Type) : Type :=
| Ok (a : A)
| Err (e : E).
Arguments Ok {E A} a.
Arguments Err {E A} e.

(** The text of a library error ([err.Error()]).  Only the kind of a library
    error is modelled; one fixed text stands for every message of that
    kind. *)
Definition error_text := string.

Definition ErrBadJSONDoc : error_text := "Invalid JSON Document".
Definition ErrBadJSONPatch : error_text := "Invalid JSON Patch".
Definition SyntaxError : error_text := "invalid JSON syntax".
Definition UnmarshalTypeError : error_text := "json: cannot unmarshal value into Go value".

(** [jsonpatch.MergePatch(docData, patchData)].  Either input failing to
    parse is an error, the document first; so is a document that is [null],
    and then a patch that is [null] or a scalar.  An object patch is merged
    into the document, both read as maps; an array patch is the result,
    whatever the document is, without the [null] members of the objects in
    it.  The result is written back as JSON text. *)
Definition MergePatch (docData patchData : bytes) : result error_text bytes :=
  match json_parse docData with
  | None => Err ErrBadJSONDoc
  | Some doc =>
      match json_parse patchData with
      | None => Err ErrBadJSONPatch
      | Some patch =>
          match doc with
          | JNull => Err ErrBadJSONDoc
          | _ =>
              match patch with
              | JObj _ => Ok (print (merge (canon doc) (canon patch)))
              | JArr _ => Ok (print (merge JNull (canon patch)))
              | _ => Err ErrBadJSONPatch
              end
          end
      end
  end.

(** [types.Error] of [containernetworking/cni/pkg/types]. *)
Record Error : Type := NewError { Code : N; Msg : string; Details : string }.

(** The [Error] method of [types.Error]. *)
Definition Error_Error (e : Error) : string :=
  if String.eqb (Details e) "" then Msg e else Msg e ++ "; " ++ Details e.

(** Error codes of the CNI library. *)
Definition ErrIOFailure : N := 5.
Definition ErrDecodingFailure : N := 6.

(** Error codes and version declared by gator. *)
Definition Version : string := "v0.0.1".
Definition ErrInvalidPatchTemplate : N := 100.
Definition ErrMergeJSONFailed : N := 101.

(** ** The template engine *)

(** [html/template] with the [sprig] function map: an external collaborator.
    [template_Parse] stands for [template.New(..).Funcs(sprig.FuncMap()).Parse(text)]
    and [template_Execute] for [tmpl.Execute(merger, rawConf)], returning the
    bytes written to [merger]. *)
Record TemplateEngine : Type := {
  Template : Type;
  template_Parse : string -> result error_text Template;
  template_Execute : Template -> json -> result error_text bytes
}.

Definition contains (sub s : string) : bool :=
  match index 0 sub s with
  | Some _ => true
  | None => false
  end.

(** The engine on templates made of literal text only, which it writes out
    unchanged, as [html/template] does.  A template with an action delimiter
    or HTML markup is outside this fragment and is refused here; the examples
    use it for templates of the fragment and for the unclosed delimiter, which
    [html/template] refuses too. *)
Definition text_engine : TemplateEngine := {|
  Template := string;
  template_Parse text :=
    if contains "{{" text || contains "<" text
    then Err "template: outside the literal-text fragment"
    else Ok text;
  template_Execute tmpl _ := Ok tmpl
|}.

(** ** The process and its surroundings *)

(** What the process has written to its standard streams, and the commands
    it has handed to [cmd.Run] (executable path and bytes for its standard
    input), oldest first, whether they could be started or not. *)
Record World : Type := {
  w_stdout : bytes;
  w_stderr : bytes;
  w_runs : list (string * bytes)
}.

Definition initial_world : World := {| w_stdout := ""; w_stderr := ""; w_runs := [] |}.

(** A step of the program either returns to its caller or ends the process
    with an exit code ([os.Exit]). *)
Inductive outcome (A : Type) : Type :=
| Returns (a : A) (w : World)
| Exits (code : Z) (w : World).
Arguments Returns {A} a w.
Arguments Exits {A} code w.

Definition M (A : Type) : Type := World -> outcome A.

Definition ret {A} (a : A) : M A := fun w => Returns a w.

Definition bind {A B} (m : M A) (k : A -> M B) : M B :=
  fun w =>
    match m w with
    | Returns a w' => k a w'
    | Exits code w' => Exits code w'
    end.

Notation "x <- m ;; k" := (bind m (fun x => k))
  (at level 61, m at next level, right associativity).
Notation "m ;;; k" := (bind m (fun _ => k))
  (at level 61, right associativity).

Definition fmt_Print (s : string) : M unit :=
  fun w => Returns tt {| w_stdout := w_stdout w ++ s; w_stderr := w_stderr w; w_runs := w_runs w |}.

Definition fmt_Fprint_Stderr (s : string) : M unit :=
  fun w => Returns tt {| w_stdout := w_stdout w; w_stderr := w_stderr w ++ s; w_runs := w_runs w |}.

Definition os_Exit {A} (code : Z) : M A := fun w => Exits code w.

(** How [cmd.Run] can fail: the command started and did not complete
    successfully ([*exec.ExitError], with its exit code), or any other error,
    among them every failure to start the command. *)
Inductive RunError : Type :=
| ExitError (ExitCode : Z)
| OtherError (text : error_text).

(** What a run of a command leaves behind: the bytes it wrote to the two
    buffers and the error [cmd.Run] returns, if any. *)
Record RunResult : Type := {
  run_stdout : bytes;
  run_stderr : bytes;
  run_err : option RunError
}.

(** [fs.FileInfo], of which the program reads the mode bits. *)
Record FileInfo : Type := { Mode : N }.

(** An open file: what [Stat] returns for it. *)
Record File : Type := { Stat : option FileInfo }.

(** The operating system as the program sees it: the environment, which
    paths [os.Open] opens, and what running an executable does. *)
Record OS : Type := {
  os_Environ : list (string * string);
  os_Open : string -> option File;
  exec_Run : string -> list (string * string) -> bytes -> RunResult
}.

(** [os.Getenv]: the value of the variable, empty when it is not set. *)
Fixpoint lookup_env (key : string) (env : list (string * string)) : string :=
  match env with
  | [] => ""
  | (k, v) :: env' => if String.eqb key k then v else lookup_env key env'
  end.

Definition os_Getenv (sys : OS) (key : string) : string := lookup_env key (os_Environ sys).

(** [strings.Split] with a separator of one character. *)
Fixpoint strings_Split (s : string) (sep : ascii) : list string :=
  match s with
  | EmptyString => [EmptyString]
  | String c s' =>
      if Ascii.eqb c sep then EmptyString :: strings_Split s' sep
      else match strings_Split s' sep with
           | h :: t => String c h :: t
           | [] => [String c EmptyString]
           end
  end.

(** [slices.Contains] on strings. *)
Fixpoint slices_Contains (l : list string) (x : string) : bool :=
  match l with
  | [] => false
  | y :: l' => String.eqb y x || slices_Contains l' x
  end.

(** [filepath.Clean] on a system whose separator is a slash: lexical
    processing of the path, element by element.  [stack] holds the elements
    kept so far, last first. *)
Fixpoint clean_elems (rooted : bool) (elems stack : list string) : list string :=
  match elems with
  | [] => rev stack
  | e :: elems' =>
      if String.eqb e "" || String.eqb e "." then clean_elems rooted elems' stack
      else if String.eqb e ".." then
        match stack with
        | top :: stack' =>
            if String.eqb top ".." then clean_elems rooted elems' (e :: stack)
            else clean_elems rooted elems' stack'
        | [] => clean_elems rooted elems' (if rooted then [] else [e])
        end
      else clean_elems rooted elems' (e :: stack)
  end.

Definition filepath_Clean (path : string) : string :=
  let rooted := prefix "/" path in
  let out := (if rooted then "/" else "")
             ++ String.concat "/" (clean_elems rooted (strings_Split path "/") []) in
  if String.eqb out "" then "." else out.

(** [filepath.Join] of two elements: empty elements are ignored, the rest is
    joined by a slash and cleaned. *)
Definition filepath_Join (dir name : string) : string :=
  if negb (String.eqb dir "") then filepath_Clean (dir ++ "/" ++ name)
  else if negb (String.eqb name "") then filepath_Clean name
  else "".

(** ** Decoding the envelope *)

(** [encoding/json] matches an object key with a struct field by name,
    ignoring case.  Only the case of ASCII letters is folded here. *)
Definition lower (c : ascii) : ascii :=
  let n := N_of_ascii c in
  if N_between 65 90 n then ascii_of_N (n + 32) else c.

Fixpoint fold_name (s : string) : string :=
  match s with
  | EmptyString => EmptyString
  | String c s' => String (lower c) (fold_name s')
  end.

(** A JSON array read into a [[]string]: each element a string, or [null],
    which leaves the element empty. *)
Fixpoint decode_strings (xs : list json) : option (list string) :=
  match xs with
  | [] => Some []
  | JStr s :: xs' => option_map (cons s) (decode_strings xs')
  | JNull :: xs' => option_map (cons "") (decode_strings xs')
  | _ :: _ => None
  end.

(** *** The latest listing ([src/README.md], from its line 278) *)

Record PluginConfig : Type := {
  Config : option bytes;
  Patch : string;
  Plugin : string;
  Skip : list string;
  stdin : bytes;
  downstreamConfig : bytes
}.

(** One member of the envelope stored into the struct.  [Config] is a
    [*json.RawMessage]: it keeps the text of the value, written here in its
    compact form, and [null] makes the pointer nil.  [null] leaves a string
    field as it was. *)
Definition decode_field (conf : PluginConfig) (kv : string * json)
  : result error_text PluginConfig :=
  let name := fold_name (fst kv) in
  let v := snd kv in
  if String.eqb name "config" then
    Ok {| Config := match v with JNull => None | _ => Some (print v) end;
          Patch := Patch conf; Plugin := Plugin conf; Skip := Skip conf;
          stdin := stdin conf; downstreamConfig := downstreamConfig conf |}
  else if String.eqb name "patch" then
    match v with
    | JStr p =>
        Ok {| Config := Config conf; Patch := p; Plugin := Plugin conf; Skip := Skip conf;
              stdin := stdin conf; downstreamConfig := downstreamConfig conf |}
    | JNull => Ok conf
    | _ => Err UnmarshalTypeError
    end
  else if String.eqb name "plugin" then
    match v with
    | JStr p =>
        Ok {| Config := Config conf; Patch := Patch conf; Plugin := p; Skip := Skip conf;
              stdin := stdin conf; downstreamConfig := downstreamConfig conf |}
    | JNull => Ok conf
    | _ => Err UnmarshalTypeError
    end
  else if String.eqb name "skip" then
    match v with
    | JArr xs =>
        match decode_strings xs with
        | Some l =>
            Ok {| Config := Config conf; Patch := Patch conf; Plugin := Plugin conf; Skip := l;
                  stdin := stdin conf; downstreamConfig := downstreamConfig conf |}
        | None => Err UnmarshalTypeError
        end
    | JNull =>
        Ok {| Config := Config conf; Patch := Patch conf; Plugin := Plugin conf; Skip := [];
              stdin := stdin conf; downstreamConfig := downstreamConfig conf |}
    | _ => Err UnmarshalTypeError
    end
  else Ok conf.

Fixpoint decode_fields (ms : list (string * json)) (conf : PluginConfig)
  : result error_text PluginConfig :=
  match ms with
  | [] => Ok conf
  | kv :: ms' =>
      match decode_field conf kv with
      | Ok conf' => decode_fields ms' conf'
      | Err e => Err e
      end
  end.

(** [json.Unmarshal(data, conf)] for a [*PluginConfig]: the members of the
    object are stored in document order, keys that match no field are
    ignored, [null] leaves the struct as it was, and a value of the wrong
    shape, for the struct or for one of its fields, is an error. *)
Definition json_Unmarshal (data : bytes) (conf : PluginConfig)
  : result error_text PluginConfig :=
  match json_parse data with
  | None => Err SyntaxError
  | Some (JObj ms) => decode_fields ms conf
  | Some JNull => Ok conf
  | Some _ => Err UnmarshalTypeError
  end.

(** [json.Unmarshal(data, &rawConf)] for an [interface{}]: objects become
    maps, so the tree is the one of [canon]. *)
Definition json_Unmarshal_interface (data : bytes) : result error_text json :=
  match json_parse data with
  | Some v => Ok (canon v)
  | None => Err SyntaxError
  end.

(** [fmt.Sprintf] of the cleanup patch for a plugin name: the name is pasted
    between the quotes as it is. *)
Definition cleanup_patch (plugin : string) : bytes :=
  js "{'type': '" ++ plugin ++ js "', 'plugin': null, 'config': null, 'patch': null}".

Definition generateDownstream (E : TemplateEngine) (conf : PluginConfig)
  : result Error bytes :=
  let stdin := stdin conf in
  match template_Parse E (Patch conf) with
  | Err err =>
      Err (NewError ErrDecodingFailure "failed to parse JSON merge patch template" err)
  | Ok tmpl =>
  match json_Unmarshal_interface stdin with
  | Err err =>
      Err (NewError ErrDecodingFailure "failed to parse stdin to plain interface" err)
  | Ok rawConf =>
  match template_Execute E tmpl rawConf with
  | Err err =>
      Err (NewError ErrInvalidPatchTemplate
             "failed to execute template for JSON merge patch" err)
  | Ok merger =>
  let cleanup := cleanup_patch (Plugin conf) in
  match MergePatch stdin cleanup with
  | Err err =>
      Err (NewError ErrMergeJSONFailed "failed to clean up undelegated config items" err)
  | Ok cleaned =>
  (* Allow no-op configs *)
  let downstreamConf := match Config conf with
                        | Some c => c
                        | None => "{}"
                        end in
  let patch := if (String.length merger =? 0)%nat then "{}" else merger in
  match MergePatch downstreamConf patch with
  | Err err =>
      Err (NewError ErrMergeJSONFailed "failed to merge patch with downstream config" err)
  | Ok downstream =>
  match MergePatch cleaned downstream with
  | Err err =>
      Err (NewError ErrMergeJSONFailed "failed to merge downstream config with original" err)
  | Ok finalConfig => Ok finalConfig
  end end end end end end.

(** [parseConf] returns a pair, as in Go: the configuration (nil after a
    decoding failure) and the error (nil on success). *)
Definition parseConf (sys : OS) (E : TemplateEngine) (stdin : bytes)
  : M (option PluginConfig * option Error) :=
  let conf := {| Config := None; Patch := ""; Plugin := ""; Skip := [];
                 stdin := stdin; downstreamConfig := "" |} in
  match json_Unmarshal stdin conf with
  | Err err =>
      ret (None, Some (NewError ErrDecodingFailure "failed to parse JSON config" err))
  | Ok conf =>
      (if slices_Contains (Skip conf) (os_Getenv sys "CNI_COMMAND")
       then fmt_Print stdin ;;; os_Exit 0
       else ret tt) ;;;
      match generateDownstream E conf with
      | Err err => ret (Some conf, Some err)
      | Ok downstreamConfig =>
          ret (Some {| Config := Config conf; Patch := Patch conf; Plugin := Plugin conf;
                       Skip := Skip conf; stdin := stdin;
                       downstreamConfig := downstreamConfig |}, None)
      end
  end.

Definition handleError {A} (err : Error) : M A :=
  fmt_Fprint_Stderr (Error_Error err) ;;; os_Exit (Z.of_N (Code err)).

(** [fmt.Sprintf] of a slice of strings with the verb for values: the
    elements between square brackets, separated by spaces. *)
Definition Sprintf_checked (cniPaths : list string) : string :=
  "checked: [" ++ String.concat " " cniPaths ++ "]".

(** The loop of [getPluginPath] over the directories that are left.  The
    mask, 0111 in octal, is 73. *)
Fixpoint find_executable (sys : OS) (plugin : string) (dirs : list string) : option string :=
  match dirs with
  | [] => None
  | p :: dirs' =>
      let fullPath := filepath_Join p plugin in
      match os_Open sys fullPath with
      | None => find_executable sys plugin dirs'
      | Some f =>
          match Stat f with
          | None => find_executable sys plugin dirs'
          | Some s =>
              (* Check if file is executable by someone *)
              if negb (N.land (Mode s) 73 =? 0)%N then Some fullPath
              else find_executable sys plugin dirs'
          end
      end
  end.

Definition getPluginPath (sys : OS) (plugin : string) : result Error string :=
  let cniPathVar := os_Getenv sys "CNI_PATH" in
  let cniPaths := if negb (String.eqb cniPathVar "")
                  then ([] ++ strings_Split cniPathVar ":")%list
                  else ["/opt/cni/bin"] in
  match find_executable sys plugin cniPaths with
  | Some fullPath => Ok fullPath
  | None =>
      Err (NewError ErrMergeJSONFailed
             ("cni executable not found in CNI_PATH: " ++ plugin)
             (Sprintf_checked cniPaths))
  end.

Definition delegate (sys : OS) (pluginPath : string) (stdin : bytes)
  (env : list (string * string)) : M (bytes * bytes * Z) :=
  fun w =>
    let r := exec_Run sys pluginPath env stdin in
    let exitcode := match run_err r with
                    | Some (ExitError code) => code
                    | _ => 0%Z
                    end in
    Returns (run_stdout r, run_stderr r, exitcode)
      {| w_stdout := w_stdout w; w_stderr := w_stderr w;
         w_runs := (w_runs w ++ [(pluginPath, stdin)])%list |}.

(** [main], given the command line and the result of reading standard input
    to its end.  A nil [conf] can only come with an error, after which
    [handleError] has ended the process; dereferencing it would be a run-time
    panic, which ends a Go process with status 2. *)
Definition main (sys : OS) (E : TemplateEngine) (args : list string)
  (input : result error_text bytes) : M unit :=
  (match args with
   | _ :: a1 :: _ =>
       if String.eqb a1 "--version"
       then fmt_Print ("CNI gator plugin " ++ Version ++ String (ascii_of_N 10) "") ;;; os_Exit 0
       else ret tt
   | _ => ret tt
   end) ;;;
  match input with
  | Err ioerr => handleError (NewError ErrIOFailure "failed to read stdin" ioerr)
  | Ok stdin =>
      r <- parseConf sys E stdin ;;
      (match snd r with
       | Some err => handleError err
       | None => ret tt
       end) ;;;
      match fst r with
      | None => os_Exit 2
      | Some conf =>
          match getPluginPath sys (Plugin conf) with
          | Err err => handleError err
          | Ok pluginPath =>
              out <- delegate sys pluginPath (downstreamConfig conf) (os_Environ sys) ;;
              fmt_Print (fst (fst out)) ;;;
              fmt_Fprint_Stderr (snd (fst out)) ;;;
              os_Exit (snd out)
          end
      end
  end.

(** How the process ends: a [main] that returns ends it with status 0. *)
Record Terminated : Type := {
  exit_code : Z;
  stdout : bytes;
  stderr : bytes;
  runs : list (string * bytes)
}.

Definition run (m : M unit) : Terminated :=
  match m initial_world with
  | Returns _ w =>
      {| exit_code := 0; stdout := w_stdout w; stderr := w_stderr w; runs := w_runs w |}
  | Exits code w =>
      {| exit_code := code; stdout := w_stdout w; stderr := w_stderr w; runs := w_runs w |}
  end.


(** ** The standard logger and the Go runtime *)

Definition newline : string := String (ascii_of_N 10) "".

(** What the surroundings add to the diagnostics of the two earlier
    listings: the date and time that the standard logger writes before a
    message (a listing logs at most once in a run), the text of the error that
    [cmd.Run] returns, and what the Go runtime writes when a nil pointer is
    dereferenced. *)
Record Diagnostics : Type := {
  log_header : string;
  RunError_Error : RunError -> error_text;
  panic_report : string
}.

(** The logger ends its line with a line feed unless the message has one at
    its end. *)
Fixpoint ends_line (s : string) : bool :=
  match s with
  | EmptyString => false
  | String c EmptyString => Ascii.eqb c (ascii_of_N 10)
  | String _ s' => ends_line s'
  end.

Definition log_Output (d : Diagnostics) (s : string) : M unit :=
  fmt_Fprint_Stderr (log_header d ++ s ++ (if ends_line s then "" else newline)).

(** [log.Println] of one error: its text and a line feed. *)
Definition log_Println (d : Diagnostics) (err : error_text) : M unit :=
  log_Output d (err ++ newline).

(** [log.Fatal] of one string, and [log.Fatalf] once the message is
    formatted. *)
Definition log_Fatal {A} (d : Diagnostics) (s : string) : M A :=
  log_Output d s ;;; os_Exit 1.

(** A run-time panic that nothing recovers: the runtime reports it and the
    process ends with status 2. *)
Definition panic {A} (d : Diagnostics) : M A :=
  fmt_Fprint_Stderr (panic_report d) ;;; os_Exit 2.

(** [cmd.Run] for a command whose standard output and standard error are
    those of the process: what the command writes goes to them directly. *)
Definition cmd_Run (sys : OS) (pluginPath : string) (env : list (string * string))
  (stdin : bytes) : M (option RunError) :=
  fun w =>
    let r := exec_Run sys pluginPath env stdin in
    Returns (run_err r)
      {| w_stdout := w_stdout w ++ run_stdout r;
         w_stderr := w_stderr w ++ run_stderr r;
         w_runs := (w_runs w ++ [(pluginPath, stdin)])%list |}.

(** ** The listing of [src/main.go] *)

(** An earlier state of the same program: no skip list, and [prepare] does
    what [parseConf] and [generateDownstream] do in the later listing. *)
Module MainGo.

Record PluginConfig : Type := {
  Config : option bytes;
  Patch : string;
  Plugin : string;
  finalConfig : bytes
}.

Definition decode_field (conf : PluginConfig) (kv : string * json)
  : result error_text PluginConfig :=
  let name := fold_name (fst kv) in
  let v := snd kv in
  if String.eqb name "config" then
    Ok {| Config := match v with JNull => None | _ => Some (print v) end;
          Patch := Patch conf; Plugin := Plugin conf; finalConfig := finalConfig conf |}
  else if String.eqb name "patch" then
    match v with
    | JStr p =>
        Ok {| Config := Config conf; Patch := p; Plugin := Plugin conf;
              finalConfig := finalConfig conf |}
    | JNull => Ok conf
    | _ => Err UnmarshalTypeError
    end
  else if String.eqb name "plugin" then
    match v with
    | JStr p =>
        Ok {| Config := Config conf; Patch := Patch conf; Plugin := p;
              finalConfig := finalConfig conf |}
    | JNull => Ok conf
    | _ => Err UnmarshalTypeError
    end
  else Ok conf.

Fixpoint decode_fields (ms : list (string * json)) (conf : PluginConfig)
  : result error_text PluginConfig :=
  match ms with
  | [] => Ok conf
  | kv :: ms' =>
      match decode_field conf kv with
      | Ok conf' => decode_fields ms' conf'
      | Err e => Err e
      end
  end.

Definition json_Unmarshal (data : bytes) (conf : PluginConfig)
  : result error_text PluginConfig :=
  match json_parse data with
  | None => Err SyntaxError
  | Some (JObj ms) => decode_fields ms conf
  | Some JNull => Ok conf
  | Some _ => Err UnmarshalTypeError
  end.

Definition prepare (E : TemplateEngine) (stdin : bytes) : result Error PluginConfig :=
  let conf := {| Config := None; Patch := ""; Plugin := ""; finalConfig := "" |} in
  match json_Unmarshal stdin conf with
  | Err err => Err (NewError ErrDecodingFailure "failed to parse JSON config" err)
  | Ok conf =>
  match template_Parse E (Patch conf) with
  | Err err =>
      Err (NewError ErrDecodingFailure "failed to parse JSON merge patch template" err)
  | Ok tmpl =>
  match json_Unmarshal_interface stdin with
  | Err err =>
      Err (NewError ErrDecodingFailure "failed to parse stdin to plain interface" err)
  | Ok rawConf =>
  match template_Execute E tmpl rawConf with
  | Err err =>
      Err (NewError ErrInvalidPatchTemplate
             "failed to execute template for JSON merge patch" err)
  | Ok merger =>
  let cleanup := cleanup_patch (Plugin conf) in
  match MergePatch stdin cleanup with
  | Err err =>
      Err (NewError ErrMergeJSONFailed "failed to clean up undelegated config items" err)
  | Ok cleaned =>
  (* Allow no-op configs *)
  let downstreamConf := match Config conf with
                        | Some c => c
                        | None => "{}"
                        end in
  let patch := if (String.length merger =? 0)%nat then "{}" else merger in
  match MergePatch downstreamConf patch with
  | Err err =>
      Err (NewError ErrMergeJSONFailed "failed to merge patch with downstream config" err)
  | Ok downstream =>
  match MergePatch cleaned downstream with
  | Err err =>
      Err (NewError ErrMergeJSONFailed "failed to merge downstream config with original" err)
  | Ok finalConfig =>
      Ok {| Config := Config conf; Patch := Patch conf; Plugin := Plugin conf;
            finalConfig := finalConfig |}
  end end end end end end end.

(** [getPluginPath] of this listing: the same search, and an error that is
    a plain text naming the plugin. *)
Definition getPluginPath (sys : OS) (plugin : string) : result error_text string :=
  let cniPathVar := os_Getenv sys "CNI_PATH" in
  let cniPaths := if negb (String.eqb cniPathVar "")
                  then ([] ++ strings_Split cniPathVar ":")%list
                  else ["/opt/cni/bin"] in
  match find_executable sys plugin cniPaths with
  | Some fullPath => Ok fullPath
  | None => Err ("error: cni executable not found in CNI_PATH: " ++ plugin)
  end.

(** [handleError] of this listing logs the error and returns. *)
Definition handleError (d : Diagnostics) (err : error_text) : M unit :=
  log_Println d err.

(** [delegate] of this listing: the command writes to the standard streams
    of the process itself, and the error of [cmd.Run], of whatever kind, is
    returned.  An error is held as its text, the only thing [main] reads of
    it. *)
Definition delegate (sys : OS) (d : Diagnostics) (plugin : string) (stdin : bytes)
  (env : list (string * string)) : M (option error_text) :=
  match getPluginPath sys plugin with
  | Err err => ret (Some err)
  | Ok pluginPath =>
      err <- cmd_Run sys pluginPath env stdin ;;
      ret (option_map (RunError_Error d) err)
  end.

(** [main] of this listing, given the result of reading standard input to
    its end.  After a failed [prepare] the error is logged and [conf] is nil:
    reading [conf.Plugin] panics. *)
Definition main (sys : OS) (E : TemplateEngine) (d : Diagnostics)
  (input : result error_text bytes) : M unit :=
  match input with
  | Err ioerr =>
      handleError d (Error_Error (NewError ErrIOFailure "failed to read stdin" ioerr))
  | Ok stdin =>
      let r := prepare E stdin in
      (match r with
       | Err err => handleError d (Error_Error err)
       | Ok _ => ret tt
       end) ;;;
      match r with
      | Err _ => panic d
      | Ok conf =>
          err <- delegate sys d (Plugin conf) (finalConfig conf) (os_Environ sys) ;;
          match err with
          | Some e => handleError d e
          | None => ret tt
          end
      end
  end.

End MainGo.

(** ** The first listing of [src/README.md] (its lines 137 to 277) *)

(** The oldest state of the program: one [main] that does everything and
    ends the process through the logger at the first failure.  The rendered
    patch is handed to the second merge as it is. *)
Module FirstListing.

Record PluginConfig : Type := {
  Config : option bytes;
  Patch : string;
  Plugin : string
}.

Definition decode_field (conf : PluginConfig) (kv : string * json)
  : result error_text PluginConfig :=
  let name := fold_name (fst kv) in
  let v := snd kv in
  if String.eqb name "config" then
    Ok {| Config := match v with JNull => None | _ => Some (print v) end;
          Patch := Patch conf; Plugin := Plugin conf |}
  else if String.eqb name "patch" then
    match v with
    | JStr p => Ok {| Config := Config conf; Patch := p; Plugin := Plugin conf |}
    | JNull => Ok conf
    | _ => Err UnmarshalTypeError
    end
  else if String.eqb name "plugin" then
    match v with
    | JStr p => Ok {| Config := Config conf; Patch := Patch conf; Plugin := p |}
    | JNull => Ok conf
    | _ => Err UnmarshalTypeError
    end
  else Ok conf.

Fixpoint decode_fields (ms : list (string * json)) (conf : PluginConfig)
  : result error_text PluginConfig :=
  match ms with
  | [] => Ok conf
  | kv :: ms' =>
      match decode_field conf kv with
      | Ok conf' => decode_fields ms' conf'
      | Err e => Err e
      end
  end.

Definition json_Unmarshal (data : bytes) (conf : PluginConfig)
  : result error_text PluginConfig :=
  match json_parse data with
  | None => Err SyntaxError
  | Some (JObj ms) => decode_fields ms conf
  | Some JNull => Ok conf
  | Some _ => Err UnmarshalTypeError
  end.

(** [getPluginPath] is the one of [src/main.go], line for line. *)
Definition getPluginPath (sys : OS) (plugin : string) : result error_text string :=
  let cniPathVar := os_Getenv sys "CNI_PATH" in
  let cniPaths := if negb (String.eqb cniPathVar "")
                  then ([] ++ strings_Split cniPathVar ":")%list
                  else ["/opt/cni/bin"] in
  match find_executable sys plugin cniPaths with
  | Some fullPath => Ok fullPath
  | None => Err ("error: cni executable not found in CNI_PATH: " ++ plugin)
  end.

Definition main (sys : OS) (E : TemplateEngine) (d : Diagnostics)
  (input : result error_text bytes) : M unit :=
  match input with
  | Err err => log_Fatal d ("error: failed to read stdin: " ++ err)
  | Ok stdin =>
  match json_Unmarshal stdin {| Config := None; Patch := ""; Plugin := "" |} with
  | Err err => log_Fatal d ("error: failed to parse JSON config: " ++ err)
  | Ok conf =>
  match template_Parse E (Patch conf) with
  | Err err => log_Fatal d ("error: failed to parse JSON merge patch template: " ++ err)
  | Ok tmpl =>
  match json_Unmarshal_interface stdin with
  | Err err => log_Fatal d ("error: failed to parse JSON to plain interface: " ++ err)
  | Ok rawConf =>
  match template_Execute E tmpl rawConf with
  | Err err =>
      log_Fatal d ("error: failed to execute template for JSON merge patch: " ++ err)
  | Ok merger =>
  let cleanup := cleanup_patch (Plugin conf) in
  match MergePatch stdin cleanup with
  | Err err => log_Fatal d ("error: failed to clean up undelegated config items: " ++ err)
  | Ok cleaned =>
  let downstreamConf := match Config conf with
                        | Some c => c
                        | None => "{}"
                        end in
  match MergePatch downstreamConf merger with
  | Err err => log_Fatal d ("error: failed to merge patch with downstream config: " ++ err)
  | Ok downstream =>
  match MergePatch cleaned downstream with
  | Err err =>
      log_Fatal d ("error: failed to merge downstream config with original: " ++ err)
  | Ok finalConf =>
  match getPluginPath sys (Plugin conf) with
  | Err err => log_Fatal d err
  | Ok pluginPath =>
      err <- cmd_Run sys pluginPath (os_Environ sys) finalConf ;;
      match err with
      | Some err => log_Fatal d (RunError_Error d err)
      | None => ret tt
      end
  end end end end end end end end end.

End FirstListing.

(** * Vocabulary of the statements *)

(** Every number literal of the document is a number of the grammar. *)
Fixpoint nums_ok (v : json) : bool :=
  match v with
  | JNum lit => is_number lit && string_forallb is_numchar lit
  | JArr xs => forallb nums_ok xs
  | JObj ms => forallb (fun kv => nums_ok (snd kv)) ms
  | _ => true
  end.

(** What may stand after a value for the value to end there. *)
Definition follows (rest : string) : bool :=
  match rest with
  | EmptyString => true
  | String c _ => negb (is_numchar c)
  end.

(** The first byte of a printed value: not white space, and none of the
    bytes that close an array or an object. *)
Definition opens (s : string) : Prop :=
  exists c t, s = String c t /\ is_ws c = false
              /\ (N_of_ascii c =? 93)%N = false /\ (N_of_ascii c =? 125)%N = false.

(** The parser reads back what [print] writes, with enough fuel: for a
    value, for the elements of an array after the opening bracket, for the
    members of an object after the opening brace. *)
Definition roundtrip_value (fuel : nat) : Prop :=
  forall v rest, nums_ok v = true -> String.length (print v) < fuel ->
    follows rest = true -> parse_value fuel (print v ++ rest) = Some (v, rest).

Definition roundtrip_elems (fuel : nat) : Prop :=
  forall x xs rest, nums_ok x = true -> forallb nums_ok xs = true ->
    String.length (print x) + String.length (print_elems xs) < fuel ->
    parse_elems fuel (print x ++ print_elems xs ++ rest) = Some (x :: xs, rest).

Definition roundtrip_members (fuel : nat) : Prop :=
  forall k v ms rest, nums_ok v = true -> forallb (fun kv => nums_ok (snd kv)) ms = true ->
    String.length (print v) + String.length (print_members ms) < fuel ->
    parse_members fuel (quote k ++ ":" ++ print v ++ print_members ms ++ rest)
    = Some ((k, v) :: ms, rest).

(** Every key of [ms] is above [k]. *)
Definition keys_above (k : string) (ms : list (string * json)) : bool :=
  forallb (fun kv => String.ltb k (fst kv)) ms.

(** Keys strictly increasing. *)
Fixpoint sorted_keys (ms : list (string * json)) : bool :=
  match ms with
  | [] => true
  | kv :: ms' => keys_above (fst kv) ms' && sorted_keys ms'
  end.

(** A document in the form in which [json-patch] holds and writes it: every
    object sorted by key, without a repeated key, and every number a number
    of the grammar. *)
Fixpoint wf (v : json) : bool :=
  match v with
  | JNum lit => is_number lit && string_forallb is_numchar lit
  | JArr xs => forallb wf xs
  | JObj ms => sorted_keys ms && forallb (fun kv => wf (snd kv)) ms
  | _ => true
  end.

(** The members of a document in that form. *)
Definition members_wf (ms : list (string * json)) : bool :=
  sorted_keys ms && forallb (fun kv => wf (snd kv)) ms.

(** The steps of [canon] and of [merge] over the members of an object. *)
Definition canon_member (acc : list (string * json)) (kv : string * json) :=
  obj_set (fst kv) (canon (snd kv)) acc.

(** The members of an object; none for any other document. *)
Definition members_of (t : json) : list (string * json) :=
  match t with
  | JObj tms => tms
  | _ => []
  end.

Definition merge_member (acc : list (string * json)) (kv : string * json) :=
  match snd kv with
  | JNull => obj_del (fst kv) acc
  | _ => obj_set (fst kv)
           (merge (match obj_get (fst kv) acc with Some t => t | None => JNull end) (snd kv))
           acc
  end.

(** A name that can stand between quotes as it is: no quote, no backslash,
    no control character. *)
Definition plain_name (s : string) : bool :=
  string_forallb
    (fun c => let n := N_of_ascii c in negb ((n =? 34) || (n =? 92) || (n <? 32))%N) s.

(** The patch that [cleanup_patch] writes, as a document. *)
Definition cleanup_value (plugin : string) : json :=
  JObj [("type", JStr plugin); ("plugin", JNull); ("config", JNull); ("patch", JNull)].

(** The base document of the second merge and the patch handed to it. *)
Definition config_bytes (conf : PluginConfig) : bytes :=
  match Config conf with
  | Some c => c
  | None => "{}"
  end.

Definition normalize (merger : bytes) : bytes :=
  if (String.length merger =? 0)%nat then "{}" else merger.

(** An object or an array: what [MergePatch] takes as a patch. *)
Definition is_container (v : json) : bool :=
  match v with
  | JObj _ | JArr _ => true
  | _ => false
  end.

(** What [MergePatch] merges a patch into: the document, and nothing when
    the patch is an array. *)
Definition target_of (doc patch : json) : json :=
  match patch with
  | JArr _ => JNull
  | _ => doc
  end.

(** The text is one that [MergePatch] takes as a patch. *)
Definition patch_accepted (text : bytes) : bool :=
  match json_parse text with
  | Some v => is_container v
  | None => false
  end.

(** No [null] anywhere in the value. *)
Fixpoint null_free (v : json) : bool :=
  match v with
  | JNull => false
  | JArr xs => forallb null_free xs
  | JObj ms => forallb (fun kv => null_free (snd kv)) ms
  | _ => true
  end.

(** The document that the three merges compute from the envelope, the
    cleanup patch, the base configuration and the rendered patch. *)
Definition cleaned_value (env cl : json) : json :=
  merge (target_of (canon env) cl) (canon cl).
Definition downstream_value (cfg pv : json) : json :=
  merge (target_of (canon cfg) pv) (canon pv).
Definition final_value (env cl cfg pv : json) : json :=
  merge (target_of (cleaned_value env cl) (downstream_value cfg pv))
    (downstream_value cfg pv).

(** The template stage of [generateDownstream] produced [merger]. *)
Definition renders (E : TemplateEngine) (conf : PluginConfig) (merger : bytes) : Prop :=
  exists tmpl env,
    template_Parse E (Patch conf) = Ok tmpl
    /\ json_parse (stdin conf) = Some env
    /\ template_Execute E tmpl (canon env) = Ok merger.

(** The struct that [parseConf] hands to [json.Unmarshal]. *)
Definition empty_config (data : bytes) : PluginConfig :=
  {| Config := None; Patch := ""; Plugin := ""; Skip := [];
     stdin := data; downstreamConfig := "" |}.

(** The raw message held by [Config] is the text of a document, and not of
    [null]. *)
Definition config_ok (conf : PluginConfig) : Prop :=
  match Config conf with
  | None => True
  | Some c => exists v, nums_ok v = true /\ v <> JNull /\ c = print v
  end.

(** The owner, group or other execute bit of a file mode. *)
Definition any_execute_bit (mode : N) : bool :=
  N.testbit mode 6 || N.testbit mode 3 || N.testbit mode 0.

(** The path can be opened, its status read, and one execute bit is set. *)
Definition executable (sys : OS) (path : string) : bool :=
  match os_Open sys path with
  | Some f =>
      match Stat f with
      | Some s => any_execute_bit (Mode s)
      | None => false
      end
  | None => false
  end.

(** The directories of the search path, in the order of the variable; the
    default directory when the variable is unset or empty. *)
Definition search_path (cniPathVar : string) : list string :=
  if String.eqb cniPathVar "" then ["/opt/cni/bin"] else strings_Split cniPathVar ":".

(** A file of mode 0755. *)
Definition rwxr_xr_x : File := {| Stat := Some {| Mode := 493 |} |}.

(** A file as the file system holds it: its mode bits, and whether the
    caller may open it for reading. *)
Record Entry : Type := { entry_mode : N; entry_readable : bool }.

(** [os.Open] on a file system given by its entries: it fails for a path
    without a file and for a file that the caller may not read; [Stat] of an
    open file gives its mode. *)
Definition open_on (fs : string -> option Entry) (path : string) : option File :=
  match fs path with
  | Some e =>
      if entry_readable e then Some {| Stat := Some {| Mode := entry_mode e |} |} else None
  | None => None
  end.

(** An operating system with this environment and these files, on which an
    executable copies its input to its output. *)
Definition on_files (env : list (string * string)) (fs : string -> option Entry) : OS := {|
  os_Environ := env;
  os_Open := open_on fs;
  exec_Run _ _ input := {| run_stdout := input; run_stderr := ""; run_err := None |}
|}.

(** The path holds a file with an execute bit set. *)
Definition has_execute_bit (fs : string -> option Entry) (path : string) : bool :=
  match fs path with
  | Some e => any_execute_bit (entry_mode e)
  | None => false
  end.

(** Claim C6 as the spec states it: the first directory of the search path
    that holds a file of the plugin's name with an execute bit set gives the
    result. *)
Definition first_execute_bit_wins (env : list (string * string))
  (fs : string -> option Entry) : Prop :=
  forall plugin pre d post,
    search_path (lookup_env "CNI_PATH" env) = (pre ++ d :: post)%list ->
    Forall (fun d' => has_execute_bit fs (filepath_Join d' plugin) = false) pre ->
    has_execute_bit fs (filepath_Join d plugin) = true ->
    getPluginPath (on_files env fs) plugin = Ok (filepath_Join d plugin).

(** The first directory holds the plugin with mode 0111, which the caller
    may execute and may not read; the second holds it with mode 0755. *)
Definition execute_only_first (path : string) : option Entry :=
  if String.eqb path "/first/debug"
  then Some {| entry_mode := 73; entry_readable := false |}
  else if String.eqb path "/second/debug"
       then Some {| entry_mode := 493; entry_readable := true |}
       else None.

(** Two directories on the search path, each with an executable [debug],
    which copies its input to its output and exits with status 0. *)
Definition two_directories : OS := {|
  os_Environ := [("CNI_COMMAND", "ADD"); ("CNI_PATH", "/first:/second")];
  os_Open path :=
    if String.eqb path "/first/debug" || String.eqb path "/second/debug"
    then Some rwxr_xr_x else None;
  exec_Run _ _ input := {| run_stdout := input; run_stderr := ""; run_err := None |}
|}.

(** The command line asks for the version. *)
Definition version_flag (args : list string) : bool :=
  match args with
  | _ :: a1 :: _ => String.eqb a1 "--version"
  | _ => false
  end.

(** The command named by the environment is in the skip list. *)
Definition skipped (sys : OS) (conf : PluginConfig) : bool :=
  slices_Contains (Skip conf) (os_Getenv sys "CNI_COMMAND").

(** [conf] with its [downstreamConfig] set. *)
Definition with_downstream (conf : PluginConfig) (downstream : bytes) : PluginConfig :=
  {| Config := Config conf; Patch := Patch conf; Plugin := Plugin conf;
     Skip := Skip conf; stdin := stdin conf; downstreamConfig := downstream |}.

(** The exit code that [delegate] reports for a run. *)
Definition reported_exit (r : RunResult) : Z :=
  match run_err r with
  | Some (ExitError code) => code
  | _ => 0%Z
  end.

(** An executable file that cannot be started. *)
Definition unstartable : OS := {|
  os_Environ := [("CNI_COMMAND", "ADD")];
  os_Open path := if String.eqb path "/opt/cni/bin/debug" then Some rwxr_xr_x else None;
  exec_Run path _ _ :=
    {| run_stdout := ""; run_stderr := "";
       run_err := Some (OtherError ("fork/exec " ++ path ++ ": exec format error")) |}
|}.

(** A search path without the plugin. *)
Definition no_plugin : OS := {|
  os_Environ := [("CNI_COMMAND", "ADD"); ("CNI_PATH", "/a:/b")];
  os_Open _ := None;
  exec_Run _ _ input := {| run_stdout := input; run_stderr := ""; run_err := None |}
|}.

(** The value under a top-level key of a document given as text. *)
Definition field (k : string) (data : bytes) : option json :=
  match json_parse data with
  | Some v => obj_get k (members_of (canon v))
  | None => None
  end.

(** The target of a merge under a key it may not have. *)
Definition or_null (o : option json) : json :=
  match o with
  | Some v => v
  | None => JNull
  end.

(** The fields of the envelope that belong to gator itself. *)
Definition own_fields : list string := ["plugin"; "config"; "patch"; "skip"].

(** Claim C1 as the spec states it: no own field is a key of the
    configuration computed for the downstream plugin. *)
Definition own_fields_never_reach_downstream (E : TemplateEngine) (data : bytes) : Prop :=
  forall conf final,
    json_Unmarshal data (empty_config data) = Ok conf ->
    generateDownstream E conf = Ok final ->
    forall k, In k own_fields -> field k final = None.

(** The configuration decoded from an envelope (the empty one when the
    envelope does not decode). *)
Definition decoded (data : bytes) : PluginConfig :=
  match json_Unmarshal data (empty_config data) with
  | Ok conf => conf
  | Err _ => empty_config data
  end.

(** Claim C2 as the spec states it: under a key that the envelope and the
    downstream document both have, the final configuration holds the value of
    the downstream document. *)
Definition downstream_value_replaces_envelope_value (E : TemplateEngine) (data : bytes) : Prop :=
  forall conf merger downstream final k ev dv,
    json_Unmarshal data (empty_config data) = Ok conf ->
    renders E conf merger ->
    MergePatch (config_bytes conf) (normalize merger) = Ok downstream ->
    generateDownstream E conf = Ok final ->
    field k data = Some ev ->
    field k downstream = Some dv ->
    field k final = Some dv.

(** What the last merge leaves under a key that the downstream document
    has. *)
Definition downstream_wins (ev : option json) (dv : json) : option json :=
  match dv with
  | JNull => None
  | JObj _ => Some (merge (or_null ev) dv)
  | _ => Some dv
  end.

(** Claim C8 as the spec states it: once the envelope is decoded and the
    template executed, no merge stage fails. *)
Definition merge_failure_unreachable (E : TemplateEngine) (data : bytes) : Prop :=
  forall conf merger err,
    json_Unmarshal data (empty_config data) = Ok conf ->
    renders E conf merger ->
    generateDownstream E conf = Err err ->
    Code err <> ErrMergeJSONFailed.

(** An engine that writes the same bytes for every template and input. *)
Definition constant_engine (output : bytes) : TemplateEngine := {|
  Template := unit;
  template_Parse _ := Ok tt;
  template_Execute _ _ := Ok output
|}.

(** The configuration of the earlier listing, as one of the later. *)
Definition of_main_go (data : bytes) (c : MainGo.PluginConfig) : PluginConfig :=
  {| Config := MainGo.Config c; Patch := MainGo.Patch c; Plugin := MainGo.Plugin c;
     Skip := []; stdin := data; downstreamConfig := "" |}.

(** What the cleanup leaves under a key: the plugin name under [type],
    nothing under [plugin], [config] and [patch], and under any other key
    what the envelope has there. *)
Definition cleaned_field (plugin : string) (data : bytes) (k : string) : option json :=
  if String.eqb k "type" then Some (JStr plugin)
  else if String.eqb k "plugin" || String.eqb k "config" || String.eqb k "patch" then None
  else field k data.

(** The configuration that [prepare] returns for the fields decoded by the
    latest listing and a final configuration. *)
Definition prepared (conf : PluginConfig) (final : bytes) : MainGo.PluginConfig :=
  {| MainGo.Config := Config conf; MainGo.Patch := Patch conf; MainGo.Plugin := Plugin conf;
     MainGo.finalConfig := final |}.

(** The struct that the first listing hands to [json.Unmarshal]. *)
Definition first_listing_empty : FirstListing.PluginConfig :=
  {| FirstListing.Config := None; FirstListing.Patch := ""; FirstListing.Plugin := "" |}.

(** The line that the logger writes for an error of [cmd.Run], nothing when
    there is none. *)
Definition logged (d : Diagnostics) (err : option RunError) : string :=
  match err with
  | Some e => log_header d ++ RunError_Error d e ++ newline
  | None => ""
  end.

(** A sample of the texts of [Diagnostics], for a command that exited. *)
Definition sample_diagnostics : Diagnostics := {|
  log_header := "2023/10/03 12:00:00 ";
  RunError_Error e :=
    match e with
    | ExitError code => "exit status " ++ NilZero.string_of_int (Z.to_int code)
    | OtherError text => text
    end;
  panic_report :=
    "panic: runtime error: invalid memory address or nil pointer dereference" ++ newline
|}.

(** A plugin that writes to both streams and exits with status 3. *)
Definition failing_plugin : OS := {|
  os_Environ := [("CNI_COMMAND", "ADD")];
  os_Open path := if String.eqb path "/opt/cni/bin/debug" then Some rwxr_xr_x else None;
  exec_Run _ _ input :=
    {| run_stdout := "{}"; run_stderr := "no such device"; run_err := Some (ExitError 3) |}
|}.

(** The first directory holds the plugin without an execute bit (mode 0644),
    the second holds it with mode 0755. *)
Definition first_not_executable : OS := {|
  os_Environ := [("CNI_PATH", "/first:/second")];
  os_Open path :=
    if String.eqb path "/first/debug" then Some {| Stat := Some {| Mode := 420 |} |}
    else if String.eqb path "/second/debug" then Some rwxr_xr_x
    else None;
  exec_Run _ _ input := {| run_stdout := input; run_stderr := ""; run_err := None |}
|}.

(** The search path begins with an empty element, and the working directory
    holds an executable [debug]. *)
Definition leading_colon : OS := {|
  os_Environ := [("CNI_PATH", ":/opt/cni/bin")];
  os_Open path := if String.eqb path "debug" then Some rwxr_xr_x else None;
  exec_Run _ _ input := {| run_stdout := input; run_stderr := ""; run_err := None |}
|}.

(** * Lemmas and theorems *)

Lemma append_assoc (a b c : string) : (a ++ b) ++ c = a ++ (b ++ c).
Proof. induction a as [|x a IH]; simpl; [reflexivity | now rewrite IH]. Qed.

Lemma append_nil_r (a : string) : a ++ "" = a.
Proof. induction a as [|x a IH]; simpl; [reflexivity | now rewrite IH]. Qed.

Lemma length_append (a b : string) :
  String.length (a ++ b) = String.length a + String.length b.
Proof. induction a as [|x a IH]; simpl; [reflexivity | now rewrite IH]. Qed.

Ltac each_byte c :=
  destruct c as [[] [] [] [] [] [] [] []]; try reflexivity; try discriminate.

Ltac lengths H :=
  repeat (rewrite length_append in H; cbn [String.length] in H).

Lemma parse_chars_escape_char (c : ascii) (rest : string) :
  parse_chars (escape_char c ++ rest) = prepend (String c "") (parse_chars rest).
Proof. each_byte c. Qed.

Lemma numchar_not_ws (c : ascii) : is_numchar c = true -> is_ws c = false.
Proof. each_byte c. Qed.

(** ** The models on examples *)

Lemma json_parse_examples :
  json_parse (js "{'a': [1, -2.5e+3, true, null], 'b': 'x\ny'}")
  = Some (JObj [("a", JArr [JNum "1"; JNum "-2.5e+3"; JBool true; JNull]);
                ("b", JStr (String "x" (String (ascii_of_N 10) "y")))])
  /\ json_parse (js " [ ] ") = Some (JArr [])
  /\ json_parse (js "{'a':01}") = None
  /\ json_parse (js "{'a':1,}") = None
  /\ json_parse (js "{'a':1") = None
  /\ json_parse "hello" = None.
Proof. repeat split. Qed.

Lemma print_examples :
  print (canon (JObj [("type", JStr "gator"); ("a", JArr [JNum "1"; JObj []]);
                      ("type", JStr (js "a'b<c"))]))
  = js "{'a':[1,{}],'type':'a\'b\u003cc'}".
Proof. reflexivity. Qed.

Lemma merge_examples :
  merge (JObj [("a", JObj [("x", JNum "1")]); ("b", JNum "2")])
        (JObj [("a", JObj [("x", JNull); ("y", JNum "3")]); ("c", JArr [JNull])])
  = JObj [("a", JObj [("y", JNum "3")]); ("b", JNum "2"); ("c", JArr [JNull])]
  /\ merge (JArr [JNum "1"]) (JObj [("a", JObj [("x", JNull)])]) = JObj [("a", JObj [])]
  /\ merge (JObj [("a", JNum "1")]) (JArr [JNum "1"]) = JArr [JNum "1"].
Proof. repeat split. Qed.

(** A value that is added, or put in the place of a number, loses the
    [null] members of the objects in it, inside arrays too. *)
Lemma merge_prunes_what_it_adds :
  merge (JObj []) (JObj [("a", JArr [JObj [("b", JNull)]])])
  = JObj [("a", JArr [JObj []])]
  /\ merge (JObj [("a", JNum "1")]) (JObj [("a", JArr [JObj [("b", JNull); ("c", JNum "2")]])])
     = JObj [("a", JArr [JObj [("c", JNum "2")]])]
  /\ merge (JObj []) (JObj [("a", JObj [("b", JObj [("c", JNull)])])])
     = JObj [("a", JObj [("b", JObj [])])].
Proof. repeat split. Qed.

(** What [MergePatch] refuses and what it takes. *)
Lemma MergePatch_examples :
  MergePatch "null" "{}" = Err ErrBadJSONDoc
  /\ MergePatch "{}" "null" = Err ErrBadJSONPatch
  /\ MergePatch "{}" "3" = Err ErrBadJSONPatch
  /\ MergePatch "{}" "hello" = Err ErrBadJSONPatch
  /\ MergePatch "{" "{}" = Err ErrBadJSONDoc
  /\ MergePatch "3" (js "{'a':null,'b':1}") = Ok (js "{'b':1}")
  /\ MergePatch (js "{'a':1}") (js "[1,{'b':null}]") = Ok "[1,{}]".
Proof. repeat split. Qed.

Lemma filepath_Join_examples :
  filepath_Join "/opt/cni/bin" "debug" = "/opt/cni/bin/debug"
  /\ filepath_Join "/opt/cni/bin/" "debug" = "/opt/cni/bin/debug"
  /\ filepath_Join "" "debug" = "debug"
  /\ filepath_Join "/a//b/" "../x" = "/a/x"
  /\ filepath_Join "a/.." ".." = ".."
  /\ filepath_Join "/.." "x" = "/x".
Proof. repeat split. Qed.

Lemma strings_Split_examples :
  strings_Split "/a:/b" ":" = ["/a"; "/b"]
  /\ strings_Split "/a::b:" ":" = ["/a"; ""; "b"; ""]
  /\ strings_Split "/opt/cni/bin" ":" = ["/opt/cni/bin"].
Proof. repeat split. Qed.

(** ** Printing, then parsing *)

Lemma parse_chars_escape (s rest : string) :
  parse_chars (escape s ++ String dquote rest) = Some (s, rest).
Proof.
  induction s as [|c s IH]; [reflexivity|].
  cbn [escape]. rewrite append_assoc, parse_chars_escape_char, IH. reflexivity.
Qed.

Lemma span_num_app (lit rest : string) :
  string_forallb is_numchar lit = true -> follows rest = true ->
  span_num (lit ++ rest) = (lit, rest).
Proof.
  intros Hl Hr. induction lit as [|c lit IH]; simpl in *.
  - destruct rest as [|d rest]; [reflexivity|]. cbn [span_num follows] in *.
    destruct (is_numchar d); [discriminate | reflexivity].
  - apply andb_prop in Hl as [Hc Hl]. rewrite Hc, (IH Hl). reflexivity.
Qed.

Lemma print_arr_cons (x : json) (xs : list json) :
  print (JArr (x :: xs)) = "[" ++ print x ++ print_elems xs.
Proof. reflexivity. Qed.

Lemma print_obj_cons (kv : string * json) (ms : list (string * json)) :
  print (JObj (kv :: ms)) = "{" ++ quote (fst kv) ++ ":" ++ print (snd kv) ++ print_members ms.
Proof. reflexivity. Qed.

Lemma numchar_opens (c : ascii) (t : string) : is_numchar c = true -> opens (String c t).
Proof.
  intros H. exists c, t. split; [reflexivity|]. revert H. each_byte c; intros; repeat split; discriminate.
Qed.

Lemma print_opens (v : json) : nums_ok v = true -> opens (print v).
Proof.
  destruct v as [|[]|lit|s|[|x xs]|[|kv ms]]; intros H;
    try (eexists _, _; repeat split; reflexivity).
  simpl in H. apply andb_prop in H as [H1 H2].
  destruct lit as [|c lit]; [discriminate|].
  simpl in H2. apply andb_prop in H2 as [H2 _]. now apply numchar_opens.
Qed.

Lemma skip_ws_opens (s : string) : opens s -> skip_ws s = s.
Proof. intros (c & t & -> & H & _). simpl. now rewrite H. Qed.

Lemma follows_elems (xs : list json) (rest : string) : follows (print_elems xs ++ rest) = true.
Proof. destruct xs; reflexivity. Qed.

Lemma follows_members (ms : list (string * json)) (rest : string) :
  follows (print_members ms ++ rest) = true.
Proof. destruct ms; reflexivity. Qed.

Lemma parse_value_unfold (fuel : nat) (c : ascii) (t : string) :
  is_ws c = false ->
  parse_value (S fuel) (String c t) =
  let n := N_of_ascii c in
  if is_numchar c then
    (let (lit, rest) := span_num (String c t) in
     if is_number lit then Some (JNum lit, rest) else None)
  else if (n =? 34)%N then
    match parse_chars t with
    | Some (str, rest) => Some (JStr str, rest)
    | None => None
    end
  else if (n =? 91)%N then
    match skip_ws t with
    | EmptyString => None
    | String d s2 =>
        if (N_of_ascii d =? 93)%N then Some (JArr [], s2)
        else match parse_elems fuel t with
             | Some (xs, rest) => Some (JArr xs, rest)
             | None => None
             end
    end
  else if (n =? 123)%N then
    match skip_ws t with
    | EmptyString => None
    | String d s2 =>
        if (N_of_ascii d =? 125)%N then Some (JObj [], s2)
        else match parse_members fuel t with
             | Some (ms, rest) => Some (JObj ms, rest)
             | None => None
             end
    end
  else if (n =? 110)%N then expect "null" JNull (String c t)
  else if (n =? 116)%N then expect "true" (JBool true) (String c t)
  else if (n =? 102)%N then expect "false" (JBool false) (String c t)
  else None.
Proof. intros H. cbn [parse_value skip_ws]. rewrite H. reflexivity. Qed.

Lemma roundtrip_step_value (fuel : nat) :
  roundtrip_elems fuel -> roundtrip_members fuel -> roundtrip_value (S fuel).
Proof.
  intros IHe IHm v rest Hok Hlen Hrest.
  destruct v as [|[]|lit|s|[|x xs]|[|[k v] ms]]; try reflexivity.
  - (* number *)
    simpl in Hok. apply andb_prop in Hok as [Hnum Hchars].
    destruct lit as [|c lit]; [discriminate|].
    pose proof Hchars as Hc. simpl in Hc. apply andb_prop in Hc as [Hc _].
    change (print (JNum (String c lit)) ++ rest) with (String c (lit ++ rest)).
    rewrite parse_value_unfold by now apply numchar_not_ws.
    cbv zeta. rewrite Hc.
    change (String c (lit ++ rest)) with (String c lit ++ rest).
    rewrite (span_num_app _ _ Hchars Hrest), Hnum. reflexivity.
  - (* string *)
    change (print (JStr s) ++ rest) with (String dquote ((escape s ++ String dquote "") ++ rest)).
    rewrite parse_value_unfold by reflexivity.
    rewrite append_assoc. change (String dquote "" ++ rest) with (String dquote rest).
    rewrite parse_chars_escape. reflexivity.
  - (* array *)
    rewrite print_arr_cons in *. simpl in Hok. apply andb_prop in Hok as [Hx Hxs].
    change (("[" ++ print x ++ print_elems xs) ++ rest)
      with (String "[" ((print x ++ print_elems xs) ++ rest)).
    rewrite parse_value_unfold by reflexivity.
    rewrite append_assoc.
    assert (Ho : opens (print x ++ print_elems xs ++ rest)).
    { destruct (print_opens x Hx) as (c & t & E & H). rewrite E. exists c, (t ++ print_elems xs ++ rest). now split. }
    rewrite (skip_ws_opens _ Ho).
    destruct Ho as (c & t & E & _ & Hc & _). 
    cbv zeta. change (is_numchar "[") with false. cbv iota.
    change (N_of_ascii "[" =? 34)%N with false. change (N_of_ascii "[" =? 91)%N with true. cbv iota.
    rewrite E at 1. rewrite Hc.
    rewrite IHe; [reflexivity | assumption | assumption |].
    cbn [append String.length] in Hlen. lengths Hlen. lia.
  - (* object *)
    rewrite print_obj_cons in *. cbn [fst snd] in *.
    simpl in Hok. apply andb_prop in Hok as [Hv Hms].
    change (("{" ++ quote k ++ ":" ++ print v ++ print_members ms) ++ rest)
      with (String "{" ((quote k ++ ":" ++ print v ++ print_members ms) ++ rest)).
    rewrite parse_value_unfold by reflexivity.
    rewrite !append_assoc.
    cbv zeta. change (is_numchar "{") with false. cbv iota.
    change (N_of_ascii "{" =? 34)%N with false. change (N_of_ascii "{" =? 91)%N with false.
    change (N_of_ascii "{" =? 123)%N with true. cbv iota.
    change (skip_ws (quote k ++ ":" ++ print v ++ print_members ms ++ rest))
      with (quote k ++ ":" ++ print v ++ print_members ms ++ rest).
    unfold quote at 1. cbn [append]. change (N_of_ascii dquote =? 125)%N with false. cbv iota.
    change (String dquote ((escape k ++ String dquote "") ++ ":" ++ print v ++ print_members ms ++ rest))
      with (quote k ++ ":" ++ print v ++ print_members ms ++ rest).
    pose proof (IHm k v ms rest Hv Hms) as Hm. cbn [append] in Hm.
    rewrite Hm; [reflexivity|].
    cbn [append String.length] in Hlen. lengths Hlen. lia.
Qed.

Lemma roundtrip_step_elems (fuel : nat) :
  roundtrip_value fuel -> roundtrip_elems fuel -> roundtrip_elems (S fuel).
Proof.
  intros IHv IHe x xs rest Hx Hxs Hlen.
  cbn [parse_elems].
  assert (Hpos : 0 < String.length (print_elems xs)) by (destruct xs; simpl; lia).
  rewrite IHv; [| assumption | lia | apply follows_elems].
  destruct xs as [|y ys]; [reflexivity|].
  simpl in Hxs. apply andb_prop in Hxs as [Hy Hys].
  cbn [print_elems append skip_ws]. 
  change (is_ws ",") with false. cbv iota.
  change (N_of_ascii "," =? 44)%N with true. cbv iota.
  rewrite append_assoc.
  rewrite IHe; [reflexivity | assumption | assumption |].
  cbn [print_elems append String.length] in Hlen. lengths Hlen. lia.
Qed.

Lemma roundtrip_step_members (fuel : nat) :
  roundtrip_value fuel -> roundtrip_members fuel -> roundtrip_members (S fuel).
Proof.
  intros IHv IHm k v ms rest Hv Hms Hlen.
  cbn [parse_members]. unfold quote at 1. cbn [append skip_ws].
  change (is_ws dquote) with false. cbv iota.
  change (N_of_ascii dquote =? 34)%N with true. cbv iota.
  rewrite append_assoc. cbn [append]. rewrite parse_chars_escape.
  cbn [skip_ws]. change (is_ws ":") with false. cbv iota.
  change (N_of_ascii ":" =? 58)%N with true. cbv iota.
  assert (Hpos : 0 < String.length (print_members ms)) by (destruct ms; simpl; lia).
  rewrite IHv; [| assumption | lia | apply follows_members].
  destruct ms as [|[k' v'] ms']; [reflexivity|].
  simpl in Hms. apply andb_prop in Hms as [Hv' Hms'].
  cbn [print_members fst snd append skip_ws].
  change (is_ws ",") with false. cbv iota.
  change (N_of_ascii "," =? 44)%N with true. cbv iota.
  rewrite !append_assoc. cbn [append]. rewrite !append_assoc.
  pose proof (IHm k' v' ms' rest Hv' Hms') as Hm. cbn [append] in Hm.
  rewrite Hm; [reflexivity|].
  cbn [print_members fst snd append String.length] in Hlen. lengths Hlen. lia.
Qed.

Lemma roundtrip_all (fuel : nat) :
  roundtrip_value fuel /\ roundtrip_elems fuel /\ roundtrip_members fuel.
Proof.
  induction fuel as [|fuel (IHv & IHe & IHm)].
  - repeat split; intro; intros; lia.
  - repeat split.
    + now apply roundtrip_step_value.
    + now apply roundtrip_step_elems.
    + now apply roundtrip_step_members.
Qed.

(** What [json.Marshal] writes, [json.Unmarshal] reads back. *)
Lemma json_parse_print (v : json) : nums_ok v = true -> json_parse (print v) = Some v.
Proof.
  intros H. unfold json_parse.
  destruct (roundtrip_all (S (String.length (print v)))) as (Hv & _).
  rewrite <- (append_nil_r (print v)) at 2.
  rewrite Hv; [reflexivity | assumption | lia | reflexivity].
Qed.

(** ** What the parser returns *)

Lemma span_num_chars (s a b : string) :
  span_num s = (a, b) -> string_forallb is_numchar a = true.
Proof.
  revert a b. induction s as [|c s IH]; intros a b H; simpl in H.
  - now inversion H.
  - destruct (is_numchar c) eqn:Hc.
    + destruct (span_num s) as [a' b']. inversion H; subst. simpl. now rewrite Hc, (IH a' _ eq_refl).
    + now inversion H.
Qed.

Ltac split_match H :=
  match type of H with
  | context [match ?x with _ => _ end] => destruct x eqn:?; try discriminate
  end.

Lemma expect_nums_ok lit v s r : expect lit v s = Some r -> nums_ok v = true -> nums_ok (fst r) = true.
Proof. unfold expect. intros H Hv. split_match H. now inversion H. Qed.

Lemma parsed_nums_ok (fuel : nat) :
  (forall s v rest, parse_value fuel s = Some (v, rest) -> nums_ok v = true)
  /\ (forall s xs rest, parse_elems fuel s = Some (xs, rest) -> forallb nums_ok xs = true)
  /\ (forall s ms rest, parse_members fuel s = Some (ms, rest) ->
        forallb (fun kv => nums_ok (snd kv)) ms = true).
Proof.
  induction fuel as [|fuel (IHv & IHe & IHm)]; [repeat split; intros; discriminate|].
  repeat split.
  - intros s v rest H. cbn [parse_value] in H.
    destruct (skip_ws s) as [|c t]; [discriminate|]. cbv zeta in H.
    destruct (is_numchar c).
    { destruct (span_num (String c t)) as [lit r] eqn:Hs.
      destruct (is_number lit) eqn:Hn; [|discriminate]. inversion H; subst.
      simpl. now rewrite Hn, (span_num_chars _ _ _ Hs). }
    destruct (N_of_ascii c =? 34)%N.
    { destruct (parse_chars t) as [[str r]|]; [|discriminate]. now inversion H. }
    destruct (N_of_ascii c =? 91)%N.
    { destruct (skip_ws t) as [|d s2]; [discriminate|].
      destruct (N_of_ascii d =? 93)%N; [now inversion H|].
      destruct (parse_elems fuel t) as [[xs r]|] eqn:He; [|discriminate].
      inversion H; subst. simpl. eapply IHe, He. }
    destruct (N_of_ascii c =? 123)%N.
    { destruct (skip_ws t) as [|d s2]; [discriminate|].
      destruct (N_of_ascii d =? 125)%N; [now inversion H|].
      destruct (parse_members fuel t) as [[ms r]|] eqn:Hm; [|discriminate].
      inversion H; subst. simpl. eapply IHm, Hm. }
    destruct (N_of_ascii c =? 110)%N; [apply (expect_nums_ok _ _ _ _ H); reflexivity|].
    destruct (N_of_ascii c =? 116)%N; [apply (expect_nums_ok _ _ _ _ H); reflexivity|].
    destruct (N_of_ascii c =? 102)%N; [apply (expect_nums_ok _ _ _ _ H); reflexivity|].
    discriminate.
  - intros s xs rest H. cbn [parse_elems] in H.
    destruct (parse_value fuel s) as [[v s1]|] eqn:Hv; [|discriminate].
    destruct (skip_ws s1) as [|d s2]; [discriminate|].
    destruct (N_of_ascii d =? 44)%N.
    { destruct (parse_elems fuel s2) as [[vs r]|] eqn:He; [|discriminate].
      inversion H; subst. simpl. now rewrite (IHv _ _ _ Hv), (IHe _ _ _ He). }
    destruct (N_of_ascii d =? 93)%N; [|discriminate].
    inversion H; subst. simpl. now rewrite (IHv _ _ _ Hv).
  - intros s ms rest H. cbn [parse_members] in H.
    destruct (skip_ws s) as [|q s1]; [discriminate|].
    destruct (N_of_ascii q =? 34)%N; [|discriminate].
    destruct (parse_chars s1) as [[k s2]|]; [|discriminate].
    destruct (skip_ws s2) as [|col s3]; [discriminate|].
    destruct (N_of_ascii col =? 58)%N; [|discriminate].
    destruct (parse_value fuel s3) as [[v s4]|] eqn:Hv; [|discriminate].
    destruct (skip_ws s4) as [|d s5]; [discriminate|].
    destruct (N_of_ascii d =? 44)%N.
    { destruct (parse_members fuel s5) as [[ms' r]|] eqn:Hm; [|discriminate].
      inversion H; subst. simpl. now rewrite (IHv _ _ _ Hv), (IHm _ _ _ Hm). }
    destruct (N_of_ascii d =? 125)%N; [|discriminate].
    inversion H; subst. simpl. now rewrite (IHv _ _ _ Hv).
Qed.

Lemma json_parse_nums_ok (data : bytes) (v : json) :
  json_parse data = Some v -> nums_ok v = true.
Proof.
  unfold json_parse. intros H.
  destruct (parse_value _ data) as [[v' rest]|] eqn:Hv; [|discriminate].
  destruct (skip_ws rest); [|discriminate]. inversion H; subst.
  eapply (proj1 (parsed_nums_ok _)), Hv.
Qed.

(** ** Objects as sorted association lists *)

Lemma compare_refl (k : string) : String.compare k k = Eq.
Proof. now apply (proj2 (String_as_OT.cmp_eq k k)). Qed.

Lemma compare_Eq_eqb (a b : string) : String.compare a b = Eq -> String.eqb a b = true.
Proof. intros H. apply String.compare_eq_iff in H. subst. apply String.eqb_refl. Qed.

Lemma compare_Lt_eqb (a b : string) : String.compare a b = Lt -> String.eqb a b = false.
Proof.
  intros H. apply String.eqb_neq. intros ->. rewrite compare_refl in H. discriminate.
Qed.

Lemma compare_Gt_eqb (a b : string) : String.compare a b = Gt -> String.eqb a b = false.
Proof.
  intros H. apply String.eqb_neq. intros ->. rewrite compare_refl in H. discriminate.
Qed.

Lemma compare_Gt_ltb (a b : string) : String.compare a b = Gt -> String.ltb b a = true.
Proof.
  intros H. unfold String.ltb. rewrite String.compare_antisym, H. reflexivity.
Qed.

Lemma ltb_compare (a b : string) : String.ltb a b = true <-> String.compare a b = Lt.
Proof. unfold String.ltb. destruct (String.compare a b); split; congruence. Qed.

Lemma ltb_trans (a b c : string) :
  String.ltb a b = true -> String.ltb b c = true -> String.ltb a c = true.
Proof.
  rewrite !ltb_compare. intros H1 H2.
  apply String_as_OT.cmp_lt in H1, H2. apply String_as_OT.cmp_lt.
  eapply String_as_OT.lt_trans; eassumption.
Qed.

Lemma ltb_eqb (a b : string) : String.ltb a b = true -> String.eqb b a = false.
Proof.
  intros H. apply String.eqb_neq. intros ->. apply ltb_compare in H.
  rewrite compare_refl in H. discriminate.
Qed.

Lemma wf_nums_ok (v : json) : wf v = true -> nums_ok v = true.
Proof.
  induction v as [| | | |xs IH|ms IH] using json_induction; simpl; auto.
  - intros H. rewrite forallb_forall in *. rewrite Forall_forall in IH. auto.
  - intros H. apply andb_prop in H as [_ H].
    rewrite forallb_forall in *. rewrite Forall_forall in IH. auto.
Qed.

Lemma keys_above_trans (a b : string) (ms : list (string * json)) :
  String.ltb a b = true -> keys_above b ms = true -> keys_above a ms = true.
Proof.
  unfold keys_above. rewrite !forallb_forall. intros Hab H kv Hin.
  eapply ltb_trans; eauto.
Qed.

Lemma keys_above_get (k : string) (ms : list (string * json)) :
  keys_above k ms = true -> obj_get k ms = None.
Proof.
  induction ms as [|[k' v'] ms IH]; [reflexivity|]. simpl.
  intros H. apply andb_prop in H as [H1 H2].
  rewrite (proj2 (String.eqb_neq k k')); [auto|].
  intros ->. apply ltb_compare in H1. rewrite compare_refl in H1. discriminate.
Qed.

Lemma keys_above_set (k0 k : string) (v : json) (ms : list (string * json)) :
  String.ltb k0 k = true -> keys_above k0 ms = true -> keys_above k0 (obj_set k v ms) = true.
Proof.
  intros Hk. induction ms as [|[k' v'] ms IH]; simpl.
  - now rewrite Hk.
  - intros H. apply andb_prop in H as [H1 H2].
    destruct (String.compare k k'); simpl; rewrite ?Hk, ?H1, ?H2; auto.
Qed.

Lemma keys_above_del (k0 k : string) (ms : list (string * json)) :
  keys_above k0 ms = true -> keys_above k0 (obj_del k ms) = true.
Proof.
  induction ms as [|[k' v'] ms IH]; simpl; [auto|].
  intros H. apply andb_prop in H as [H1 H2].
  destruct (String.eqb k k'); simpl; rewrite ?H1; auto.
Qed.

Lemma obj_set_wf (k : string) (v : json) (ms : list (string * json)) :
  wf v = true -> members_wf ms = true -> members_wf (obj_set k v ms) = true.
Proof.
  unfold members_wf. intros Hv. induction ms as [|[k' v'] ms IH]; simpl.
  - now rewrite Hv.
  - intros H. apply andb_prop in H as [Hs Hw].
    apply andb_prop in Hs as [Ha Hs]. apply andb_prop in Hw as [Hv' Hw].
    destruct (String.compare k k') eqn:Hc; simpl.
    + apply String.compare_eq_iff in Hc. subst. now rewrite Ha, Hs, Hv, Hw.
    + apply ltb_compare in Hc.
      now rewrite Hc, (keys_above_trans _ _ _ Hc Ha), Ha, Hs, Hv, Hv', Hw.
    + specialize (IH (proj2 (andb_true_iff _ _) (conj Hs Hw))).
      apply andb_prop in IH as [IH1 IH2].
      now rewrite (keys_above_set _ _ _ _ (compare_Gt_ltb _ _ Hc) Ha), IH1, Hv', IH2.
Qed.

Lemma obj_del_wf (k : string) (ms : list (string * json)) :
  members_wf ms = true -> members_wf (obj_del k ms) = true.
Proof.
  unfold members_wf. induction ms as [|[k' v'] ms IH]; simpl; [auto|].
  intros H. apply andb_prop in H as [Hs Hw].
  apply andb_prop in Hs as [Ha Hs]. apply andb_prop in Hw as [Hv' Hw].
  specialize (IH (proj2 (andb_true_iff _ _) (conj Hs Hw))).
  destruct (String.eqb k k'); [assumption|]. simpl.
  apply andb_prop in IH as [IH1 IH2].
  now rewrite (keys_above_del _ k _ Ha), IH1, Hv', IH2.
Qed.

Lemma obj_get_wf (k : string) (v : json) (ms : list (string * json)) :
  members_wf ms = true -> obj_get k ms = Some v -> wf v = true.
Proof.
  unfold members_wf. induction ms as [|[k' v'] ms IH]; simpl; [discriminate|].
  intros H. apply andb_prop in H as [Hs Hw].
  apply andb_prop in Hs as [Ha Hs]. apply andb_prop in Hw as [Hv' Hw].
  destruct (String.eqb k k'); [intros [= <-]; assumption|].
  apply IH. now rewrite Hs, Hw.
Qed.

Lemma get_set_same (k : string) (v : json) (ms : list (string * json)) :
  obj_get k (obj_set k v ms) = Some v.
Proof.
  induction ms as [|[k' v'] ms IH]; simpl.
  - now rewrite String.eqb_refl.
  - destruct (String.compare k k') eqn:Hc; simpl.
    + now rewrite String.eqb_refl.
    + now rewrite String.eqb_refl.
    + now rewrite (compare_Gt_eqb _ _ Hc).
Qed.

Lemma get_set_other (k k2 : string) (v : json) (ms : list (string * json)) :
  k2 <> k -> obj_get k2 (obj_set k v ms) = obj_get k2 ms.
Proof.
  intros Hne. apply String.eqb_neq in Hne.
  induction ms as [|[k' v'] ms IH]; simpl.
  - now rewrite Hne.
  - destruct (String.compare k k') eqn:Hc; simpl.
    + apply String.compare_eq_iff in Hc. subst. now rewrite Hne.
    + now rewrite Hne.
    + now rewrite IH.
Qed.

Lemma get_del_same (k : string) (ms : list (string * json)) :
  obj_get k (obj_del k ms) = None.
Proof.
  induction ms as [|[k' v'] ms IH]; simpl; [reflexivity|].
  destruct (String.eqb k k') eqn:E; [assumption|]. simpl. now rewrite E.
Qed.

Lemma get_del_other (k k2 : string) (ms : list (string * json)) :
  k2 <> k -> obj_get k2 (obj_del k ms) = obj_get k2 ms.
Proof.
  intros Hne. induction ms as [|[k' v'] ms IH]; simpl; [reflexivity|].
  destruct (String.eqb k k') eqn:E; simpl.
  - apply String.eqb_eq in E. subst. apply String.eqb_neq in Hne. now rewrite Hne.
  - now rewrite IH.
Qed.

(** ** Normal forms and merging *)

Lemma canon_obj (ms : list (string * json)) :
  canon (JObj ms) = JObj (fold_left canon_member ms []).
Proof. reflexivity. Qed.

Lemma fold_canon_wf (ms acc : list (string * json)) :
  Forall (fun kv => nums_ok (snd kv) = true -> wf (canon (snd kv)) = true) ms ->
  forallb (fun kv => nums_ok (snd kv)) ms = true ->
  members_wf acc = true -> members_wf (fold_left canon_member ms acc) = true.
Proof.
  revert acc. induction ms as [|kv ms IH]; intros acc HF Hok Hacc; [assumption|].
  simpl in *. apply andb_prop in Hok as [Hk Hok]. inversion HF; subst.
  apply IH; auto. apply obj_set_wf; auto.
Qed.

Lemma canon_wf (v : json) : nums_ok v = true -> wf (canon v) = true.
Proof.
  induction v as [| | | |xs IH|ms IH] using json_induction; simpl; auto.
  - intros H. rewrite forallb_forall in *. rewrite Forall_forall in IH.
    intros y Hy. apply in_map_iff in Hy as (x & <- & Hx). auto.
  - intros H. apply (fold_canon_wf ms [] IH H). reflexivity.
Qed.

(** Inserting a key above every key of the list puts it at the end. *)
Lemma obj_set_last (k : string) (v : json) (acc : list (string * json)) :
  forallb (fun kv => String.ltb (fst kv) k) acc = true ->
  obj_set k v acc = (acc ++ [(k, v)])%list.
Proof.
  induction acc as [|[k' v'] acc IH]; simpl; [reflexivity|].
  intros H. apply andb_prop in H as [H1 H2].
  assert (Hc : String.compare k k' = Gt).
  { apply ltb_compare in H1. rewrite String.compare_antisym, H1. reflexivity. }
  now rewrite Hc, IH.
Qed.

Lemma fold_canon_sorted (ms acc : list (string * json)) :
  Forall (fun kv => wf (snd kv) = true -> canon (snd kv) = snd kv) ms ->
  forallb (fun kv => wf (snd kv)) ms = true ->
  sorted_keys ms = true ->
  forallb (fun a => forallb (fun kv => String.ltb (fst a) (fst kv)) ms) acc = true ->
  fold_left canon_member ms acc = (acc ++ ms)%list.
Proof.
  revert acc. induction ms as [|[k v] ms IH]; intros acc HF Hw Hs Hacc.
  - simpl. now rewrite app_nil_r.
  - simpl in *. inversion HF; subst. simpl in *.
    apply andb_prop in Hw as [Hv Hw]. apply andb_prop in Hs as [Ha Hs].
    unfold canon_member at 2. cbn [fst snd]. rewrite (H1 Hv).
    rewrite obj_set_last.
    + rewrite IH; auto.
      * now rewrite <- app_assoc.
      * rewrite forallb_app. simpl. unfold keys_above in Ha. rewrite Ha. simpl.
        rewrite andb_true_r. rewrite forallb_forall in *. intros a Hin.
        specialize (Hacc a Hin). now apply andb_prop in Hacc as [_ Hacc].
    + rewrite forallb_forall in *. intros a Hin.
      specialize (Hacc a Hin). now apply andb_prop in Hacc as [Hacc _].
Qed.

Lemma canon_id (v : json) : wf v = true -> canon v = v.
Proof.
  induction v as [| | | |xs IH|ms IH] using json_induction; simpl; auto.
  - intros H. f_equal. rewrite forallb_forall in H. rewrite Forall_forall in IH.
    rewrite <- (map_id xs) at 2. apply map_ext_in. auto.
  - intros H. apply andb_prop in H as [Hs Hw]. f_equal.
    change (fold_left canon_member ms [] = ms).
    now rewrite fold_canon_sorted.
Qed.

Lemma merge_obj (t : json) (pms : list (string * json)) :
  merge t (JObj pms) = JObj (fold_left merge_member pms (members_of t)).
Proof. destruct t; reflexivity. Qed.

Lemma members_of_wf (t : json) : wf t = true -> members_wf (members_of t) = true.
Proof. destruct t; simpl; auto. Qed.

Lemma merge_member_wf (acc : list (string * json)) (kv : string * json) :
  (forall t, wf t = true -> wf (snd kv) = true -> wf (merge t (snd kv)) = true) ->
  wf (snd kv) = true -> members_wf acc = true -> members_wf (merge_member acc kv) = true.
Proof.
  intros IH Hv Hacc. unfold merge_member.
  assert (Hset : members_wf
            (obj_set (fst kv)
               (merge (match obj_get (fst kv) acc with Some t => t | None => JNull end) (snd kv))
               acc) = true).
  { apply obj_set_wf; [|assumption]. apply IH; [|assumption].
    destruct (obj_get (fst kv) acc) eqn:E; [|reflexivity]. eapply obj_get_wf; eauto. }
  destruct (snd kv); try assumption. now apply obj_del_wf.
Qed.

Lemma fold_merge_wf (pms acc : list (string * json)) :
  Forall (fun kv => forall t, wf t = true -> wf (snd kv) = true -> wf (merge t (snd kv)) = true) pms ->
  forallb (fun kv => wf (snd kv)) pms = true ->
  members_wf acc = true -> members_wf (fold_left merge_member pms acc) = true.
Proof.
  revert acc. induction pms as [|kv pms IH]; intros acc HF Hw Hacc; [assumption|].
  simpl in *. inversion HF; subst. apply andb_prop in Hw as [Hv Hw].
  apply IH; auto. now apply merge_member_wf.
Qed.

Lemma merge_wf (p t : json) : wf t = true -> wf p = true -> wf (merge t p) = true.
Proof.
  revert t. induction p as [| | | |xs IH|pms IH] using json_induction; intros t Ht Hp;
    try (destruct t; assumption).
  - assert (Hx : wf (JArr (map (merge JNull) xs)) = true).
    { simpl in *. rewrite forallb_forall in *. rewrite Forall_forall in IH.
      intros y Hy. apply in_map_iff in Hy as (x & <- & Hx). apply IH; auto. }
    destruct t; assumption.
  - rewrite merge_obj. simpl in Hp. apply andb_prop in Hp as [Hs Hw].
    apply (fold_merge_wf pms (members_of t)); auto. now apply members_of_wf.
Qed.

(** What a merge leaves under a key.  The patch has no repeated key. *)
Lemma get_fold_merge (k : string) (pms acc : list (string * json)) :
  sorted_keys pms = true ->
  obj_get k (fold_left merge_member pms acc) =
  match obj_get k pms with
  | None => obj_get k acc
  | Some JNull => None
  | Some pv => Some (merge (match obj_get k acc with Some t => t | None => JNull end) pv)
  end.
Proof.
  revert acc. induction pms as [|[k1 v1] pms IH]; intros acc Hs; [reflexivity|].
  simpl in Hs. apply andb_prop in Hs as [Ha Hs].
  cbn [fold_left obj_get]. rewrite (IH _ Hs).
  destruct (String.eqb k k1) eqn:E.
  - apply String.eqb_eq in E. subst k1. rewrite (keys_above_get _ _ Ha).
    unfold merge_member. cbn [fst snd].
    destruct v1; rewrite ?get_set_same, ?get_del_same; reflexivity.
  - apply String.eqb_neq in E.
    assert (Hacc : obj_get k (merge_member acc (k1, v1)) = obj_get k acc).
    { unfold merge_member. cbn [fst snd].
      destruct v1; rewrite ?get_set_other, ?get_del_other; auto. }
    now rewrite Hacc.
Qed.

(** ** The three merges *)

Lemma parse_chars_plain (s rest : string) :
  plain_name s = true -> parse_chars (s ++ String dquote rest) = Some (s, rest).
Proof.
  induction s as [|c s IH]; [reflexivity|].
  unfold plain_name. cbn [string_forallb]. intros H. apply andb_prop in H as [Hc Hs].
  cbn [append parse_chars]. cbv zeta in Hc.
  destruct (N_of_ascii c =? 34)%N; [discriminate|].
  destruct (N_of_ascii c =? 92)%N; [discriminate|].
  destruct (N_of_ascii c <? 32)%N; [discriminate|].
  now rewrite (IH Hs).
Qed.

Lemma json_parse_cleanup (plugin : string) :
  plain_name plugin = true ->
  json_parse (cleanup_patch plugin) = Some (cleanup_value plugin).
Proof.
  intros H. unfold json_parse, cleanup_patch.
  set (tail := ", " ++ js "'plugin': null, 'config': null, 'patch': null}").
  change (js "', 'plugin': null, 'config': null, 'patch': null}") with (String dquote tail).
  change (js "{'type': '") with ("{" ++ String dquote ("type" ++ String dquote (": " ++ String dquote ""))).
  rewrite length_append. cbn [String.length append Nat.add].
  cbn [parse_value skip_ws]. 
  change (is_ws "{") with false. cbv iota. cbv zeta.
  change (is_numchar "{") with false. cbv iota.
  change (N_of_ascii "{" =? 34)%N with false. change (N_of_ascii "{" =? 91)%N with false.
  change (N_of_ascii "{" =? 123)%N with true. cbv iota.
  change (is_ws dquote) with false. cbv iota.
  change (N_of_ascii dquote =? 125)%N with false. cbv iota.
  cbn [parse_members skip_ws].
  change (is_ws dquote) with false. cbv iota.
  change (N_of_ascii dquote =? 34)%N with true. cbv iota.
  change (parse_chars (String "t" (String "y" (String "p" (String "e" (String dquote (String ":" (String " " (String dquote (plugin ++ String dquote tail))))))))))
    with (Some ("type", String ":" (String " " (String dquote (plugin ++ String dquote tail))))).
  cbn [skip_ws]. change (is_ws ":") with false. cbv iota.
  change (N_of_ascii ":" =? 58)%N with true. cbv iota.
  cbn [parse_value skip_ws].
  change (is_ws " ") with true. cbv iota.
  change (is_ws dquote) with false. cbv iota. cbv zeta.
  change (is_numchar dquote) with false. cbv iota.
  change (N_of_ascii dquote =? 34)%N with true. cbv iota.
  rewrite (parse_chars_plain _ _ H).
  subst tail. reflexivity.
Qed.

Lemma container_not_null (v : json) : is_container v = true -> v <> JNull.
Proof. destruct v; discriminate. Qed.

Lemma canon_container (v : json) : is_container (canon v) = is_container v.
Proof. destruct v; reflexivity. Qed.

Lemma merge_container (t p : json) :
  is_container p = true -> is_container (merge t p) = true.
Proof. destruct p; try discriminate; destruct t; reflexivity. Qed.

Lemma target_of_wf (doc patch : json) : wf doc = true -> wf (target_of doc patch) = true.
Proof. destruct patch; auto. Qed.

Lemma MergePatch_parsed (docData patchData : bytes) (doc patch : json) :
  json_parse docData = Some doc -> json_parse patchData = Some patch ->
  doc <> JNull -> is_container patch = true ->
  MergePatch docData patchData
  = Ok (print (merge (target_of (canon doc) patch) (canon patch))).
Proof.
  intros Hd Hp Hn Hc. unfold MergePatch. rewrite Hd, Hp.
  destruct doc; try (exfalso; now apply Hn); destruct patch; try discriminate; reflexivity.
Qed.

Lemma MergePatch_inv (docData patchData out : bytes) :
  MergePatch docData patchData = Ok out ->
  exists doc patch, json_parse docData = Some doc /\ json_parse patchData = Some patch
                    /\ out = print (merge (target_of (canon doc) patch) (canon patch))
                    /\ doc <> JNull /\ is_container patch = true.
Proof.
  unfold MergePatch. intros H.
  destruct (json_parse docData) as [doc|]; [|discriminate].
  destruct (json_parse patchData) as [patch|]; [|discriminate].
  exists doc, patch.
  destruct doc; try discriminate; destruct patch; try discriminate; inversion H;
    repeat split; discriminate.
Qed.

Lemma MergePatch_printed (doc patch : json) :
  wf doc = true -> wf patch = true -> doc <> JNull -> is_container patch = true ->
  MergePatch (print doc) (print patch) = Ok (print (merge (target_of doc patch) patch)).
Proof.
  intros Hd Hp Hn Hc.
  rewrite (MergePatch_parsed _ _ doc patch)
    by (try (apply json_parse_print, wf_nums_ok); assumption).
  now rewrite !canon_id.
Qed.

Lemma merged_wf (doc patch : json) :
  nums_ok doc = true -> nums_ok patch = true ->
  wf (merge (target_of (canon doc) patch) (canon patch)) = true.
Proof. intros Hd Hp. apply merge_wf; [apply target_of_wf|]; now apply canon_wf. Qed.

Create HintDb documents.
#[local] Hint Resolve merged_wf merge_wf canon_wf wf_nums_ok json_parse_nums_ok target_of_wf
  : documents.

Lemma cleaned_value_wf (env cl : json) :
  nums_ok env = true -> nums_ok cl = true -> wf (cleaned_value env cl) = true.
Proof. apply merged_wf. Qed.

Lemma downstream_value_wf (cfg pv : json) :
  nums_ok cfg = true -> nums_ok pv = true -> wf (downstream_value cfg pv) = true.
Proof. apply merged_wf. Qed.

Lemma final_value_wf (env cl cfg pv : json) :
  nums_ok env = true -> nums_ok cl = true -> nums_ok cfg = true -> nums_ok pv = true ->
  wf (final_value env cl cfg pv) = true.
Proof.
  intros. unfold final_value.
  apply merge_wf; [apply target_of_wf|]; auto using cleaned_value_wf, downstream_value_wf.
Qed.

Lemma cleaned_value_container (env cl : json) :
  is_container cl = true -> is_container (cleaned_value env cl) = true.
Proof. intros H. apply merge_container. now rewrite canon_container. Qed.

Lemma downstream_value_container (cfg pv : json) :
  is_container pv = true -> is_container (downstream_value cfg pv) = true.
Proof. intros H. apply merge_container. now rewrite canon_container. Qed.

(** The third merge, of the results of the first two. *)
Lemma MergePatch_results (env cl cfg pv : json) :
  nums_ok env = true -> nums_ok cl = true -> nums_ok cfg = true -> nums_ok pv = true ->
  is_container cl = true -> is_container pv = true ->
  MergePatch (print (cleaned_value env cl)) (print (downstream_value cfg pv))
  = Ok (print (final_value env cl cfg pv)).
Proof.
  intros He Hcl Hcfg Hpv Hc Hp. apply MergePatch_printed.
  - now apply cleaned_value_wf.
  - now apply downstream_value_wf.
  - now apply container_not_null, cleaned_value_container.
  - now apply downstream_value_container.
Qed.

Lemma generateDownstream_value E conf merger env cl cfg pv :
  renders E conf merger ->
  json_parse (stdin conf) = Some env ->
  json_parse (cleanup_patch (Plugin conf)) = Some cl ->
  json_parse (config_bytes conf) = Some cfg ->
  json_parse (normalize merger) = Some pv ->
  env <> JNull -> is_container cl = true -> cfg <> JNull -> is_container pv = true ->
  generateDownstream E conf = Ok (print (final_value env cl cfg pv)).
Proof.
  intros (tmpl & env' & Ht & He' & Hx) He Hcl Hcfg Hpv Hen Hclc Hcn Hpc.
  rewrite He in He'. inversion He'; subst env'.
  unfold generateDownstream, json_Unmarshal_interface. cbv zeta. rewrite Ht, He, Hx.
  rewrite (MergePatch_parsed _ _ env cl He Hcl Hen Hclc).
  fold (config_bytes conf).
  change (if (String.length merger =? 0)%nat then "{}" else merger) with (normalize merger).
  rewrite (MergePatch_parsed _ _ cfg pv Hcfg Hpv Hcn Hpc).
  fold (cleaned_value env cl). fold (downstream_value cfg pv).
  rewrite MergePatch_results; eauto with documents.
Qed.

Lemma generateDownstream_inv E conf final :
  generateDownstream E conf = Ok final ->
  exists merger env cl cfg pv,
    renders E conf merger
    /\ json_parse (stdin conf) = Some env
    /\ json_parse (cleanup_patch (Plugin conf)) = Some cl
    /\ json_parse (config_bytes conf) = Some cfg
    /\ json_parse (normalize merger) = Some pv
    /\ MergePatch (stdin conf) (cleanup_patch (Plugin conf)) = Ok (print (cleaned_value env cl))
    /\ MergePatch (config_bytes conf) (normalize merger) = Ok (print (downstream_value cfg pv))
    /\ MergePatch (print (cleaned_value env cl)) (print (downstream_value cfg pv)) = Ok final
    /\ final = print (final_value env cl cfg pv)
    /\ is_container cl = true /\ is_container pv = true.
Proof.
  unfold generateDownstream, json_Unmarshal_interface. cbv zeta. intros H.
  destruct (template_Parse E (Patch conf)) as [tmpl|] eqn:Ht; [|discriminate].
  destruct (json_parse (stdin conf)) as [env|] eqn:He; [|discriminate].
  destruct (template_Execute E tmpl (canon env)) as [merger|] eqn:Hx; [|discriminate].
  fold (config_bytes conf) in H.
  change (if (String.length merger =? 0)%nat then "{}" else merger) with (normalize merger) in H.
  destruct (MergePatch (stdin conf) _) as [cleaned|] eqn:H1; [|discriminate].
  destruct (MergePatch (config_bytes conf) _) as [downstream|] eqn:H2; [|discriminate].
  destruct (MergePatch cleaned downstream) as [final'|] eqn:H3; [|discriminate].
  inversion H; subst final'.
  pose proof H1 as H1'. apply MergePatch_inv in H1' as (env' & cl & He' & Hcl & -> & Hen & Hclc).
  rewrite He in He'. inversion He'; subst env'.
  pose proof H2 as H2'. apply MergePatch_inv in H2' as (cfg & pv & Hcfg & Hpv & -> & Hcn & Hpc).
  fold (cleaned_value env cl) in H1, H3. fold (downstream_value cfg pv) in H2, H3.
  exists merger, env, cl, cfg, pv.
  assert (Hr : renders E conf merger) by (exists tmpl, env; auto).
  assert (Hf : final = print (final_value env cl cfg pv)).
  { rewrite MergePatch_results in H3; eauto with documents. now inversion H3. }
  repeat split; assumption.
Qed.

(** ** What decoding guarantees *)

Lemma decode_field_inv conf kv conf' :
  decode_field conf kv = Ok conf' -> nums_ok (snd kv) = true -> config_ok conf ->
  stdin conf' = stdin conf /\ config_ok conf'.
Proof.
  unfold decode_field. intros H Hv Hc.
  destruct (String.eqb (fold_name (fst kv)) "config").
  { inversion H; subst; clear H. split; [reflexivity|]. unfold config_ok. cbn [Config].
    destruct (snd kv); try exact I; eexists; (split; [|split]);
      try reflexivity; try assumption; discriminate. }
  destruct (String.eqb (fold_name (fst kv)) "patch").
  { destruct (snd kv); inversion H; subst; auto. }
  destruct (String.eqb (fold_name (fst kv)) "plugin").
  { destruct (snd kv); inversion H; subst; auto. }
  destruct (String.eqb (fold_name (fst kv)) "skip").
  { destruct (snd kv); try discriminate; [inversion H; subst; auto|].
    destruct (decode_strings xs); inversion H; subst; auto. }
  inversion H; subst; auto.
Qed.

Lemma decode_fields_inv ms conf conf' :
  decode_fields ms conf = Ok conf' ->
  forallb (fun kv => nums_ok (snd kv)) ms = true -> config_ok conf ->
  stdin conf' = stdin conf /\ config_ok conf'.
Proof.
  revert conf. induction ms as [|kv ms IH]; intros conf H Hms Hc; simpl in *.
  - inversion H; subst; auto.
  - apply andb_prop in Hms as [Hv Hms].
    destruct (decode_field conf kv) as [c1|] eqn:E; [|discriminate].
    destruct (decode_field_inv _ _ _ E Hv Hc) as [Hs1 Hc1].
    destruct (IH _ H Hms Hc1) as [Hs2 Hc2]. split; congruence.
Qed.

Lemma json_Unmarshal_inv (data : bytes) (conf : PluginConfig) :
  json_Unmarshal data (empty_config data) = Ok conf ->
  stdin conf = data
  /\ (exists env, json_parse data = Some env)
  /\ (exists cfg, json_parse (config_bytes conf) = Some cfg /\ cfg <> JNull).
Proof.
  unfold json_Unmarshal. intros H.
  destruct (json_parse data) as [env|] eqn:He; [|discriminate].
  assert (Hinv : stdin conf = data /\ config_ok conf).
  { destruct env; try discriminate.
    - inversion H; subst. split; [reflexivity | exact I].
    - apply json_parse_nums_ok in He. simpl in He.
      apply (decode_fields_inv _ _ _ H He). exact I. }
  destruct Hinv as [Hs Hc]. repeat split; eauto.
  unfold config_bytes, config_ok in *. destruct (Config conf) as [c|].
  - destruct Hc as (v & Hv & Hn & ->). exists v. split; [now apply json_parse_print | assumption].
  - exists (JObj []). split; [reflexivity | discriminate].
Qed.

(** ** Plugin resolution *)

Lemma testbit_73 (i : N) :
  N.testbit 73 i = ((i =? 0) || (i =? 3) || (i =? 6))%N.
Proof.
  destruct (N.lt_ge_cases i 7) as [H|H].
  - assert (Hi : (i = 0 \/ i = 1 \/ i = 2 \/ i = 3 \/ i = 4 \/ i = 5 \/ i = 6)%N) by lia.
    destruct Hi as [->|[->|[->|[->|[->|[->| ->]]]]]]; reflexivity.
  - rewrite N.bits_above_log2 by (change (N.log2 73) with 6%N; lia).
    symmetry. rewrite !orb_false_iff, !N.eqb_neq. lia.
Qed.

Lemma mode_and_0111 (mode : N) :
  negb (N.land mode 73 =? 0)%N = any_execute_bit mode.
Proof.
  unfold any_execute_bit.
  destruct (N.land mode 73 =? 0)%N eqn:E; simpl.
  - apply N.eqb_eq in E.
    assert (H : forall i, N.testbit mode i && N.testbit 73 i = false).
    { intros i. rewrite <- N.land_spec, E. apply N.bits_0. }
    pose proof (H 6%N) as H6. pose proof (H 3%N) as H3. pose proof (H 0%N) as H0.
    change (N.testbit 73 6) with true in H6. change (N.testbit 73 3) with true in H3.
    change (N.testbit 73 0) with true in H0.
    rewrite andb_true_r in *. now rewrite H6, H3, H0.
  - apply N.eqb_neq in E. symmetry. apply not_false_iff_true. intros H.
    apply orb_false_iff in H as [H H0]. apply orb_false_iff in H as [H6 H3].
    apply E. apply N.bits_inj. intros i. rewrite N.land_spec, N.bits_0, testbit_73.
    destruct (i =? 0)%N eqn:E0; [apply N.eqb_eq in E0; subst; now rewrite H0|].
    destruct (i =? 3)%N eqn:E3; [apply N.eqb_eq in E3; subst; now rewrite H3|].
    destruct (i =? 6)%N eqn:E6; [apply N.eqb_eq in E6; subst; now rewrite H6|].
    apply andb_false_r.
Qed.

Lemma find_executable_step (sys : OS) (plugin p : string) (dirs : list string) :
  find_executable sys plugin (p :: dirs) =
  if executable sys (filepath_Join p plugin) then Some (filepath_Join p plugin)
  else find_executable sys plugin dirs.
Proof.
  cbn [find_executable]. unfold executable.
  destruct (os_Open sys (filepath_Join p plugin)) as [f|]; [|reflexivity].
  destruct (Stat f) as [s|]; [|reflexivity].
  now rewrite mode_and_0111.
Qed.

Lemma find_executable_first (sys : OS) (plugin : string) (pre : list string) (d : string)
  (post : list string) :
  Forall (fun d' => executable sys (filepath_Join d' plugin) = false) pre ->
  executable sys (filepath_Join d plugin) = true ->
  find_executable sys plugin (pre ++ d :: post) = Some (filepath_Join d plugin).
Proof.
  intros Hpre Hd. induction Hpre as [|d' pre Hd' _ IH].
  - cbn [app]. now rewrite find_executable_step, Hd.
  - cbn [app]. now rewrite find_executable_step, Hd'.
Qed.

Lemma find_executable_none (sys : OS) (plugin : string) (dirs : list string) :
  Forall (fun d => executable sys (filepath_Join d plugin) = false) dirs ->
  find_executable sys plugin dirs = None.
Proof.
  induction 1 as [|d dirs Hd _ IH]; [reflexivity|].
  now rewrite find_executable_step, Hd.
Qed.

Lemma getPluginPath_search (sys : OS) (plugin : string) :
  getPluginPath sys plugin =
  match find_executable sys plugin (search_path (os_Getenv sys "CNI_PATH")) with
  | Some fullPath => Ok fullPath
  | None =>
      Err (NewError ErrMergeJSONFailed
             ("cni executable not found in CNI_PATH: " ++ plugin)
             (Sprintf_checked (search_path (os_Getenv sys "CNI_PATH"))))
  end.
Proof.
  unfold getPluginPath, search_path. cbv zeta.
  destruct (String.eqb (os_Getenv sys "CNI_PATH") ""); reflexivity.
Qed.

(** A variable that the environment does not hold reads as the empty
    string. *)
Lemma lookup_env_unset (key : string) (env : list (string * string)) :
  (forall v, ~ In (key, v) env) -> lookup_env key env = "".
Proof.
  induction env as [|[k v] env IH]; intros H; [reflexivity|]. simpl.
  destruct (String.eqb key k) eqn:E.
  - apply String.eqb_eq in E. subst. exfalso. apply (H v). now left.
  - apply IH. intros v' Hin. apply (H v'). now right.
Qed.

Lemma MainGo_getPluginPath_search (sys : OS) (plugin : string) :
  MainGo.getPluginPath sys plugin =
  match find_executable sys plugin (search_path (os_Getenv sys "CNI_PATH")) with
  | Some fullPath => Ok fullPath
  | None => Err ("error: cni executable not found in CNI_PATH: " ++ plugin)
  end.
Proof.
  unfold MainGo.getPluginPath, search_path. cbv zeta.
  destruct (String.eqb (os_Getenv sys "CNI_PATH") ""); reflexivity.
Qed.

(** C6 as stated fails: with an execute-only file of the plugin's name in the
    first directory and an executable in the second, [os.Open] fails on the
    first, the loop goes on, and both listings return the path in the second
    directory, although the first directory holds a file with an execute bit
    set. *)
Lemma unreadable_executable_is_passed_over :
  has_execute_bit execute_only_first "/first/debug" = true
  /\ getPluginPath (on_files [("CNI_PATH", "/first:/second")] execute_only_first) "debug"
     = Ok "/second/debug"
  /\ MainGo.getPluginPath (on_files [("CNI_PATH", "/first:/second")] execute_only_first) "debug"
     = Ok "/second/debug"
  /\ ~ first_execute_bit_wins [("CNI_PATH", "/first:/second")] execute_only_first.
Proof.
  repeat split.
  intros H.
  specialize (H "debug" [] "/first" ["/second"] eq_refl (Forall_nil _) eq_refl).
  vm_compute in H. discriminate.
Qed.

(** C6, amended.  The directories of the search path (the default directory
    when the variable is unset or empty) are tried from left to right; the
    first one in which the plugin can be opened, its status read, and an
    execute bit is set for owner, group or other gives the result, in the
    listing of [src/main.go] as in the latest one.  With two such directories
    the first listed one wins. *)
Theorem getPluginPath_first_match (sys : OS) (plugin : string)
  (pre : list string) (d : string) (post : list string) :
  search_path (os_Getenv sys "CNI_PATH") = (pre ++ d :: post)%list ->
  Forall (fun d' => executable sys (filepath_Join d' plugin) = false) pre ->
  executable sys (filepath_Join d plugin) = true ->
  getPluginPath sys plugin = Ok (filepath_Join d plugin)
  /\ MainGo.getPluginPath sys plugin = Ok (filepath_Join d plugin).
Proof.
  intros Hdirs Hpre Hd.
  rewrite getPluginPath_search, MainGo_getPluginPath_search, Hdirs,
    (find_executable_first _ _ _ _ _ Hpre Hd).
  split; reflexivity.
Qed.

Lemma getPluginPath_first_match_witness :
  getPluginPath two_directories "debug" = Ok "/first/debug"
  /\ MainGo.getPluginPath two_directories "debug" = Ok "/first/debug".
Proof.
  apply (getPluginPath_first_match two_directories "debug" [] "/first" ["/second"]).
  - reflexivity.
  - constructor.
  - reflexivity.
Defined.

Lemma getPluginPath_not_found (sys : OS) (plugin : string) :
  Forall (fun d => executable sys (filepath_Join d plugin) = false)
    (search_path (os_Getenv sys "CNI_PATH")) ->
  getPluginPath sys plugin =
  Err (NewError ErrMergeJSONFailed
         ("cni executable not found in CNI_PATH: " ++ plugin)
         (Sprintf_checked (search_path (os_Getenv sys "CNI_PATH")))).
Proof.
  intros H. now rewrite getPluginPath_search, (find_executable_none _ _ _ H).
Qed.

(** With the variable unset, the default directory is the only one that is
    searched. *)
Lemma getPluginPath_default (sys : OS) (plugin : string) :
  (forall v, ~ In ("CNI_PATH", v) (os_Environ sys)) ->
  executable sys (filepath_Join "/opt/cni/bin" plugin) = true ->
  getPluginPath sys plugin = Ok (filepath_Join "/opt/cni/bin" plugin).
Proof.
  intros Hunset Hx. rewrite getPluginPath_search.
  unfold os_Getenv. rewrite (lookup_env_unset _ _ Hunset).
  change (search_path "") with ([] ++ ["/opt/cni/bin"])%list.
  now rewrite (find_executable_first sys plugin [] _ [] (Forall_nil _) Hx).
Qed.

(** ** The process as a whole *)

Lemma main_reads (sys : OS) (E : TemplateEngine) (args : list string) (data : bytes) :
  version_flag args = false ->
  main sys E args (Ok data) initial_world =
  (r <- parseConf sys E data ;;
   (match snd r with
    | Some err => handleError err
    | None => ret tt
    end) ;;;
   match fst r with
   | None => os_Exit 2
   | Some conf =>
       match getPluginPath sys (Plugin conf) with
       | Err err => handleError err
       | Ok pluginPath =>
           out <- delegate sys pluginPath (downstreamConfig conf) (os_Environ sys) ;;
           fmt_Print (fst (fst out)) ;;;
           fmt_Fprint_Stderr (snd (fst out)) ;;;
           os_Exit (snd out)
       end
   end) initial_world.
Proof.
  intros H. unfold main. destruct args as [|a0 [|a1 args]]; try reflexivity.
  simpl in H. unfold bind at 1. now rewrite H.
Qed.

Lemma parseConf_skips (sys : OS) (E : TemplateEngine) (data : bytes) (conf : PluginConfig)
  (w : World) :
  json_Unmarshal data (empty_config data) = Ok conf ->
  skipped sys conf = true ->
  parseConf sys E data w =
  Exits 0 {| w_stdout := w_stdout w ++ data; w_stderr := w_stderr w; w_runs := w_runs w |}.
Proof.
  intros Hd Hs. unfold parseConf. fold (empty_config data). rewrite Hd.
  fold (skipped sys conf). rewrite Hs. reflexivity.
Qed.

Lemma parseConf_fails_decoding (sys : OS) (E : TemplateEngine) (data : bytes)
  (err : error_text) (w : World) :
  json_Unmarshal data (empty_config data) = Err err ->
  parseConf sys E data w =
  Returns (None, Some (NewError ErrDecodingFailure "failed to parse JSON config" err)) w.
Proof.
  intros Hd. unfold parseConf. fold (empty_config data). now rewrite Hd.
Qed.

Lemma parseConf_continues (sys : OS) (E : TemplateEngine) (data : bytes) (conf : PluginConfig)
  (w : World) :
  json_Unmarshal data (empty_config data) = Ok conf ->
  skipped sys conf = false ->
  parseConf sys E data w =
  match generateDownstream E conf with
  | Err err => Returns (Some conf, Some err) w
  | Ok downstream => Returns (Some (with_downstream conf downstream), None) w
  end.
Proof.
  intros Hd Hs. unfold parseConf. fold (empty_config data). rewrite Hd.
  fold (skipped sys conf). rewrite Hs.
  destruct (json_Unmarshal_inv _ _ Hd) as (Hstdin & _).
  unfold bind, ret, with_downstream. rewrite Hstdin.
  destruct (generateDownstream E conf); reflexivity.
Qed.

(** C3.  When the decoded skip list holds the command named by the
    environment, the process writes the bytes it read to standard output,
    writes nothing else, runs no subprocess and exits with status 0, whatever
    the template engine would do with the patch. *)
Theorem skip_echoes_input (sys : OS) (E : TemplateEngine) (args : list string)
  (data : bytes) (conf : PluginConfig) :
  version_flag args = false ->
  json_Unmarshal data (empty_config data) = Ok conf ->
  slices_Contains (Skip conf) (os_Getenv sys "CNI_COMMAND") = true ->
  run (main sys E args (Ok data))
  = {| exit_code := 0; stdout := data; stderr := ""; runs := [] |}.
Proof.
  intros Hv Hd Hs. unfold run. rewrite (main_reads _ _ _ _ Hv).
  unfold bind at 1. rewrite (parseConf_skips _ _ _ _ _ Hd Hs). reflexivity.
Qed.

Lemma handleError_exits (err : Error) (w : World) :
  @handleError unit err w =
  Exits (Z.of_N (Code err))
    {| w_stdout := w_stdout w; w_stderr := w_stderr w ++ Error_Error err; w_runs := w_runs w |}.
Proof. reflexivity. Qed.

(** C10.  When the envelope does not decode, the process reports the
    decoding failure on standard error and exits with its code; it writes
    nothing to standard output and runs no subprocess, whatever the input
    holds under [skip]. *)
Theorem undecodable_input_is_not_echoed (sys : OS) (E : TemplateEngine)
  (args : list string) (data : bytes) (err : error_text) :
  version_flag args = false ->
  json_Unmarshal data (empty_config data) = Err err ->
  run (main sys E args (Ok data))
  = {| exit_code := Z.of_N ErrDecodingFailure;
       stdout := "";
       stderr := Error_Error (NewError ErrDecodingFailure "failed to parse JSON config" err);
       runs := [] |}.
Proof.
  intros Hv Hd. unfold run. rewrite (main_reads _ _ _ _ Hv).
  unfold bind at 1. rewrite (parseConf_fails_decoding _ _ _ _ _ Hd).
  cbn [snd fst]. unfold bind at 1. rewrite handleError_exits. reflexivity.
Qed.

Lemma json_Unmarshal_syntax (data : bytes) (conf : PluginConfig) :
  json_parse data = None -> json_Unmarshal data conf = Err SyntaxError.
Proof. intros H. unfold json_Unmarshal. now rewrite H. Qed.

(** What [main] does with an envelope that decodes and does not ask to skip
    the command. *)
Section Delegation.

Variables (sys : OS) (E : TemplateEngine) (args : list string).
Variables (data : bytes) (conf : PluginConfig).

Hypothesis Hversion : version_flag args = false.
Hypothesis Hdecoded : json_Unmarshal data (empty_config data) = Ok conf.
Hypothesis Hnot_skipped : skipped sys conf = false.

Lemma main_synthesis_fails (err : Error) :
  generateDownstream E conf = Err err ->
  run (main sys E args (Ok data))
  = {| exit_code := Z.of_N (Code err); stdout := ""; stderr := Error_Error err; runs := [] |}.
Proof.
  intros Hg. unfold run. rewrite (main_reads _ _ _ _ Hversion).
  unfold bind at 1. rewrite (parseConf_continues _ _ _ _ _ Hdecoded Hnot_skipped), Hg.
  cbn [snd fst]. unfold bind at 1. rewrite handleError_exits. reflexivity.
Qed.

Lemma main_not_found (downstream : bytes) (err : Error) :
  generateDownstream E conf = Ok downstream ->
  getPluginPath sys (Plugin conf) = Err err ->
  run (main sys E args (Ok data))
  = {| exit_code := Z.of_N (Code err); stdout := ""; stderr := Error_Error err; runs := [] |}.
Proof.
  intros Hg Hp. unfold run. rewrite (main_reads _ _ _ _ Hversion).
  unfold bind at 1. rewrite (parseConf_continues _ _ _ _ _ Hdecoded Hnot_skipped), Hg.
  cbn [snd fst]. unfold bind at 1. unfold ret at 1.
  cbn [with_downstream Plugin]. rewrite Hp, handleError_exits. reflexivity.
Qed.

Lemma main_delegates (downstream : bytes) (pluginPath : string) :
  generateDownstream E conf = Ok downstream ->
  getPluginPath sys (Plugin conf) = Ok pluginPath ->
  run (main sys E args (Ok data))
  = {| exit_code := reported_exit (exec_Run sys pluginPath (os_Environ sys) downstream);
       stdout := run_stdout (exec_Run sys pluginPath (os_Environ sys) downstream);
       stderr := run_stderr (exec_Run sys pluginPath (os_Environ sys) downstream);
       runs := [(pluginPath, downstream)] |}.
Proof.
  intros Hg Hp. unfold run. rewrite (main_reads _ _ _ _ Hversion).
  unfold bind at 1. rewrite (parseConf_continues _ _ _ _ _ Hdecoded Hnot_skipped), Hg.
  cbn [snd fst]. unfold bind at 1. unfold ret at 1.
  cbn [with_downstream Plugin downstreamConfig]. rewrite Hp. reflexivity.
Qed.

(** When the subprocess runs to its end, its exit code is the exit code of
    the process. *)
Lemma exit_code_passes_through (downstream : bytes) (pluginPath : string) (code : Z) :
  generateDownstream E conf = Ok downstream ->
  getPluginPath sys (Plugin conf) = Ok pluginPath ->
  run_err (exec_Run sys pluginPath (os_Environ sys) downstream)
  = (if (code =? 0)%Z then None else Some (ExitError code)) ->
  exit_code (run (main sys E args (Ok data))) = code.
Proof.
  intros Hg Hp Hr. rewrite (main_delegates _ _ Hg Hp).
  cbn [exit_code]. unfold reported_exit. rewrite Hr.
  destruct (code =? 0)%Z eqn:E0; [|reflexivity]. apply Z.eqb_eq in E0. now subst.
Qed.

(** A failure to start the subprocess is reported by no message and no exit
    code: the process ends as after a successful run. *)
Lemma spawn_failure_is_silent (downstream : bytes) (pluginPath : string) (text : error_text) :
  generateDownstream E conf = Ok downstream ->
  getPluginPath sys (Plugin conf) = Ok pluginPath ->
  exec_Run sys pluginPath (os_Environ sys) downstream
  = {| run_stdout := ""; run_stderr := ""; run_err := Some (OtherError text) |} ->
  run (main sys E args (Ok data))
  = {| exit_code := 0; stdout := ""; stderr := ""; runs := [(pluginPath, downstream)] |}.
Proof.
  intros Hg Hp Hr. rewrite (main_delegates _ _ Hg Hp), Hr. reflexivity.
Qed.

End Delegation.

(** C5.  When the resolved executable cannot be started, the process writes
    no diagnostic and exits with status 0, as after a successful run of the
    plugin. *)
Theorem spawn_failure_exits_zero :
  run (main unstartable text_engine ["gator"]
         (Ok (js "{'type':'gator','plugin':'debug','prevResult':{'key':'value'}}")))
  = {| exit_code := 0; stdout := ""; stderr := "";
       runs := [("/opt/cni/bin/debug", js "{'prevResult':{'key':'value'},'type':'debug'}")] |}.
Proof. vm_compute. reflexivity. Qed.

(** C7.  When no directory holds the plugin, the diagnostic names the plugin
    and lists the directories, and the exit code is the one declared for a
    failed merge: the process exits with the same code when the rendered
    patch is not JSON. *)
Theorem not_found_shares_merge_failure_code :
  run (main no_plugin text_engine ["gator"] (Ok (js "{'type':'gator','plugin':'debug'}")))
  = {| exit_code := Z.of_N ErrMergeJSONFailed; stdout := "";
       stderr := "cni executable not found in CNI_PATH: debug; checked: [/a /b]";
       runs := [] |}
  /\ run (main no_plugin text_engine ["gator"]
            (Ok (js "{'type':'gator','plugin':'debug','patch':'hello'}")))
     = {| exit_code := Z.of_N ErrMergeJSONFailed; stdout := "";
          stderr := "failed to merge patch with downstream config; Invalid JSON Patch";
          runs := [] |}.
Proof. split; vm_compute; reflexivity. Qed.

Lemma skip_echoes_input_witness :
  run (main two_directories text_engine ["gator"]
         (Ok (js "{'type':'gator','plugin':'debug','skip':['ADD','DEL'],'patch':'{{'}")))
  = {| exit_code := 0;
       stdout := js "{'type':'gator','plugin':'debug','skip':['ADD','DEL'],'patch':'{{'}";
       stderr := ""; runs := [] |}.
Proof.
  eapply skip_echoes_input; vm_compute; reflexivity.
Defined.

Lemma undecodable_input_is_not_echoed_witness :
  run (main two_directories text_engine ["gator"]
         (Ok (js "{'plugin':'debug','skip':['ADD'],'patch':7}")))
  = {| exit_code := 6; stdout := "";
       stderr := "failed to parse JSON config; " ++ UnmarshalTypeError;
       runs := [] |}
  /\ run (main two_directories text_engine ["gator"] (Ok (js "{'plugin':'debug','skip':['ADD']")))
     = {| exit_code := 6; stdout := "";
          stderr := "failed to parse JSON config; " ++ SyntaxError;
          runs := [] |}.
Proof.
  split.
  - apply (undecodable_input_is_not_echoed two_directories text_engine ["gator"] _
             UnmarshalTypeError); reflexivity.
  - apply (undecodable_input_is_not_echoed two_directories text_engine ["gator"] _
             SyntaxError); reflexivity.
Defined.

(** ** The downstream configuration *)

Lemma field_print (k : string) (v : json) :
  wf v = true -> field k (print v) = obj_get k (members_of v).
Proof.
  intros H. unfold field. rewrite json_parse_print by now apply wf_nums_ok.
  now rewrite canon_id.
Qed.

Lemma get_merge (k : string) (t p : json) :
  wf p = true ->
  obj_get k (members_of (merge t p)) =
  match obj_get k (members_of p) with
  | None => match p with JObj _ => obj_get k (members_of t) | _ => None end
  | Some JNull => None
  | Some pv => Some (merge (or_null (obj_get k (members_of t))) pv)
  end.
Proof.
  intros Hp. destruct p as [| | | |xs|pms]; try reflexivity.
  { destruct t; reflexivity. }
  rewrite merge_obj. cbn [members_of]. simpl in Hp. apply andb_prop in Hp as [Hs _].
  rewrite (get_fold_merge _ _ _ Hs). destruct (obj_get k pms) as [[]|]; reflexivity.
Qed.

Lemma cleanup_value_wf (plugin : string) : canon (cleanup_value plugin)
  = JObj [("config", JNull); ("patch", JNull); ("plugin", JNull); ("type", JStr plugin)].
Proof. reflexivity. Qed.

Lemma cleaned_wf (env : json) (plugin : string) :
  nums_ok env = true -> wf (cleaned_value env (cleanup_value plugin)) = true.
Proof. intros H. now apply cleaned_value_wf. Qed.

(** What the cleanup leaves under each key of the envelope. *)
Lemma get_cleaned (k : string) (env : json) (plugin : string) :
  obj_get k (members_of (cleaned_value env (cleanup_value plugin))) =
  if String.eqb k "type" then Some (JStr plugin)
  else if String.eqb k "plugin" || String.eqb k "config" || String.eqb k "patch" then None
  else obj_get k (members_of (canon env)).
Proof.
  unfold cleaned_value. rewrite get_merge by reflexivity.
  rewrite cleanup_value_wf. cbn [members_of obj_get target_of cleanup_value].
  destruct (String.eqb k "config") eqn:E1; [rewrite orb_true_r; simpl|].
  { apply String.eqb_eq in E1. now subst. }
  destruct (String.eqb k "patch") eqn:E2; [rewrite orb_true_r|].
  { apply String.eqb_eq in E2. now subst. }
  destruct (String.eqb k "plugin") eqn:E3.
  { apply String.eqb_eq in E3. now subst. }
  destruct (String.eqb k "type") eqn:E4; reflexivity.
Qed.

(** What the first merge does for a plugin name that needs no escaping: the
    cleaned document has the plugin name under [type], has none of the keys
    [plugin], [config] and [patch], and keeps every other member of the
    envelope; the last merge puts one of these three keys into the final
    configuration only when the downstream document has it. *)
Lemma cleanup_strips_plugin_config_patch (E : TemplateEngine) (conf : PluginConfig)
  (final : bytes) :
  plain_name (Plugin conf) = true ->
  generateDownstream E conf = Ok final ->
  exists env cleaned downstream,
    json_parse (stdin conf) = Some env
    /\ MergePatch (stdin conf) (cleanup_patch (Plugin conf)) = Ok (print cleaned)
    /\ field "type" (print cleaned) = Some (JStr (Plugin conf))
    /\ (forall k, In k ["plugin"; "config"; "patch"] -> field k (print cleaned) = None)
    /\ (forall k, ~ In k ["type"; "plugin"; "config"; "patch"] ->
          field k (print cleaned) = field k (stdin conf))
    /\ MergePatch (print cleaned) (print downstream) = Ok final
    /\ (forall k, In k ["plugin"; "config"; "patch"] ->
          field k final <> None -> field k (print downstream) <> None).
Proof.
  intros Hplain Hg.
  destruct (generateDownstream_inv _ _ _ Hg)
    as (merger & env & cl & cfg & pv & Hr & He & Hcl & Hcfg & Hpv & H1 & H2 & H3 & -> & _ & _).
  rewrite (json_parse_cleanup _ Hplain) in Hcl. inversion Hcl; subst cl.
  pose proof (json_parse_nums_ok _ _ He) as Hen.
  assert (Hc : wf (cleaned_value env (cleanup_value (Plugin conf))) = true)
    by now apply cleaned_wf.
  assert (Hd : wf (downstream_value cfg pv) = true)
    by (unfold cleaned_value, downstream_value; eauto with documents).
  exists env, (cleaned_value env (cleanup_value (Plugin conf))), (downstream_value cfg pv).
  split; [assumption|]. split; [assumption|].
  split; [rewrite (field_print _ _ Hc), get_cleaned; reflexivity|].
  split.
  { intros k Hk. rewrite (field_print _ _ Hc), get_cleaned.
    simpl in Hk. destruct Hk as [<-|[<-|[<-|[]]]]; reflexivity. }
  split.
  { intros k Hk. rewrite (field_print _ _ Hc), get_cleaned. unfold field. rewrite He.
    destruct (String.eqb k "type") eqn:E1; [apply String.eqb_eq in E1; subst; simpl in Hk; tauto|].
    destruct (String.eqb k "plugin") eqn:E2; [apply String.eqb_eq in E2; subst; simpl in Hk; tauto|].
    destruct (String.eqb k "config") eqn:E3; [apply String.eqb_eq in E3; subst; simpl in Hk; tauto|].
    destruct (String.eqb k "patch") eqn:E4; [apply String.eqb_eq in E4; subst; simpl in Hk; tauto|].
    reflexivity. }
  split; [assumption|].
  intros k Hk Hfinal Hdown. apply Hfinal.
  assert (Hf : wf (final_value env (cleanup_value (Plugin conf)) cfg pv) = true)
    by (apply final_value_wf; eauto with documents).
  rewrite (field_print _ _ Hf). rewrite (field_print _ _ Hd) in Hdown.
  unfold final_value. rewrite (get_merge _ _ _ Hd), Hdown.
  destruct (downstream_value cfg pv); try reflexivity.
  cbn [target_of].
  rewrite get_cleaned. simpl in Hk. destruct Hk as [<-|[<-|[<-|[]]]]; reflexivity.
Qed.

(** C2 as stated fails: the envelope and the base configuration both have an
    object under [ipam], and the final configuration holds the merge of the
    two, not the object of the base configuration. *)
Lemma objects_are_merged_not_replaced :
  ~ downstream_value_replaces_envelope_value text_engine
      (js "{'type':'gator','plugin':'p','ipam':{'type':'host-local','subnet':'a'},'config':{'ipam':{'subnet':'b'}}}").
Proof.
  intros H.
  specialize (H _ "" (js "{'ipam':{'subnet':'b'}}")
                (js "{'ipam':{'subnet':'b','type':'host-local'},'type':'p'}")
                "ipam"
                (JObj [("subnet", JStr "a"); ("type", JStr "host-local")])
                (JObj [("subnet", JStr "b")]) eq_refl).
  assert (Hr : renders text_engine
            (decoded (js "{'type':'gator','plugin':'p','ipam':{'type':'host-local','subnet':'a'},'config':{'ipam':{'subnet':'b'}}}")) "").
  { eexists _, _. repeat split; reflexivity. }
  specialize (H Hr eq_refl eq_refl eq_refl eq_refl).
  vm_compute in H. discriminate.
Qed.

(** A text that begins with an opening brace is the text of an object, if
    of anything. *)
Lemma json_parse_brace (s : string) (v : json) :
  json_parse (String "{" s) = Some v -> exists ms, v = JObj ms.
Proof.
  unfold json_parse. cbn [String.length parse_value skip_ws].
  change (is_ws "{") with false. cbv iota. cbv zeta.
  change (is_numchar "{") with false. cbv iota.
  change (N_of_ascii "{" =? 34)%N with false. change (N_of_ascii "{" =? 91)%N with false.
  change (N_of_ascii "{" =? 123)%N with true. cbv iota.
  destruct (skip_ws s) as [|d s2]; [discriminate|].
  destruct (N_of_ascii d =? 125)%N.
  - destruct (skip_ws s2); intros H; inversion H; eauto.
  - destruct (parse_members _ s) as [[ms rest]|]; [|discriminate].
    destruct (skip_ws rest); intros H; inversion H; eauto.
Qed.

Lemma cleanup_patch_container (plugin : string) (cl : json) :
  json_parse (cleanup_patch plugin) = Some cl -> is_container cl = true.
Proof.
  unfold cleanup_patch.
  change (js "{'type': '") with (String "{" (js "'type': '")). cbn [append].
  intros H. apply json_parse_brace in H as [ms ->]. reflexivity.
Qed.

Lemma keys_below_get (k : string) (acc : list (string * json)) :
  forallb (fun kv => String.ltb (fst kv) k) acc = true -> obj_get k acc = None.
Proof.
  induction acc as [|[k' v'] acc IH]; [reflexivity|]. simpl.
  intros H. apply andb_prop in H as [H1 H2]. now rewrite (ltb_eqb _ _ H1), IH.
Qed.

(** Merging members without [null], in key order, onto members of lower
    keys appends them. *)
Lemma fold_merge_sorted (ms acc : list (string * json)) :
  Forall (fun kv => wf (snd kv) = true -> null_free (snd kv) = true ->
                    merge JNull (snd kv) = snd kv) ms ->
  forallb (fun kv => wf (snd kv)) ms = true ->
  forallb (fun kv => null_free (snd kv)) ms = true ->
  sorted_keys ms = true ->
  forallb (fun a => forallb (fun kv => String.ltb (fst a) (fst kv)) ms) acc = true ->
  fold_left merge_member ms acc = (acc ++ ms)%list.
Proof.
  revert acc. induction ms as [|[k v] ms IH]; intros acc HF Hw Hn Hs Hacc.
  - simpl. now rewrite app_nil_r.
  - simpl in *. inversion HF; subst. simpl in *.
    apply andb_prop in Hw as [Hv Hw]. apply andb_prop in Hn as [Hnv Hn].
    apply andb_prop in Hs as [Ha Hs].
    assert (Hbelow : forallb (fun kv => String.ltb (fst kv) k) acc = true).
    { rewrite forallb_forall in *. intros a Hin.
      specialize (Hacc a Hin). now apply andb_prop in Hacc as [Hacc _]. }
    assert (Hstep : merge_member acc (k, v) = (acc ++ [(k, v)])%list).
    { unfold merge_member. cbn [fst snd]. rewrite (keys_below_get _ _ Hbelow).
      rewrite (H1 Hv Hnv). rewrite obj_set_last by assumption.
      destruct v; try reflexivity. discriminate. }
    rewrite Hstep. rewrite IH; auto.
    + now rewrite <- app_assoc.
    + rewrite forallb_app. simpl. unfold keys_above in Ha. rewrite Ha. simpl.
      rewrite andb_true_r. rewrite forallb_forall in *. intros a Hin.
      specialize (Hacc a Hin). now apply andb_prop in Hacc as [_ Hacc].
Qed.

(** A value without [null] is added as it is. *)
Lemma merge_null_free (v : json) :
  wf v = true -> null_free v = true -> merge JNull v = v.
Proof.
  induction v as [| | | |xs IH|ms IH] using json_induction; simpl; auto.
  - intros Hw Hn. f_equal. rewrite forallb_forall in Hw, Hn. rewrite Forall_forall in IH.
    rewrite <- (map_id xs) at 2. apply map_ext_in. auto.
  - intros Hw Hn. apply andb_prop in Hw as [Hs Hw]. f_equal.
    change (fold_left merge_member ms [] = ms).
    now rewrite fold_merge_sorted.
Qed.

(** What a merge puts under a key for a patch value without [null]. *)
Lemma merge_onto (t dv : json) :
  wf dv = true -> null_free dv = true ->
  match dv with
  | JObj _ => True
  | _ => merge t dv = dv
  end.
Proof.
  intros Hw Hn. destruct dv; try exact I; try reflexivity.
  destruct t; try reflexivity; now apply (merge_null_free (JArr xs)).
Qed.

(** C2, amended.  For an envelope that is an object and a rendered patch that
    is an object, the three merges run in the order cleanup, downstream build,
    final merge, each on the result of the one before, and the synthesis
    succeeds.  A key under which the downstream document has [null] is not a
    key of the final configuration.  Under a key of the downstream document
    whose value holds no [null], the final configuration holds the merge of
    that value onto the cleaned value: the downstream value itself when it is
    a scalar or an array, and the member-wise merge of the two when it is an
    object. *)
Theorem downstream_is_merged_last (E : TemplateEngine) (data : bytes) (conf : PluginConfig)
  (merger : bytes) (ms pms : list (string * json)) (cl : json) :
  json_Unmarshal data (empty_config data) = Ok conf ->
  renders E conf merger ->
  json_parse data = Some (JObj ms) ->
  json_parse (cleanup_patch (Plugin conf)) = Some cl ->
  json_parse (normalize merger) = Some (JObj pms) ->
  exists cleaned downstream final,
    MergePatch data (cleanup_patch (Plugin conf)) = Ok cleaned
    /\ MergePatch (config_bytes conf) (normalize merger) = Ok downstream
    /\ MergePatch cleaned downstream = Ok final
    /\ generateDownstream E conf = Ok final
    /\ (forall k, field k downstream = Some JNull -> field k final = None)
    /\ forall k dv,
         field k downstream = Some dv ->
         null_free dv = true ->
         field k final = downstream_wins (field k cleaned) dv.
Proof.
  intros Hdec Hr He Hcl Hpv.
  destruct (json_Unmarshal_inv _ _ Hdec) as (Hs & _ & (cfg & Hcfg & Hcn)).
  rewrite <- Hs in He.
  pose proof (cleanup_patch_container _ _ Hcl) as Hclc.
  assert (Hen : JObj ms <> JNull) by discriminate.
  pose proof (generateDownstream_value E conf merger _ cl cfg _ Hr He Hcl Hcfg Hpv
                Hen Hclc Hcn eq_refl) as Hg.
  pose proof (json_parse_nums_ok _ _ He) as Hn1. pose proof (json_parse_nums_ok _ _ Hcl) as Hn2.
  pose proof (json_parse_nums_ok _ _ Hcfg) as Hn3.
  pose proof (json_parse_nums_ok _ _ Hpv) as Hn4.
  assert (Hc : wf (cleaned_value (JObj ms) cl) = true) by now apply cleaned_value_wf.
  assert (Hd : wf (downstream_value cfg (JObj pms)) = true) by now apply downstream_value_wf.
  assert (Hfin : wf (final_value (JObj ms) cl cfg (JObj pms)) = true)
    by now apply final_value_wf.
  exists (print (cleaned_value (JObj ms) cl)), (print (downstream_value cfg (JObj pms))),
    (print (final_value (JObj ms) cl cfg (JObj pms))).
  rewrite <- Hs.
  split; [now apply MergePatch_parsed|].
  split; [now apply MergePatch_parsed|].
  split; [now apply MergePatch_results|].
  split; [assumption|].
  assert (Hget : forall k,
            obj_get k (members_of (final_value (JObj ms) cl cfg (JObj pms)))
            = match obj_get k (members_of (downstream_value cfg (JObj pms))) with
              | None => obj_get k (members_of (cleaned_value (JObj ms) cl))
              | Some JNull => None
              | Some pv =>
                  Some (merge (or_null (obj_get k (members_of (cleaned_value (JObj ms) cl))))
                          pv)
              end).
  { intros k. unfold final_value. rewrite (get_merge _ _ _ Hd).
    unfold downstream_value at 2 3 4. rewrite canon_obj, merge_obj. cbn [target_of].
    reflexivity. }
  split.
  - intros k. rewrite (field_print _ _ Hd), (field_print _ _ Hfin), Hget.
    now intros ->.
  - intros k dv. rewrite (field_print _ _ Hd), (field_print _ _ Hc), (field_print _ _ Hfin), Hget.
    intros Hdv Hnf. rewrite Hdv.
    assert (Hwd : wf dv = true).
    { apply (obj_get_wf k dv (members_of (downstream_value cfg (JObj pms))));
        [now apply members_of_wf | assumption]. }
    pose proof (merge_onto (or_null (obj_get k (members_of (cleaned_value (JObj ms) cl)))) dv
                  Hwd Hnf) as Hm.
    destruct dv; try discriminate; cbn [downstream_wins]; try (now rewrite Hm); reflexivity.
Qed.

Lemma downstream_is_merged_last_witness :
  exists cleaned downstream final,
    MergePatch (js "{'type':'gator','plugin':'p','mtu':1500,'dns':{'a':1},'config':{'mtu':9000,'dns':{'b':[2]},'x':null}}")
      (cleanup_patch "p") = Ok cleaned
    /\ MergePatch (js "{'dns':{'b':[2]},'mtu':9000,'x':null}") "{}" = Ok downstream
    /\ MergePatch cleaned downstream = Ok final
    /\ generateDownstream text_engine
         (decoded (js "{'type':'gator','plugin':'p','mtu':1500,'dns':{'a':1},'config':{'mtu':9000,'dns':{'b':[2]},'x':null}}"))
       = Ok final
    /\ (forall k, field k downstream = Some JNull -> field k final = None)
    /\ forall k dv,
         field k downstream = Some dv ->
         null_free dv = true ->
         field k final = downstream_wins (field k cleaned) dv.
Proof.
  apply (downstream_is_merged_last text_engine
           (js "{'type':'gator','plugin':'p','mtu':1500,'dns':{'a':1},'config':{'mtu':9000,'dns':{'b':[2]},'x':null}}")
           (decoded (js "{'type':'gator','plugin':'p','mtu':1500,'dns':{'a':1},'config':{'mtu':9000,'dns':{'b':[2]},'x':null}}"))
           ""
           [("type", JStr "gator"); ("plugin", JStr "p"); ("mtu", JNum "1500");
            ("dns", JObj [("a", JNum "1")]);
            ("config", JObj [("mtu", JNum "9000"); ("dns", JObj [("b", JArr [JNum "2"])]);
                             ("x", JNull)])]
           []
           (cleanup_value "p")).
  - reflexivity.
  - exists "". eexists. repeat split.
  - reflexivity.
  - reflexivity.
  - reflexivity.
Defined.

(** C8 as stated fails: the patch [hello] is a template that executes, and
    its rendering is not JSON, so the second merge fails. *)
Lemma rendered_text_is_not_validated :
  ~ merge_failure_unreachable text_engine (js "{'type':'gator','plugin':'debug','patch':'hello'}").
Proof.
  intros H.
  assert (Hr : renders text_engine
            (decoded (js "{'type':'gator','plugin':'debug','patch':'hello'}")) "hello").
  { eexists _, _. repeat split; reflexivity. }
  apply (H _ "hello" _ eq_refl Hr eq_refl). reflexivity.
Qed.

(** A plugin name with a quote in it makes the cleanup patch ill-formed, so
    the first merge fails. *)
Lemma quoted_plugin_breaks_cleanup :
  ~ merge_failure_unreachable text_engine (js "{'type':'gator','plugin':'de\'bug'}").
Proof.
  intros H.
  assert (Hr : renders text_engine (decoded (js "{'type':'gator','plugin':'de\'bug'}")) "").
  { eexists _, _. repeat split; reflexivity. }
  apply (H _ "" _ eq_refl Hr eq_refl). reflexivity.
Qed.

(** C8, amended.  For an envelope that is an object, decoded, with a plugin
    name that needs no escaping and a template that has been executed: the
    first merge succeeds, the base configuration is JSON, and the third merge
    succeeds on whatever the second one returns, so that the synthesis
    succeeds whenever the second merge does.  The rendered patch is what
    nothing has checked: when it is not the text of an object or an array the
    second merge refuses it and the synthesis fails with the merge error code;
    when it is the text of an object no stage fails. *)
Theorem merge_failure_comes_from_the_rendered_patch (E : TemplateEngine) (data : bytes)
  (conf : PluginConfig) (merger : bytes) (ms : list (string * json)) :
  json_Unmarshal data (empty_config data) = Ok conf ->
  renders E conf merger ->
  json_parse data = Some (JObj ms) ->
  plain_name (Plugin conf) = true ->
  exists cleaned,
    MergePatch data (cleanup_patch (Plugin conf)) = Ok cleaned
    /\ (exists cfg, json_parse (config_bytes conf) = Some cfg /\ cfg <> JNull)
    /\ (forall downstream,
          MergePatch (config_bytes conf) (normalize merger) = Ok downstream ->
          exists final,
            MergePatch cleaned downstream = Ok final /\ generateDownstream E conf = Ok final)
    /\ (patch_accepted (normalize merger) = false ->
        MergePatch (config_bytes conf) (normalize merger) = Err ErrBadJSONPatch
        /\ generateDownstream E conf
           = Err (NewError ErrMergeJSONFailed "failed to merge patch with downstream config"
                    ErrBadJSONPatch))
    /\ ((exists pms, json_parse (normalize merger) = Some (JObj pms)) ->
        exists final, generateDownstream E conf = Ok final).
Proof.
  intros Hd Hr He Hplain.
  destruct (json_Unmarshal_inv _ _ Hd) as (Hs & _ & (cfg & Hcfg & Hcn)).
  rewrite <- Hs in He |- *.
  pose proof (json_parse_cleanup _ Hplain) as Hcl.
  assert (Hen : JObj ms <> JNull) by discriminate.
  assert (H1 : MergePatch (stdin conf) (cleanup_patch (Plugin conf))
               = Ok (print (cleaned_value (JObj ms) (cleanup_value (Plugin conf)))))
    by now apply MergePatch_parsed.
  exists (print (cleaned_value (JObj ms) (cleanup_value (Plugin conf)))).
  split; [assumption|]. split; [eauto|]. split; [|split].
  - intros downstream H2.
    apply MergePatch_inv in H2 as (cfg' & pv & Hcfg' & Hpv & -> & _ & Hpc).
    rewrite Hcfg in Hcfg'. inversion Hcfg'; subst cfg'.
    exists (print (final_value (JObj ms) (cleanup_value (Plugin conf)) cfg pv)). split.
    + apply MergePatch_results; eauto with documents.
    + now apply (generateDownstream_value E conf merger).
  - intros Hbad. unfold patch_accepted in Hbad.
    assert (H2 : MergePatch (config_bytes conf) (normalize merger) = Err ErrBadJSONPatch).
    { unfold MergePatch. rewrite Hcfg.
      destruct (json_parse (normalize merger)) as [pv|];
        destruct cfg; try (exfalso; now apply Hcn); try reflexivity;
        destruct pv; try discriminate; reflexivity. }
    split; [assumption|].
    destruct Hr as (tmpl & env' & Ht & He' & Hx).
    rewrite He in He'. inversion He'; subst env'.
    unfold generateDownstream, json_Unmarshal_interface. cbv zeta.
    rewrite Ht, He, Hx, H1. fold (config_bytes conf).
    change (if (String.length merger =? 0)%nat then "{}" else merger) with (normalize merger).
    now rewrite H2.
  - intros (pms & Hpv). eexists.
    now apply (generateDownstream_value E conf merger (JObj ms) (cleanup_value (Plugin conf))
                 cfg (JObj pms)).
Qed.

Lemma merge_failure_comes_from_the_rendered_patch_witness :
  exists cleaned,
    MergePatch (js "{'type':'gator','plugin':'debug','patch':'{\'mtu\':9000}'}")
      (cleanup_patch "debug") = Ok cleaned
    /\ (exists cfg, json_parse "{}" = Some cfg /\ cfg <> JNull)
    /\ (forall downstream,
          MergePatch "{}" (normalize (js "{'mtu':9000}")) = Ok downstream ->
          exists final,
            MergePatch cleaned downstream = Ok final
            /\ generateDownstream text_engine
                 (decoded (js "{'type':'gator','plugin':'debug','patch':'{\'mtu\':9000}'}"))
               = Ok final)
    /\ (patch_accepted (normalize (js "{'mtu':9000}")) = false ->
        MergePatch "{}" (normalize (js "{'mtu':9000}")) = Err ErrBadJSONPatch
        /\ generateDownstream text_engine
             (decoded (js "{'type':'gator','plugin':'debug','patch':'{\'mtu\':9000}'}"))
           = Err (NewError ErrMergeJSONFailed "failed to merge patch with downstream config"
                    ErrBadJSONPatch))
    /\ ((exists pms, json_parse (normalize (js "{'mtu':9000}")) = Some (JObj pms)) ->
        exists final,
          generateDownstream text_engine
            (decoded (js "{'type':'gator','plugin':'debug','patch':'{\'mtu\':9000}'}"))
          = Ok final).
Proof.
  apply (merge_failure_comes_from_the_rendered_patch text_engine
           (js "{'type':'gator','plugin':'debug','patch':'{\'mtu\':9000}'}")
           (decoded (js "{'type':'gator','plugin':'debug','patch':'{\'mtu\':9000}'}"))
           (js "{'mtu':9000}")
           [("type", JStr "gator"); ("plugin", JStr "debug");
            ("patch", JStr (js "{'mtu':9000}"))]).
  - reflexivity.
  - eexists _, _. repeat split; reflexivity.
  - reflexivity.
  - reflexivity.
Defined.

(** *** The empty patch *)

Lemma merge_empty (t : json) : merge t (JObj []) = JObj (members_of t).
Proof. destruct t; reflexivity. Qed.

Lemma normalize_empty : normalize "" = "{}".
Proof. reflexivity. Qed.

Lemma json_parse_empty_object : json_parse "{}" = Some (JObj []).
Proof. reflexivity. Qed.

Lemma generateDownstream_renders (E E' : TemplateEngine) (conf : PluginConfig)
  (merger merger' : bytes) :
  renders E conf merger -> renders E' conf merger' ->
  normalize merger = normalize merger' ->
  generateDownstream E conf = generateDownstream E' conf.
Proof.
  intros (tmpl & env & Ht & He & Hx) (tmpl' & env' & Ht' & He' & Hx') Hn.
  rewrite He in He'. inversion He'; subst env'.
  unfold generateDownstream, json_Unmarshal_interface. cbv zeta.
  rewrite Ht, Ht', He, Hx, Hx'.
  change (if (String.length merger =? 0)%nat then "{}" else merger) with (normalize merger).
  change (if (String.length merger' =? 0)%nat then "{}" else merger') with (normalize merger').
  now rewrite Hn.
Qed.

(** C9.  When the template renders nothing, the second merge is handed the
    text of the empty object in place of the rendering: the synthesis is the
    first merge, the merge of the empty object onto the base configuration,
    and the merge of its result onto the cleaned envelope, with the error of
    the stage that fails.  The empty object is the identity patch: merged onto
    a base configuration that is an object it gives a document with the same
    value under every key. *)
Theorem empty_rendering_is_the_empty_object (E : TemplateEngine) (conf : PluginConfig) :
  renders E conf "" ->
  generateDownstream E conf
  = match MergePatch (stdin conf) (cleanup_patch (Plugin conf)) with
    | Err err =>
        Err (NewError ErrMergeJSONFailed "failed to clean up undelegated config items" err)
    | Ok cleaned =>
        match MergePatch (config_bytes conf) "{}" with
        | Err err =>
            Err (NewError ErrMergeJSONFailed "failed to merge patch with downstream config" err)
        | Ok downstream =>
            match MergePatch cleaned downstream with
            | Err err =>
                Err (NewError ErrMergeJSONFailed
                       "failed to merge downstream config with original" err)
            | Ok final => Ok final
            end
        end
    end
  /\ forall cms,
       json_parse (config_bytes conf) = Some (JObj cms) ->
       exists downstream,
         MergePatch (config_bytes conf) "{}" = Ok downstream
         /\ forall k, field k downstream = field k (config_bytes conf).
Proof.
  intros (tmpl & env & Ht & He & Hx). split.
  - unfold generateDownstream, json_Unmarshal_interface. cbv zeta.
    rewrite Ht, He, Hx. fold (config_bytes conf). cbn [String.length Nat.eqb].
    destruct (MergePatch (stdin conf) _) as [cleaned|]; [|reflexivity].
    destruct (MergePatch (config_bytes conf) _) as [downstream|]; [|reflexivity].
    destruct (MergePatch cleaned downstream); reflexivity.
  - intros cms Hcfg. pose proof (json_parse_nums_ok _ _ Hcfg) as Hn.
    exists (print (canon (JObj cms))). split.
    + assert (Hne : JObj cms <> JNull) by discriminate.
      rewrite (MergePatch_parsed _ _ (JObj cms) (JObj []) Hcfg json_parse_empty_object Hne eq_refl).
      cbn [target_of]. change (canon (JObj [])) with (JObj []). now rewrite merge_empty.
    + intros k. rewrite field_print by now apply canon_wf.
      unfold field. now rewrite Hcfg.
Qed.

Lemma empty_rendering_is_the_empty_object_witness :
  generateDownstream text_engine
    (decoded (js "{'type':'gator','plugin':'debug','config':{'mtu':9000}}"))
  = match MergePatch (js "{'type':'gator','plugin':'debug','config':{'mtu':9000}}")
            (cleanup_patch "debug") with
    | Err err =>
        Err (NewError ErrMergeJSONFailed "failed to clean up undelegated config items" err)
    | Ok cleaned =>
        match MergePatch (js "{'mtu':9000}") "{}" with
        | Err err =>
            Err (NewError ErrMergeJSONFailed "failed to merge patch with downstream config" err)
        | Ok downstream =>
            match MergePatch cleaned downstream with
            | Err err =>
                Err (NewError ErrMergeJSONFailed
                       "failed to merge downstream config with original" err)
            | Ok final => Ok final
            end
        end
    end
  /\ forall cms,
       json_parse (js "{'mtu':9000}") = Some (JObj cms) ->
       exists downstream,
         MergePatch (js "{'mtu':9000}") "{}" = Ok downstream
         /\ forall k, field k downstream = field k (js "{'mtu':9000}").
Proof.
  apply (empty_rendering_is_the_empty_object text_engine
           (decoded (js "{'type':'gator','plugin':'debug','config':{'mtu':9000}}"))).
  exists "". eexists. repeat split.
Defined.

(** With an empty patch the downstream configuration is the cleaned envelope
    with the base configuration merged onto it. *)
Lemma empty_patch_is_a_no_op (E : TemplateEngine) (conf : PluginConfig) (env cfg : json) :
  renders E conf "" ->
  plain_name (Plugin conf) = true ->
  json_parse (stdin conf) = Some env ->
  json_parse (config_bytes conf) = Some cfg ->
  env <> JNull -> cfg <> JNull ->
  generateDownstream E conf
  = Ok (print (merge (cleaned_value env (cleanup_value (Plugin conf)))
                 (JObj (members_of (canon cfg))))).
Proof.
  intros Hr Hplain He Hcfg Hen Hcn.
  rewrite (generateDownstream_value E conf "" env (cleanup_value (Plugin conf)) cfg (JObj []));
    auto using json_parse_cleanup.
Qed.

(** The first example of [main_test.go]. *)
Lemma ExamplePluginNoOp :
  generateDownstream text_engine
    (decoded (js "{'type': 'gator', 'plugin': 'debug', 'prevResult': {'key': 'value'}}"))
  = Ok (js "{'prevResult':{'key':'value'},'type':'debug'}").
Proof. reflexivity. Qed.

(** The cleanup keeps the skip list of the envelope. *)
Lemma skip_survives_cleanup (env : json) (plugin : string) :
  nums_ok env = true ->
  field "skip" (print (cleaned_value env (cleanup_value plugin)))
  = obj_get "skip" (members_of (canon env)).
Proof.
  intros H. rewrite (field_print _ _ (cleaned_wf _ _ H)), get_cleaned. reflexivity.
Qed.

(** With an empty patch and no base configuration, the final configuration
    has under [skip] what the envelope has there. *)
Lemma empty_patch_keeps_skip (E : TemplateEngine) (conf : PluginConfig) (env : json) :
  renders E conf "" ->
  Config conf = None ->
  plain_name (Plugin conf) = true ->
  json_parse (stdin conf) = Some env ->
  env <> JNull ->
  exists final,
    generateDownstream E conf = Ok final
    /\ field "skip" final = field "skip" (stdin conf).
Proof.
  intros Hr Hc Hplain He Hen.
  assert (Hcfg : json_parse (config_bytes conf) = Some (JObj [])).
  { unfold config_bytes. now rewrite Hc. }
  eexists. split; [apply (empty_patch_is_a_no_op E conf env (JObj [])); auto; discriminate|].
  change (members_of (canon (JObj []))) with (@nil (string * json)).
  rewrite merge_empty.
  assert (Hw : wf (cleaned_value env (cleanup_value (Plugin conf))) = true)
    by (apply cleaned_wf; eauto with documents).
  unfold field at 2. rewrite He.
  change (JObj (members_of (cleaned_value env (cleanup_value (Plugin conf)))))
    with (cleaned_value env (cleanup_value (Plugin conf))) at 1.
  now rewrite (field_print _ _ Hw), get_cleaned.
Qed.

(** C1.  The cleanup patch that the program writes has no member for [skip]:
    for the envelope with plugin [debug] and skip list [DEL], run for a command
    that is not skipped, the configuration computed for the downstream plugin
    still has the key [skip].  The claim that no own field is a key of that
    configuration is false for this envelope. *)
Theorem skip_is_not_stripped :
  cleanup_patch "debug" = js "{'type': 'debug', 'plugin': null, 'config': null, 'patch': null}"
  /\ generateDownstream text_engine (decoded (js "{'type':'gator','plugin':'debug','skip':['DEL']}"))
     = Ok (js "{'skip':['DEL'],'type':'debug'}")
  /\ field "skip" (js "{'skip':['DEL'],'type':'debug'}") = Some (JArr [JStr "DEL"])
  /\ ~ own_fields_never_reach_downstream text_engine
        (js "{'type':'gator','plugin':'debug','skip':['DEL']}").
Proof.
  repeat split; try reflexivity.
  intros H.
  specialize (H _ (js "{'skip':['DEL'],'type':'debug'}") eq_refl eq_refl "skip").
  assert (Hin : In "skip" own_fields) by (simpl; tauto).
  specialize (H Hin). vm_compute in H. discriminate.
Qed.

(** C4.  With an empty patch and no base configuration, the downstream plugin
    receives the envelope with [type] rewritten and [plugin] removed, and
    with the skip list still in it: for the command [ADD] and the skip list
    [DEL] the process runs [/first/debug] on a configuration that has the
    key [skip]. *)
Theorem skip_list_reaches_downstream :
  run (main two_directories text_engine ["gator"]
         (Ok (js "{'type':'gator','plugin':'debug','skip':['DEL'],'prevResult':{'key':'value'}}")))
  = {| exit_code := 0;
       stdout := js "{'prevResult':{'key':'value'},'skip':['DEL'],'type':'debug'}";
       stderr := "";
       runs := [("/first/debug",
                 js "{'prevResult':{'key':'value'},'skip':['DEL'],'type':'debug'}")] |}.
Proof. vm_compute. reflexivity. Qed.

(** ** The two listings *)

(** After decoding, [prepare] computes what [generateDownstream] computes. *)
Lemma prepare_generateDownstream (E : TemplateEngine) (data : bytes) :
  MainGo.prepare E data =
  match MainGo.json_Unmarshal data
          {| MainGo.Config := None; MainGo.Patch := ""; MainGo.Plugin := "";
             MainGo.finalConfig := "" |} with
  | Err err => Err (NewError ErrDecodingFailure "failed to parse JSON config" err)
  | Ok c =>
      match generateDownstream E (of_main_go data c) with
      | Err err => Err err
      | Ok final =>
          Ok {| MainGo.Config := MainGo.Config c; MainGo.Patch := MainGo.Patch c;
                MainGo.Plugin := MainGo.Plugin c; MainGo.finalConfig := final |}
      end
  end.
Proof.
  unfold MainGo.prepare, generateDownstream. cbv zeta.
  destruct (MainGo.json_Unmarshal data _) as [c|]; [|reflexivity].
  cbn [of_main_go Config Patch Plugin stdin].
  destruct (template_Parse E (MainGo.Patch c)); [|reflexivity].
  destruct (json_Unmarshal_interface data); [|reflexivity].
  destruct (template_Execute E a a0); [|reflexivity].
  destruct (MergePatch data _); [|reflexivity].
  destruct (MergePatch _ _); [|reflexivity].
  destruct (MergePatch _ _); reflexivity.
Qed.

(** The error of the earlier listing when no directory holds the plugin: a
    text that names the plugin and no directory. *)
Lemma MainGo_getPluginPath_not_found (sys : OS) (plugin : string) :
  Forall (fun d => executable sys (filepath_Join d plugin) = false)
    (search_path (os_Getenv sys "CNI_PATH")) ->
  MainGo.getPluginPath sys plugin
  = Err ("error: cni executable not found in CNI_PATH: " ++ plugin).
Proof.
  intros H. unfold MainGo.getPluginPath. cbv zeta.
  assert (Hs : (if negb (String.eqb (os_Getenv sys "CNI_PATH") "")
                then ([] ++ strings_Split (os_Getenv sys "CNI_PATH") ":")%list
                else ["/opt/cni/bin"]) = search_path (os_Getenv sys "CNI_PATH")).
  { unfold search_path. destruct (String.eqb (os_Getenv sys "CNI_PATH") ""); reflexivity. }
  rewrite Hs, (find_executable_none _ _ _ H). reflexivity.
Qed.

(** The earlier listing has no skip list at all: the key [skip] of an
    envelope is one more member that the cleanup keeps. *)
Lemma prepare_keeps_skip :
  MainGo.prepare text_engine (js "{'type':'gator','plugin':'debug','skip':['DEL']}")
  = Ok {| MainGo.Config := None; MainGo.Patch := ""; MainGo.Plugin := "debug";
          MainGo.finalConfig := js "{'skip':['DEL'],'type':'debug'}" |}.
Proof. reflexivity. Qed.

(** * Further properties of the code *)

(** ** The latest listing as a process *)

Lemma main_version (sys : OS) (E : TemplateEngine) (args : list string)
  (input : result error_text bytes) (w : World) :
  version_flag args = true ->
  main sys E args input w =
  Exits 0 {| w_stdout := w_stdout w ++ "CNI gator plugin v0.0.1" ++ newline;
             w_stderr := w_stderr w; w_runs := w_runs w |}.
Proof.
  intros H. destruct args as [|a0 [|a1 args]]; try discriminate.
  simpl in H. unfold main. unfold bind at 1. rewrite H. reflexivity.
Qed.

(** X1.  When the first argument of the command line is [--version], [main]
    prints the version line and exits with status 0 before it looks at
    standard input: the outcome is the same for every input, also for one
    that cannot be read, and nothing is run. *)
Theorem version_flag_prints_version (sys : OS) (E : TemplateEngine) (args : list string)
  (input : result error_text bytes) :
  version_flag args = true ->
  run (main sys E args input)
  = {| exit_code := 0; stdout := "CNI gator plugin v0.0.1" ++ newline; stderr := "";
       runs := [] |}.
Proof.
  intros H. unfold run. rewrite (main_version _ _ _ _ _ H). reflexivity.
Qed.

Lemma version_flag_prints_version_witness :
  run (main no_plugin text_engine ["gator"; "--version"; "more"] (Err "read error"))
  = {| exit_code := 0; stdout := "CNI gator plugin v0.0.1" ++ newline; stderr := "";
       runs := [] |}.
Proof.
  apply (version_flag_prints_version no_plugin text_engine ["gator"; "--version"; "more"]).
  reflexivity.
Defined.

Lemma main_unreadable (sys : OS) (E : TemplateEngine) (args : list string)
  (ioerr : error_text) :
  version_flag args = false ->
  main sys E args (Err ioerr) initial_world =
  Exits 5 {| w_stdout := "";
             w_stderr := Error_Error (NewError ErrIOFailure "failed to read stdin" ioerr);
             w_runs := [] |}.
Proof.
  intros H. unfold main. destruct args as [|a0 [|a1 args]]; try reflexivity.
  simpl in H. unfold bind at 1. rewrite H. reflexivity.
Qed.

(** X2.  When standard input cannot be read, [main] reports an I/O failure:
    the message, followed by the text of the read error when it has one, goes
    to standard error, the exit status is 5, nothing is written to standard
    output and nothing is run. *)
Theorem unreadable_input_is_an_io_failure (sys : OS) (E : TemplateEngine)
  (args : list string) (ioerr : error_text) :
  version_flag args = false ->
  run (main sys E args (Err ioerr))
  = {| exit_code := 5; stdout := "";
       stderr := if String.eqb ioerr "" then "failed to read stdin"
                 else "failed to read stdin; " ++ ioerr;
       runs := [] |}.
Proof.
  intros H. unfold run. rewrite (main_unreadable _ _ _ _ H).
  cbn [exit_code stdout stderr runs w_stdout w_stderr w_runs].
  unfold Error_Error. cbn [Details Msg].
  destruct (String.eqb ioerr ""); reflexivity.
Qed.

Lemma unreadable_input_is_an_io_failure_witness :
  run (main two_directories text_engine ["gator"] (Err "read /dev/stdin: input/output error"))
  = {| exit_code := 5; stdout := "";
       stderr := "failed to read stdin; read /dev/stdin: input/output error";
       runs := [] |}.
Proof.
  apply (unreadable_input_is_an_io_failure two_directories text_engine ["gator"]).
  reflexivity.
Defined.

Lemma main_undecodable (sys : OS) (E : TemplateEngine) (args : list string) (data : bytes)
  (err : error_text) :
  version_flag args = false ->
  json_Unmarshal data (empty_config data) = Err err ->
  runs (run (main sys E args (Ok data))) = [].
Proof.
  intros Hv Hd. unfold run. rewrite (main_reads _ _ _ _ Hv).
  unfold bind at 1. rewrite (parseConf_fails_decoding _ _ _ _ _ Hd). reflexivity.
Qed.

Lemma main_skips (sys : OS) (E : TemplateEngine) (args : list string) (data : bytes)
  (conf : PluginConfig) :
  version_flag args = false ->
  json_Unmarshal data (empty_config data) = Ok conf ->
  skipped sys conf = true ->
  runs (run (main sys E args (Ok data))) = [].
Proof.
  intros Hv Hd Hs. unfold run. rewrite (main_reads _ _ _ _ Hv).
  unfold bind at 1. rewrite (parseConf_skips _ _ _ _ _ Hd Hs). reflexivity.
Qed.

(** X3.  [main] runs at most one command, and only after every earlier step
    succeeded: if a command was handed to [cmd.Run] at all, then the version
    was not asked for, standard input was read and decoded, the command of the
    environment is not in the skip list, the command is the path that
    [getPluginPath] resolved for the decoded plugin name, its standard input
    is the configuration that [generateDownstream] returned, and it is the
    only command run. *)
Theorem only_the_resolved_plugin_is_run (sys : OS) (E : TemplateEngine) (args : list string)
  (input : result error_text bytes) (pluginPath : string) (config : bytes) :
  In (pluginPath, config) (runs (run (main sys E args input))) ->
  exists data conf,
    input = Ok data
    /\ version_flag args = false
    /\ json_Unmarshal data (empty_config data) = Ok conf
    /\ skipped sys conf = false
    /\ generateDownstream E conf = Ok config
    /\ getPluginPath sys (Plugin conf) = Ok pluginPath
    /\ runs (run (main sys E args input)) = [(pluginPath, config)].
Proof.
  intros Hin.
  destruct (version_flag args) eqn:Hv.
  { unfold run in Hin. rewrite (main_version _ _ _ _ _ Hv) in Hin. destruct Hin. }
  destruct input as [data|ioerr].
  2:{ unfold run in Hin. rewrite (main_unreadable _ _ _ _ Hv) in Hin. destruct Hin. }
  destruct (json_Unmarshal data (empty_config data)) as [conf|err] eqn:Hd.
  2:{ rewrite (main_undecodable _ _ _ _ _ Hv Hd) in Hin. destruct Hin. }
  destruct (skipped sys conf) eqn:Hs.
  { rewrite (main_skips _ _ _ _ _ Hv Hd Hs) in Hin. destruct Hin. }
  destruct (generateDownstream E conf) as [downstream|err] eqn:Hg.
  2:{ rewrite (main_synthesis_fails _ _ _ _ _ Hv Hd Hs _ Hg) in Hin. destruct Hin. }
  destruct (getPluginPath sys (Plugin conf)) as [path|err] eqn:Hp.
  2:{ rewrite (main_not_found _ _ _ _ _ Hv Hd Hs _ _ Hg Hp) in Hin. destruct Hin. }
  rewrite (main_delegates _ _ _ _ _ Hv Hd Hs _ _ Hg Hp) in Hin |- *.
  cbn [runs] in Hin |- *. destruct Hin as [Heq|[]]. inversion Heq; subst.
  exists data, conf. repeat split; auto.
Qed.

Lemma only_the_resolved_plugin_is_run_witness :
  exists data conf,
    @Ok error_text bytes (js "{'type':'gator','plugin':'debug','config':{'mtu':9000}}") = Ok data
    /\ version_flag ["gator"] = false
    /\ json_Unmarshal data (empty_config data) = Ok conf
    /\ skipped two_directories conf = false
    /\ generateDownstream text_engine conf = Ok (js "{'mtu':9000,'type':'debug'}")
    /\ getPluginPath two_directories (Plugin conf) = Ok "/first/debug"
    /\ runs (run (main two_directories text_engine ["gator"]
                    (Ok (js "{'type':'gator','plugin':'debug','config':{'mtu':9000}}"))))
       = [("/first/debug", js "{'mtu':9000,'type':'debug'}")].
Proof.
  apply (only_the_resolved_plugin_is_run two_directories text_engine ["gator"]
           (Ok (js "{'type':'gator','plugin':'debug','config':{'mtu':9000}}"))
           "/first/debug" (js "{'mtu':9000,'type':'debug'}")).
  vm_compute. left. reflexivity.
Defined.

(** X4.  When the envelope decodes, is not skipped, the synthesis succeeds
    and the plugin is found, [main] runs the plugin once, with the environment
    of the process and the synthesized configuration on its standard input,
    writes what the plugin wrote to its standard output and standard error to
    its own, adding nothing, and exits with the exit code of the plugin when
    [cmd.Run] reports one, with 0 otherwise. *)
Theorem plugin_streams_and_status_are_relayed (sys : OS) (E : TemplateEngine)
  (args : list string) (data : bytes) (conf : PluginConfig) (downstream : bytes)
  (pluginPath : string) (r : RunResult) :
  version_flag args = false ->
  json_Unmarshal data (empty_config data) = Ok conf ->
  skipped sys conf = false ->
  generateDownstream E conf = Ok downstream ->
  getPluginPath sys (Plugin conf) = Ok pluginPath ->
  exec_Run sys pluginPath (os_Environ sys) downstream = r ->
  run (main sys E args (Ok data))
  = {| exit_code := match run_err r with
                    | Some (ExitError code) => code
                    | _ => 0%Z
                    end;
       stdout := run_stdout r;
       stderr := run_stderr r;
       runs := [(pluginPath, downstream)] |}.
Proof.
  intros Hv Hd Hs Hg Hp Hr. unfold run. rewrite (main_reads _ _ _ _ Hv).
  unfold bind at 1. rewrite (parseConf_continues _ _ _ _ _ Hd Hs), Hg.
  cbn [snd fst]. unfold bind at 1. unfold ret at 1.
  cbn [with_downstream Plugin downstreamConfig]. rewrite Hp.
  unfold bind at 1. unfold delegate. rewrite Hr. reflexivity.
Qed.

Lemma plugin_streams_and_status_are_relayed_witness :
  run (main failing_plugin text_engine ["gator"] (Ok (js "{'type':'gator','plugin':'debug'}")))
  = {| exit_code := 3; stdout := "{}"; stderr := "no such device";
       runs := [("/opt/cni/bin/debug", js "{'type':'debug'}")] |}.
Proof.
  apply (plugin_streams_and_status_are_relayed failing_plugin text_engine ["gator"]
           (js "{'type':'gator','plugin':'debug'}")
           (decoded (js "{'type':'gator','plugin':'debug'}"))
           (js "{'type':'debug'}") "/opt/cni/bin/debug"
           {| run_stdout := "{}"; run_stderr := "no such device";
              run_err := Some (ExitError 3) |}); reflexivity.
Defined.

(** X5.  A failure of the synthesis, or of the plugin lookup after a
    successful synthesis, ends the process before anything is run: the text of
    the error goes to standard error, the exit status is the code of the
    error, and standard output stays empty.  A failed synthesis is reported
    whether or not the plugin exists. *)
Theorem failure_before_delegation_runs_nothing (sys : OS) (E : TemplateEngine)
  (args : list string) (data : bytes) (conf : PluginConfig) (err : Error) :
  version_flag args = false ->
  json_Unmarshal data (empty_config data) = Ok conf ->
  skipped sys conf = false ->
  generateDownstream E conf = Err err
  \/ (exists downstream, generateDownstream E conf = Ok downstream)
     /\ getPluginPath sys (Plugin conf) = Err err ->
  run (main sys E args (Ok data))
  = {| exit_code := Z.of_N (Code err); stdout := ""; stderr := Error_Error err; runs := [] |}.
Proof.
  intros Hv Hd Hs [Hg|[[downstream Hg] Hp]].
  - now apply (main_synthesis_fails sys E args data conf).
  - now apply (main_not_found sys E args data conf Hv Hd Hs downstream).
Qed.

Lemma failure_before_delegation_runs_nothing_witness :
  run (main two_directories text_engine ["gator"]
         (Ok (js "{'type':'gator','plugin':'debug','patch':'{{'}")))
  = {| exit_code := 6; stdout := "";
       stderr := "failed to parse JSON merge patch template; template: outside the literal-text fragment";
       runs := [] |}.
Proof.
  apply (failure_before_delegation_runs_nothing two_directories text_engine ["gator"]
           (js "{'type':'gator','plugin':'debug','patch':'{{'}")
           (decoded (js "{'type':'gator','plugin':'debug','patch':'{{'}"))
           (NewError ErrDecodingFailure "failed to parse JSON merge patch template"
              "template: outside the literal-text fragment")).
  - reflexivity.
  - reflexivity.
  - reflexivity.
  - left. reflexivity.
Defined.

(** ** The stages of the synthesis *)



Lemma field_cleaned (k : string) (data : bytes) (env : json) (plugin : string) :
  json_parse data = Some env ->
  obj_get k (members_of (cleaned_value env (cleanup_value plugin)))
  = cleaned_field plugin data k.
Proof.
  intros He. rewrite get_cleaned. unfold cleaned_field, field. now rewrite He.
Qed.

(** X7.  The first merge, for an envelope that is an object and a plugin
    name that needs no escaping: it succeeds, and the cleaned document has the
    plugin name under [type], nothing under [plugin], [config] and [patch],
    and under every other key what the envelope has there. *)
Theorem cleanup_rewrites_type_and_removes_own_keys (data : bytes) (plugin : string)
  (ms : list (string * json)) :
  json_parse data = Some (JObj ms) ->
  plain_name plugin = true ->
  exists cleaned,
    MergePatch data (cleanup_patch plugin) = Ok cleaned
    /\ forall k, field k cleaned = cleaned_field plugin data k.
Proof.
  intros He Hp. exists (print (cleaned_value (JObj ms) (cleanup_value plugin))). split.
  - apply MergePatch_parsed;
      [assumption | now apply json_parse_cleanup | discriminate | reflexivity].
  - intros k. rewrite field_print by (apply cleaned_wf; eauto with documents).
    now apply field_cleaned.
Qed.

Lemma cleanup_rewrites_type_and_removes_own_keys_witness :
  exists cleaned,
    MergePatch (js "{'type':'gator','plugin':'debug','patch':'','name':'net','config':{}}")
      (cleanup_patch "debug") = Ok cleaned
    /\ forall k,
         field k cleaned
         = cleaned_field "debug"
             (js "{'type':'gator','plugin':'debug','patch':'','name':'net','config':{}}") k.
Proof.
  apply (cleanup_rewrites_type_and_removes_own_keys
           (js "{'type':'gator','plugin':'debug','patch':'','name':'net','config':{}}") "debug"
           [("type", JStr "gator"); ("plugin", JStr "debug"); ("patch", JStr "");
            ("name", JStr "net"); ("config", JObj [])]); reflexivity.
Defined.

(** X8.  A key that the downstream document (the rendered patch merged onto
    the base configuration) does not have is left to the cleanup: when the
    envelope and the downstream document are objects and the plugin name needs
    no escaping, the final configuration has under such a key the plugin name
    for [type], nothing for [plugin], [config] and [patch], and the value of
    the envelope for any other key. *)
Theorem keys_absent_from_downstream_pass_through (E : TemplateEngine) (conf : PluginConfig)
  (final : bytes) (ms : list (string * json)) :
  generateDownstream E conf = Ok final ->
  json_parse (stdin conf) = Some (JObj ms) ->
  plain_name (Plugin conf) = true ->
  exists merger downstream,
    renders E conf merger
    /\ MergePatch (config_bytes conf) (normalize merger) = Ok downstream
    /\ forall dms, json_parse downstream = Some (JObj dms) ->
       forall k, field k downstream = None ->
       field k final = cleaned_field (Plugin conf) (stdin conf) k.
Proof.
  intros Hg Hms Hplain.
  destruct (generateDownstream_inv _ _ _ Hg)
    as (merger & env & cl & cfg & pv & Hr & He & Hcl & Hcfg & Hpv & H1 & H2 & H3 & -> & Hclc & Hpc).
  rewrite (json_parse_cleanup _ Hplain) in Hcl. inversion Hcl; subst cl.
  exists merger, (print (downstream_value cfg pv)).
  split; [assumption|]. split; [assumption|].
  assert (Hd : wf (downstream_value cfg pv) = true)
    by (unfold downstream_value; eauto with documents).
  assert (Hc : wf (cleaned_value env (cleanup_value (Plugin conf))) = true)
    by (apply cleaned_wf; eauto with documents).
  intros dms Hdms k Hk.
  rewrite json_parse_print in Hdms by auto with documents. inversion Hdms as [Hdv].
  rewrite (field_print _ _ Hd) in Hk.
  rewrite field_print by (apply final_value_wf; eauto with documents).
  unfold final_value. rewrite (get_merge _ _ _ Hd), Hk, Hdv. cbn [target_of].
  now apply field_cleaned.
Qed.

Lemma keys_absent_from_downstream_pass_through_witness :
  exists merger downstream,
    renders text_engine
      (decoded (js "{'type':'gator','plugin':'debug','name':'net','config':{'mtu':9000}}")) merger
    /\ MergePatch (js "{'mtu':9000}") (normalize merger) = Ok downstream
    /\ forall dms, json_parse downstream = Some (JObj dms) ->
       forall k, field k downstream = None ->
       field k (js "{'mtu':9000,'name':'net','type':'debug'}")
       = cleaned_field "debug"
           (js "{'type':'gator','plugin':'debug','name':'net','config':{'mtu':9000}}") k.
Proof.
  apply (keys_absent_from_downstream_pass_through text_engine
           (decoded (js "{'type':'gator','plugin':'debug','name':'net','config':{'mtu':9000}}"))
           (js "{'mtu':9000,'name':'net','type':'debug'}")
           [("type", JStr "gator"); ("plugin", JStr "debug"); ("name", JStr "net");
            ("config", JObj [("mtu", JNum "9000")])]); reflexivity.
Defined.

(** X9.  Without a base configuration and with a template that renders
    nothing, the synthesis returns the very bytes of the first merge: the
    second and third merges change nothing.  (For an envelope that is an
    object and a plugin name that needs no escaping.) *)
Theorem no_op_is_the_cleaned_envelope (E : TemplateEngine) (conf : PluginConfig)
  (ms : list (string * json)) :
  renders E conf "" ->
  Config conf = None ->
  json_parse (stdin conf) = Some (JObj ms) ->
  plain_name (Plugin conf) = true ->
  exists cleaned,
    MergePatch (stdin conf) (cleanup_patch (Plugin conf)) = Ok cleaned
    /\ generateDownstream E conf = Ok cleaned.
Proof.
  intros Hr Hc He Hplain.
  exists (print (cleaned_value (JObj ms) (cleanup_value (Plugin conf)))). split.
  - apply MergePatch_parsed;
      [assumption | now apply json_parse_cleanup | discriminate | reflexivity].
  - rewrite (generateDownstream_value E conf "" (JObj ms) (cleanup_value (Plugin conf))
               (JObj []) (JObj [])); auto using json_parse_cleanup; try discriminate.
    unfold config_bytes. now rewrite Hc.
Qed.

Lemma no_op_is_the_cleaned_envelope_witness :
  exists cleaned,
    MergePatch (js "{'type': 'gator', 'plugin': 'debug', 'prevResult': {'key': 'value'}}")
      (cleanup_patch "debug") = Ok cleaned
    /\ generateDownstream text_engine
         (decoded (js "{'type': 'gator', 'plugin': 'debug', 'prevResult': {'key': 'value'}}"))
       = Ok cleaned.
Proof.
  apply (no_op_is_the_cleaned_envelope text_engine
           (decoded (js "{'type': 'gator', 'plugin': 'debug', 'prevResult': {'key': 'value'}}"))
           [("type", JStr "gator"); ("plugin", JStr "debug");
            ("prevResult", JObj [("key", JStr "value")])]).
  - exists "". eexists. repeat split.
  - reflexivity.
  - reflexivity.
  - reflexivity.
Defined.

(** X10.  Whatever the template renders, a configuration that the synthesis
    returns is a JSON document, and it is an object whenever the rendered
    patch, an empty rendering read as the empty object, is one. *)
Theorem downstream_config_is_json (E : TemplateEngine) (conf : PluginConfig)
  (final : bytes) :
  generateDownstream E conf = Ok final ->
  exists v,
    json_parse final = Some v
    /\ forall merger pms,
         renders E conf merger ->
         json_parse (normalize merger) = Some (JObj pms) ->
         exists fms, v = JObj fms.
Proof.
  intros Hg.
  destruct (generateDownstream_inv _ _ _ Hg)
    as (merger & env & cl & cfg & pv & Hr & He & Hcl & Hcfg & Hpv & H1 & H2 & H3 & -> & Hclc & Hpc).
  assert (Hf : wf (final_value env cl cfg pv) = true)
    by (apply final_value_wf; eauto with documents).
  exists (final_value env cl cfg pv). split.
  - apply json_parse_print; auto with documents.
  - intros merger' pms (tmpl & env' & Ht & He' & Hx) Hpv'.
    destruct Hr as (tmpl0 & env0 & Ht0 & He0 & Hx0).
    rewrite Ht0 in Ht. inversion Ht; subst tmpl0.
    rewrite He0 in He'. inversion He'; subst env0.
    rewrite Hx0 in Hx. inversion Hx; subst merger'.
    rewrite Hpv in Hpv'. inversion Hpv'; subst pv.
    unfold final_value, downstream_value. rewrite canon_obj, !merge_obj. eexists. reflexivity.
Qed.

Lemma downstream_config_is_json_witness :
  exists v,
    json_parse (js "{'a':1,'b':{'c':[true,null]},'type':'debug'}") = Some v
    /\ forall merger pms,
         renders text_engine
           (decoded (js "{'type':'gator','plugin':'debug','b':{'c':[true,null]},'patch':' { \'a\' : 1 } '}"))
           merger ->
         json_parse (normalize merger) = Some (JObj pms) ->
         exists fms, v = JObj fms.
Proof.
  apply (downstream_config_is_json text_engine
           (decoded (js "{'type':'gator','plugin':'debug','b':{'c':[true,null]},'patch':' { \'a\' : 1 } '}"))).
  reflexivity.
Defined.

(** ** Plugin resolution, both ways *)

Lemma find_executable_inv (sys : OS) (plugin : string) (dirs : list string) (path : string) :
  find_executable sys plugin dirs = Some path ->
  exists pre d post,
    dirs = (pre ++ d :: post)%list
    /\ path = filepath_Join d plugin
    /\ executable sys path = true
    /\ Forall (fun d' => executable sys (filepath_Join d' plugin) = false) pre.
Proof.
  induction dirs as [|p dirs IH]; [discriminate|].
  rewrite find_executable_step.
  destruct (executable sys (filepath_Join p plugin)) eqn:Hx.
  - intros H. inversion H; subst. exists [], p, dirs. repeat split; auto.
  - intros H. destruct (IH H) as (pre & d & post & -> & -> & Hd & Hpre).
    exists (p :: pre), d, post. repeat split; auto.
Qed.

Lemma find_executable_none_inv (sys : OS) (plugin : string) (dirs : list string) :
  find_executable sys plugin dirs = None ->
  Forall (fun d => executable sys (filepath_Join d plugin) = false) dirs.
Proof.
  induction dirs as [|p dirs IH]; [constructor|].
  rewrite find_executable_step.
  destruct (executable sys (filepath_Join p plugin)) eqn:Hx; [discriminate|].
  intros H. constructor; auto.
Qed.

(** X11.  A path that [getPluginPath] returns is the plugin name joined to a
    directory of the search path, it can be opened and has an execute bit set,
    and no directory listed before that one holds such a file: a file without
    an execute bit, or one that cannot be opened, is passed over. *)
Theorem getPluginPath_returns_the_first_executable (sys : OS) (plugin path : string) :
  getPluginPath sys plugin = Ok path ->
  exists pre d post,
    search_path (os_Getenv sys "CNI_PATH") = (pre ++ d :: post)%list
    /\ path = filepath_Join d plugin
    /\ executable sys path = true
    /\ Forall (fun d' => executable sys (filepath_Join d' plugin) = false) pre.
Proof.
  rewrite getPluginPath_search.
  destruct (find_executable sys plugin (search_path (os_Getenv sys "CNI_PATH")))
    as [found|] eqn:Hf; [|discriminate].
  intros H. inversion H; subst. now apply find_executable_inv.
Qed.

Lemma getPluginPath_returns_the_first_executable_witness :
  exists pre d post,
    search_path (os_Getenv first_not_executable "CNI_PATH") = (pre ++ d :: post)%list
    /\ "/second/debug" = filepath_Join d "debug"
    /\ executable first_not_executable "/second/debug" = true
    /\ Forall (fun d' => executable first_not_executable (filepath_Join d' "debug") = false) pre.
Proof.
  apply (getPluginPath_returns_the_first_executable first_not_executable "debug").
  reflexivity.
Defined.

(** X12.  [getPluginPath] fails exactly when no directory of the search path
    holds an executable file of the plugin's name, and its error is then the
    one of code 101 whose message names the plugin and whose details list the
    directories in the order searched, separated by blanks, between square
    brackets. *)
Theorem getPluginPath_fails_iff_nothing_is_executable (sys : OS) (plugin : string)
  (err : Error) :
  getPluginPath sys plugin = Err err
  <-> Forall (fun d => executable sys (filepath_Join d plugin) = false)
        (search_path (os_Getenv sys "CNI_PATH"))
      /\ err = NewError 101 ("cni executable not found in CNI_PATH: " ++ plugin)
                 ("checked: ["
                  ++ String.concat " " (search_path (os_Getenv sys "CNI_PATH")) ++ "]").
Proof.
  rewrite getPluginPath_search. split.
  - destruct (find_executable sys plugin (search_path (os_Getenv sys "CNI_PATH")))
      as [found|] eqn:Hf; [discriminate|].
    intros H. inversion H; subst. split; [now apply find_executable_none_inv | reflexivity].
  - intros [H ->]. now rewrite (find_executable_none _ _ _ H).
Qed.

(** X13.  With [CNI_PATH] unset or empty the only directory searched is
    [/opt/cni/bin]: the result is the plugin's path there when that file is
    executable, and otherwise the error that lists this directory alone. *)
Theorem empty_CNI_PATH_searches_the_default_directory (sys : OS) (plugin : string) :
  os_Getenv sys "CNI_PATH" = "" ->
  getPluginPath sys plugin
  = if executable sys (filepath_Join "/opt/cni/bin" plugin)
    then Ok (filepath_Join "/opt/cni/bin" plugin)
    else Err (NewError ErrMergeJSONFailed
                ("cni executable not found in CNI_PATH: " ++ plugin)
                "checked: [/opt/cni/bin]").
Proof.
  intros H. rewrite getPluginPath_search, H.
  change (search_path "") with ["/opt/cni/bin"].
  rewrite find_executable_step.
  destruct (executable sys (filepath_Join "/opt/cni/bin" plugin)); reflexivity.
Qed.

Lemma empty_CNI_PATH_searches_the_default_directory_witness :
  getPluginPath unstartable "debug"
  = if executable unstartable (filepath_Join "/opt/cni/bin" "debug")
    then Ok (filepath_Join "/opt/cni/bin" "debug")
    else Err (NewError ErrMergeJSONFailed
                ("cni executable not found in CNI_PATH: " ++ "debug")
                "checked: [/opt/cni/bin]").
Proof.
  apply (empty_CNI_PATH_searches_the_default_directory unstartable "debug"). reflexivity.
Defined.

(** X14.  An empty first element of [CNI_PATH] (a value that begins with a
    colon) is searched as the working directory: [filepath.Join] drops the
    empty directory, so the path tried first is the cleaned plugin name
    itself, and it is the result when that file is executable. *)
Theorem empty_path_element_is_the_working_directory (sys : OS) (plugin rest : string) :
  os_Getenv sys "CNI_PATH" = ":" ++ rest ->
  plugin <> "" ->
  executable sys (filepath_Clean plugin) = true ->
  getPluginPath sys plugin = Ok (filepath_Clean plugin).
Proof.
  intros Hp Hn Hx. rewrite getPluginPath_search, Hp.
  unfold search_path. cbn [append String.eqb Ascii.eqb Bool.eqb strings_Split].
  change (Ascii.eqb ":" ":") with true. cbv iota.
  rewrite find_executable_step.
  assert (Hj : filepath_Join "" plugin = filepath_Clean plugin).
  { unfold filepath_Join. cbn [String.eqb negb].
    destruct (String.eqb plugin "") eqn:E; [apply String.eqb_eq in E; contradiction|].
    reflexivity. }
  now rewrite Hj, Hx.
Qed.

Lemma empty_path_element_is_the_working_directory_witness :
  getPluginPath leading_colon "debug" = Ok (filepath_Clean "debug").
Proof.
  apply (empty_path_element_is_the_working_directory leading_colon "debug" "/opt/cni/bin").
  - reflexivity.
  - discriminate.
  - reflexivity.
Defined.

(** ** The listing of [src/main.go] against the latest one *)

Lemma decode_field_prepared (conf conf' : PluginConfig) (kv : string * json) (final : bytes) :
  decode_field conf kv = Ok conf' ->
  MainGo.decode_field (prepared conf final) kv = Ok (prepared conf' final).
Proof.
  unfold decode_field, MainGo.decode_field. cbv zeta.
  destruct (String.eqb (fold_name (fst kv)) "config").
  { intros H. inversion H; subst. reflexivity. }
  destruct (String.eqb (fold_name (fst kv)) "patch").
  { destruct (snd kv); intros H; inversion H; subst; reflexivity. }
  destruct (String.eqb (fold_name (fst kv)) "plugin").
  { destruct (snd kv); intros H; inversion H; subst; reflexivity. }
  destruct (String.eqb (fold_name (fst kv)) "skip").
  { destruct (snd kv); try discriminate.
    - intros H; inversion H; subst; reflexivity.
    - destruct (decode_strings xs); intros H; inversion H; subst; reflexivity. }
  intros H; inversion H; subst; reflexivity.
Qed.

Lemma decode_fields_prepared (ms : list (string * json)) (conf conf' : PluginConfig)
  (final : bytes) :
  decode_fields ms conf = Ok conf' ->
  MainGo.decode_fields ms (prepared conf final) = Ok (prepared conf' final).
Proof.
  revert conf. induction ms as [|kv ms IH]; intros conf H; simpl in *.
  - now inversion H.
  - destruct (decode_field conf kv) as [c1|] eqn:E; [|discriminate].
    rewrite (decode_field_prepared _ _ _ final E). now apply IH.
Qed.

Lemma json_Unmarshal_prepared (data : bytes) (conf conf' : PluginConfig) (final : bytes) :
  json_Unmarshal data conf = Ok conf' ->
  MainGo.json_Unmarshal data (prepared conf final) = Ok (prepared conf' final).
Proof.
  unfold json_Unmarshal, MainGo.json_Unmarshal.
  destruct (json_parse data) as [[| | | | |ms]|]; try discriminate.
  - intros H. now inversion H.
  - apply decode_fields_prepared.
Qed.

Lemma generateDownstream_reads (E : TemplateEngine) (conf conf' : PluginConfig) :
  Config conf = Config conf' -> Patch conf = Patch conf' -> Plugin conf = Plugin conf' ->
  stdin conf = stdin conf' ->
  generateDownstream E conf = generateDownstream E conf'.
Proof.
  intros Hc Hp Hn Hs. unfold generateDownstream. now rewrite Hc, Hp, Hn, Hs.
Qed.

(** X15.  On every envelope that the latest listing decodes, [prepare] of
    [src/main.go] does what decoding followed by [generateDownstream] does
    there: it fails with the same error, or returns the same three decoded
    fields with the same final configuration.  The skip list plays no part in
    it. *)
Theorem prepare_agrees_with_generateDownstream (E : TemplateEngine) (data : bytes)
  (conf : PluginConfig) :
  json_Unmarshal data (empty_config data) = Ok conf ->
  MainGo.prepare E data =
  match generateDownstream E conf with
  | Ok final => Ok (prepared conf final)
  | Err err => Err err
  end.
Proof.
  intros Hd. rewrite prepare_generateDownstream.
  change {| MainGo.Config := None; MainGo.Patch := ""; MainGo.Plugin := "";
            MainGo.finalConfig := "" |} with (prepared (empty_config data) "").
  rewrite (json_Unmarshal_prepared _ _ _ "" Hd).
  destruct (json_Unmarshal_inv _ _ Hd) as (Hs & _).
  rewrite (generateDownstream_reads E (of_main_go data (prepared conf "")) conf)
    by (cbn; auto).
  destruct (generateDownstream E conf); reflexivity.
Qed.

Lemma prepare_agrees_with_generateDownstream_witness :
  MainGo.prepare text_engine
    (js "{'type':'gator','plugin':'debug','skip':['DEL'],'config':{'mtu':1},'patch':'{\'mtu\':2}'}")
  = match generateDownstream text_engine
            (decoded (js "{'type':'gator','plugin':'debug','skip':['DEL'],'config':{'mtu':1},'patch':'{\'mtu\':2}'}")) with
    | Ok final =>
        Ok (prepared
              (decoded (js "{'type':'gator','plugin':'debug','skip':['DEL'],'config':{'mtu':1},'patch':'{\'mtu\':2}'}"))
              final)
    | Err err => Err err
    end.
Proof.
  apply (prepare_agrees_with_generateDownstream text_engine
           (js "{'type':'gator','plugin':'debug','skip':['DEL'],'config':{'mtu':1},'patch':'{\'mtu\':2}'}")).
  reflexivity.
Defined.

(** ** The listing of [src/main.go] as a process *)

Lemma ends_line_newline (s : string) : ends_line (s ++ newline) = true.
Proof.
  induction s as [|c s IH]; [reflexivity|].
  cbn [append]. destruct s; [reflexivity | exact IH].
Qed.

Lemma log_Println_writes (d : Diagnostics) (err : error_text) (w : World) :
  log_Println d err w =
  Returns tt {| w_stdout := w_stdout w;
                w_stderr := w_stderr w ++ log_header d ++ err ++ newline;
                w_runs := w_runs w |}.
Proof.
  unfold log_Println, log_Output, fmt_Fprint_Stderr.
  now rewrite ends_line_newline, append_nil_r.
Qed.

(** X16.  The exit status of the listing of [src/main.go] tells nothing
    about the plugin: [handleError] only logs, so the process ends with status
    0 when standard input cannot be read, when the plugin is not found, when
    it cannot be started and when it exits with any status; the only other
    status is 2, that of the panic after a failed [prepare]. *)
Theorem main_go_exit_status_ignores_failures (sys : OS) (E : TemplateEngine)
  (d : Diagnostics) (input : result error_text bytes) :
  exit_code (run (MainGo.main sys E d input)) =
  match input with
  | Ok data =>
      match MainGo.prepare E data with
      | Ok _ => 0%Z
      | Err _ => 2%Z
      end
  | Err _ => 0%Z
  end.
Proof.
  unfold run, MainGo.main. destruct input as [data|ioerr].
  - cbv zeta. destruct (MainGo.prepare E data) as [conf|err].
    + unfold bind at 1. unfold ret at 1. unfold bind, MainGo.delegate.
      destruct (MainGo.getPluginPath sys (MainGo.Plugin conf)) as [path|e].
      * unfold bind, cmd_Run, ret.
        destruct (run_err (exec_Run sys path (os_Environ sys) (MainGo.finalConfig conf)));
          reflexivity.
      * reflexivity.
    + reflexivity.
  - reflexivity.
Qed.

(** X17.  In the listing of [src/main.go] a failed [prepare] is logged and
    then [main] goes on with a nil configuration: the process panics.  Standard
    error holds the logged line followed by the report of the runtime, the
    exit status is 2, and nothing is run. *)
Theorem main_go_panics_after_a_failed_prepare (sys : OS) (E : TemplateEngine)
  (d : Diagnostics) (data : bytes) (err : Error) :
  MainGo.prepare E data = Err err ->
  run (MainGo.main sys E d (Ok data))
  = {| exit_code := 2; stdout := "";
       stderr := (log_header d ++ Error_Error err ++ newline) ++ panic_report d;
       runs := [] |}.
Proof.
  intros Hp. unfold run, MainGo.main. cbv zeta. rewrite Hp.
  unfold bind at 1. unfold MainGo.handleError. rewrite log_Println_writes.
  reflexivity.
Qed.

Lemma main_go_panics_after_a_failed_prepare_witness :
  run (MainGo.main two_directories text_engine sample_diagnostics
         (Ok (js "{'type':'gator','plugin':'debug','patch':'hello'}")))
  = {| exit_code := 2; stdout := "";
       stderr := (log_header sample_diagnostics
                  ++ Error_Error (NewError ErrMergeJSONFailed
                                    "failed to merge patch with downstream config"
                                    "Invalid JSON Patch")
                  ++ newline)
                 ++ panic_report sample_diagnostics;
       runs := [] |}.
Proof.
  apply (main_go_panics_after_a_failed_prepare two_directories text_engine sample_diagnostics
           (js "{'type':'gator','plugin':'debug','patch':'hello'}")).
  reflexivity.
Defined.

(** X18.  In the listing of [src/main.go] the plugin writes to the standard
    streams of the process itself, with the final configuration on its
    standard input; an error of [cmd.Run], an exit status or a failure to
    start, adds one logged line to standard error, and the process ends with
    status 0. *)
Theorem main_go_logs_what_the_plugin_reports (sys : OS) (E : TemplateEngine)
  (d : Diagnostics) (data : bytes) (conf : MainGo.PluginConfig) (pluginPath : string)
  (r : RunResult) :
  MainGo.prepare E data = Ok conf ->
  MainGo.getPluginPath sys (MainGo.Plugin conf) = Ok pluginPath ->
  exec_Run sys pluginPath (os_Environ sys) (MainGo.finalConfig conf) = r ->
  run (MainGo.main sys E d (Ok data))
  = {| exit_code := 0;
       stdout := run_stdout r;
       stderr := run_stderr r ++ logged d (run_err r);
       runs := [(pluginPath, MainGo.finalConfig conf)] |}.
Proof.
  intros Hp Hg Hr. unfold run, MainGo.main. cbv zeta. rewrite Hp.
  unfold bind at 1. unfold ret at 1. unfold bind at 1. unfold MainGo.delegate. rewrite Hg.
  unfold bind at 1. unfold cmd_Run. rewrite Hr. unfold ret at 1.
  cbn [initial_world w_stdout w_stderr w_runs append app].
  destruct (run_err r) as [e|]; cbn [option_map logged].
  - unfold MainGo.handleError. rewrite log_Println_writes. reflexivity.
  - unfold ret. cbn [exit_code stdout stderr runs w_stdout w_stderr w_runs].
    now rewrite append_nil_r.
Qed.

Lemma main_go_logs_what_the_plugin_reports_witness :
  run (MainGo.main failing_plugin text_engine sample_diagnostics
         (Ok (js "{'type':'gator','plugin':'debug'}")))
  = {| exit_code := 0;
       stdout := "{}";
       stderr := "no such device" ++ logged sample_diagnostics (Some (ExitError 3));
       runs := [("/opt/cni/bin/debug", js "{'type':'debug'}")] |}.
Proof.
  apply (main_go_logs_what_the_plugin_reports failing_plugin text_engine sample_diagnostics
           (js "{'type':'gator','plugin':'debug'}")
           {| MainGo.Config := None; MainGo.Patch := ""; MainGo.Plugin := "debug";
              MainGo.finalConfig := js "{'type':'debug'}" |}
           "/opt/cni/bin/debug"
           {| run_stdout := "{}"; run_stderr := "no such device";
              run_err := Some (ExitError 3) |}); reflexivity.
Defined.

(** ** The first listing as a process *)

(** X19.  The first listing hands the rendered patch to the second merge as
    it is.  A template that renders nothing, as the empty patch of an envelope
    without [patch] does, therefore makes that merge fail, if the first one
    did not: the process ends with status 1, having written nothing to
    standard output and run nothing. *)
Theorem first_listing_rejects_an_empty_rendering (sys : OS) (E : TemplateEngine)
  (d : Diagnostics) (data : bytes) (conf : FirstListing.PluginConfig)
  (tmpl : Template E) (env : json) :
  FirstListing.json_Unmarshal data first_listing_empty = Ok conf ->
  template_Parse E (FirstListing.Patch conf) = Ok tmpl ->
  json_parse data = Some env ->
  template_Execute E tmpl (canon env) = Ok "" ->
  exit_code (run (FirstListing.main sys E d (Ok data))) = 1%Z
  /\ stdout (run (FirstListing.main sys E d (Ok data))) = ""
  /\ runs (run (FirstListing.main sys E d (Ok data))) = [].
Proof.
  intros Hd Ht He Hx. unfold run, FirstListing.main. fold first_listing_empty.
  rewrite Hd, Ht. unfold json_Unmarshal_interface. rewrite He, Hx. cbv zeta.
  destruct (MergePatch data (cleanup_patch (FirstListing.Plugin conf))) as [cleaned|e];
    [|repeat split].
  set (downstreamConf := match FirstListing.Config conf with
                         | Some c => c
                         | None => "{}"
                         end).
  assert (Hm : exists e, MergePatch downstreamConf "" = Err e).
  { unfold MergePatch. destruct (json_parse downstreamConf); eexists; reflexivity. }
  destruct Hm as [e ->]. repeat split.
Qed.

Lemma first_listing_rejects_an_empty_rendering_witness :
  exit_code (run (FirstListing.main two_directories text_engine sample_diagnostics
                    (Ok (js "{'type':'gator','plugin':'debug'}")))) = 1%Z
  /\ stdout (run (FirstListing.main two_directories text_engine sample_diagnostics
                    (Ok (js "{'type':'gator','plugin':'debug'}")))) = ""
  /\ runs (run (FirstListing.main two_directories text_engine sample_diagnostics
                  (Ok (js "{'type':'gator','plugin':'debug'}")))) = [].
Proof.
  apply (first_listing_rejects_an_empty_rendering two_directories text_engine
           sample_diagnostics (js "{'type':'gator','plugin':'debug'}")
           {| FirstListing.Config := None; FirstListing.Patch := "";
              FirstListing.Plugin := "debug" |}
           ""
           (JObj [("type", JStr "gator"); ("plugin", JStr "debug")])); reflexivity.
Defined.

(** X20.  The first listing ends with status 0 or 1.  It ends with status 0
    only after it ran one command for which [cmd.Run] returned no error; every
    failure is status 1, either before anything is run or after the one
    command it ran returned an error, whatever the exit status of that
    command. *)
Theorem first_listing_exit_status (sys : OS) (E : TemplateEngine) (d : Diagnostics)
  (input : result error_text bytes) :
  (exit_code (run (FirstListing.main sys E d input)) = 0%Z
   /\ exists pluginPath config,
        runs (run (FirstListing.main sys E d input)) = [(pluginPath, config)]
        /\ run_err (exec_Run sys pluginPath (os_Environ sys) config) = None)
  \/ (exit_code (run (FirstListing.main sys E d input)) = 1%Z
      /\ (runs (run (FirstListing.main sys E d input)) = []
          \/ exists pluginPath config err,
               runs (run (FirstListing.main sys E d input)) = [(pluginPath, config)]
               /\ run_err (exec_Run sys pluginPath (os_Environ sys) config) = Some err)).
Proof.
  unfold run, FirstListing.main.
  destruct input as [data|e]; [|right; split; [reflexivity | left; reflexivity]].
  destruct (FirstListing.json_Unmarshal data _) as [conf|e];
    [|right; split; [reflexivity | left; reflexivity]].
  destruct (template_Parse E (FirstListing.Patch conf)) as [tmpl|e];
    [|right; split; [reflexivity | left; reflexivity]].
  destruct (json_Unmarshal_interface data) as [rawConf|e];
    [|right; split; [reflexivity | left; reflexivity]].
  destruct (template_Execute E tmpl rawConf) as [merger|e];
    [|right; split; [reflexivity | left; reflexivity]].
  cbv zeta.
  destruct (MergePatch data _) as [cleaned|e];
    [|right; split; [reflexivity | left; reflexivity]].
  destruct (MergePatch _ merger) as [downstream|e];
    [|right; split; [reflexivity | left; reflexivity]].
  destruct (MergePatch cleaned downstream) as [finalConf|e];
    [|right; split; [reflexivity | left; reflexivity]].
  destruct (FirstListing.getPluginPath sys (FirstListing.Plugin conf)) as [path|e];
    [|right; split; [reflexivity | left; reflexivity]].
  unfold bind, cmd_Run.
  destruct (run_err (exec_Run sys path (os_Environ sys) finalConf)) as [err|] eqn:Hr.
  - right. split; [reflexivity|]. right. exists path, finalConf, err.
    split; [reflexivity | exact Hr].
  - left. split; [reflexivity|]. exists path, finalConf. split; [reflexivity | exact Hr].
Qed.
